(** * Smart harvester: a shallow embedding of [smart_harvester.py]

    The development follows the Python module function by function.
    Conventions of the embedding:

    - a Python [str] is a [string] (code points below 256);
    - a Python [int] is a [Z];
    - a Python [float] is a [float64]: a finite value, given as a
      rational, an infinity or a NaN; every arithmetic operation is the
      exact operation on rationals followed by the rounding of IEEE 754
      binary64, to nearest with ties to even (the sign of zero is not
      kept: no decision of the module depends on it);
    - a Python [dict] with [str] keys is an association list in insertion
      order whose keys are pairwise distinct;
    - code that can raise returns a [result]; a method that changes the
      harvester and can raise is a [method], and [try ... except Exception]
      is [mtry];
    - what the module reads from the outside world (random draws, the
      clock, the scraper, the file system) is an explicit argument;
    - calls to the logger are left out: they do not change the state. *)

From Stdlib Require Import ZArith QArith Qround Qpower Qreduction.
From Stdlib Require Import List String Ascii Bool Arith Lia Lqa.
From Stdlib Require Import Permutation Sorted DecimalString.
From Stdlib Require Floats.SpecFloat.
Import ListNotations.

Local Open Scope string_scope.
Local Open Scope list_scope.
Local Open Scope Z_scope.

(** ** Exceptions and results *)

Inductive exn : Type :=
| KeyError (key : string)
| ValueError (msg : string)
| OverflowError (msg : string)
| ZeroDivisionError
| OSError (msg : string)
| TypeError (msg : string)
| AttributeError (msg : string)
| JSONDecodeError (msg : string).

Inductive result (A : Type) : Type :=
| Ok (a : A)
| Raise (e : exn).

Arguments Ok {A} a.
Arguments Raise {A} e.

Definition bind {A B : Type} (r : result A) (k : A -> result B) : result B :=
  match r with
  | Ok a => k a
  | Raise e => Raise e
  end.

Notation "x <- c ;; k" := (bind c (fun x => k))
  (at level 61, c at next level, right associativity).

(** Monadic iteration of a [for] loop whose body can raise. *)
Fixpoint for_each {A S : Type} (body : S -> A -> result S) (xs : list A) (s : S)
  : result S :=
  match xs with
  | [] => Ok s
  | x :: xs' => s' <- body s x ;; for_each body xs' s'
  end.

(** ** Python dictionaries with string keys *)

Module PyDict.

Definition dict (V : Type) : Type := list (string * V).

Section Ops.
Context {V : Type}.

Fixpoint get (d : dict V) (k : string) : option V :=
  match d with
  | [] => None
  | (k', v) :: d' => if String.eqb k k' then Some v else get d' k
  end.

(** [k in d] *)
Definition mem (k : string) (d : dict V) : bool :=
  match get d k with Some _ => true | None => false end.

(** [d[k] = v]: an existing key keeps its place, a new key goes last. *)
Fixpoint set (d : dict V) (k : string) (v : V) : dict V :=
  match d with
  | [] => [(k, v)]
  | (k', v') :: d' =>
      if String.eqb k k' then (k', v) :: d' else (k', v') :: set d' k v
  end.

(** [d[k]] *)
Definition getitem (d : dict V) (k : string) : result V :=
  match get d k with
  | Some v => Ok v
  | None => Raise (KeyError k)
  end.

Definition keys (d : dict V) : list string := map fst d.
Definition values (d : dict V) : list V := map snd d.
Definition items (d : dict V) : list (string * V) := d.
Definition len (d : dict V) : Z := Z.of_nat (List.length d).

(** The invariant of a dictionary: no key occurs twice. *)
Definition wf (d : dict V) : Prop := NoDup (keys d).

End Ops.

End PyDict.

Import PyDict.

(** ** Python floats: IEEE 754 binary64 with round to nearest, ties to even *)

Module Float64.

Local Open Scope Q_scope.

Inductive float64 : Type :=
| Fin (q : Q)        (* a finite value, in lowest terms *)
| Inf (neg : bool)   (* [Inf true] is minus infinity *)
| NaN.

Definition pow2 (e : Z) : Q := 2 ^ e.

(** The binade of a positive rational: [pow2 e <= q < pow2 (e + 1)]. *)
Definition binade (q : Q) : Z :=
  let g := (Z.log2 (Qnum q) - Z.log2 (Zpos (Qden q)))%Z in
  if Qle_bool (pow2 g) q then g else (g - 1)%Z.

(** Exponent of the unit in the last place: 53 bits of precision,
    subnormals below [pow2 (-1022)]. *)
Definition fexp (e : Z) : Z := Z.max (e - 52) (-1074).

(** Nearest integer, ties to even. *)
Definition rne (x : Q) : Z :=
  let f := Qfloor x in
  match ((x - inject_Z f) ?= (1 # 2))%Q with
  | Lt => f
  | Gt => (f + 1)%Z
  | Eq => if Z.even f then f else (f + 1)%Z
  end.

(** Rounding of a positive rational, before the overflow test. *)
Definition round_val (q : Q) : Q :=
  let ue := fexp (binade q) in
  inject_Z (rne (q / pow2 ue)) * pow2 ue.

Definition round_pos (neg : bool) (q : Q) : float64 :=
  let v := round_val q in
  if Qle_bool (pow2 1024) v then Inf neg
  else Fin (Qred (if neg then - v else v)).

Definition round (q : Q) : float64 :=
  match q ?= 0 with
  | Eq => Fin 0
  | Gt => round_pos false q
  | Lt => round_pos true (- q)
  end.

(** A decimal literal of the source denotes the nearest double. *)
Definition lit (q : Q) : float64 := round q.

(** *** Arithmetic *)

Definition is_zero (q : Q) : bool := Qeq_bool q 0.
Definition is_neg (q : Q) : bool := negb (Qle_bool 0 q).

Definition fneg (x : float64) : float64 :=
  match x with
  | Fin q => Fin (Qred (- q))
  | Inf s => Inf (negb s)
  | NaN => NaN
  end.

Definition fmul (x y : float64) : float64 :=
  match x, y with
  | NaN, _ | _, NaN => NaN
  | Fin a, Fin b => round (a * b)
  | Inf s, Fin a | Fin a, Inf s =>
      if is_zero a then NaN else Inf (xorb s (is_neg a))
  | Inf s, Inf t => Inf (xorb s t)
  end.

Definition fadd (x y : float64) : float64 :=
  match x, y with
  | NaN, _ | _, NaN => NaN
  | Fin a, Fin b => round (a + b)
  | Inf s, Fin _ | Fin _, Inf s => Inf s
  | Inf s, Inf t => if Bool.eqb s t then Inf s else NaN
  end.

Definition fsub (x y : float64) : float64 := fadd x (fneg y).

(** Float division; Python raises on a zero divisor. *)
Definition fdiv (x y : float64) : result float64 :=
  match x, y with
  | _, Fin b =>
      if is_zero b then Raise ZeroDivisionError
      else match x with
           | Fin a => Ok (round (a / b))
           | Inf s => Ok (Inf (xorb s (is_neg b)))
           | NaN => Ok NaN
           end
  | NaN, _ | _, NaN => Ok NaN
  | Fin _, Inf _ => Ok (Fin 0)
  | Inf _, Inf _ => Ok NaN
  end.

(** *** Comparisons (every comparison with a NaN is false) *)

Definition flt (x y : float64) : bool :=
  match x, y with
  | NaN, _ | _, NaN => false
  | Fin a, Fin b => negb (Qle_bool b a)
  | Fin _, Inf s => negb s
  | Inf s, Fin _ => s
  | Inf s, Inf t => s && negb t
  end.

Definition fle (x y : float64) : bool :=
  match x, y with
  | NaN, _ | _, NaN => false
  | Fin a, Fin b => Qle_bool a b
  | Fin _, Inf s => negb s
  | Inf s, Fin _ => s
  | Inf s, Inf t => s || negb t
  end.

Definition fge (x y : float64) : bool := fle y x.

(** *** Conversions *)

(** Truncation toward zero. *)
Definition Qtrunc (q : Q) : Z := Z.quot (Qnum q) (Zpos (Qden q)).

(** [int(x)] *)
Definition to_int (x : float64) : result Z :=
  match x with
  | Fin q => Ok (Qtrunc q)
  | Inf _ => Raise (OverflowError "cannot convert float infinity to integer")
  | NaN => Raise (ValueError "cannot convert float NaN to integer")
  end.

(** [float(n)] *)
Definition of_int (n : Z) : result float64 :=
  match round (inject_Z n) with
  | Inf _ => Raise (OverflowError "int too large to convert to float")
  | f => Ok f
  end.

(** [a / b] on two ints: the correctly rounded quotient. *)
Definition int_truediv (a b : Z) : result float64 :=
  if (b =? 0)%Z then Raise ZeroDivisionError
  else match round (inject_Z a / inject_Z b) with
       | Inf _ => Raise (OverflowError "integer division result too large for a float")
       | f => Ok f
       end.

End Float64.

Import Float64.

(** ** Numbers: a Python number is an int or a float *)

Inductive pynum : Type :=
| PInt (z : Z)
| PFloat (f : float64).

Module PyNum.

Definition to_float (n : pynum) : result float64 :=
  match n with
  | PInt z => of_int z
  | PFloat f => Ok f
  end.

Definition add (a b : pynum) : result pynum :=
  match a, b with
  | PInt x, PInt y => Ok (PInt (x + y))
  | _, _ => x <- to_float a ;; y <- to_float b ;; Ok (PFloat (fadd x y))
  end.

Definition sub (a b : pynum) : result pynum :=
  match a, b with
  | PInt x, PInt y => Ok (PInt (x - y))
  | _, _ => x <- to_float a ;; y <- to_float b ;; Ok (PFloat (fsub x y))
  end.

Definition mul (a b : pynum) : result pynum :=
  match a, b with
  | PInt x, PInt y => Ok (PInt (x * y))
  | _, _ => x <- to_float a ;; y <- to_float b ;; Ok (PFloat (fmul x y))
  end.

(** [a / b]: true division *)
Definition truediv (a b : pynum) : result pynum :=
  match a, b with
  | PInt x, PInt y => f <- int_truediv x y ;; Ok (PFloat f)
  | _, _ => x <- to_float a ;; y <- to_float b ;; f <- fdiv x y ;; Ok (PFloat f)
  end.

(** [a < b]: Python compares an int and a float by their exact values. *)
Definition lt (a b : pynum) : bool :=
  match a, b with
  | PInt x, PInt y => x <? y
  | PInt x, PFloat f => flt (Fin (inject_Z x)) f
  | PFloat f, PInt y => flt f (Fin (inject_Z y))
  | PFloat f, PFloat g => flt f g
  end.

End PyNum.

(** ** Decimal digits *)

Module Digits.

Definition digit_of_Z (n : Z) : ascii :=
  ascii_of_nat (48 + Z.to_nat (n mod 10)).

Definition is_digit (c : ascii) : bool :=
  let n := nat_of_ascii c in (48 <=? n)%nat && (n <=? 57)%nat.

Definition Z_of_digit (c : ascii) : Z := Z.of_nat (nat_of_ascii c) - 48.

(** [n] written with exactly [k] digits (the [%0kd] of a number below
    [10 ^ k]). *)
Fixpoint pad (k : nat) (n : Z) : string :=
  match k with
  | O => EmptyString
  | S k' => (pad k' (n / 10) ++ String (digit_of_Z n) EmptyString)%string
  end.

(** The value of a string of decimal digits; [None] on any other string. *)
Fixpoint parse_from (acc : Z) (s : string) : option Z :=
  match s with
  | EmptyString => Some acc
  | String c s' =>
      if is_digit c then parse_from (acc * 10 + Z_of_digit c) s' else None
  end.

Definition parse (s : string) : option Z :=
  match s with
  | EmptyString => None
  | _ => parse_from 0 s
  end.

End Digits.

(** ** [datetime] (naive, as [datetime.now()] returns it) *)

Record datetime : Type := mkDatetime {
  year : Z; month : Z; day : Z;
  hour : Z; minute : Z; second : Z; microsecond : Z
}.

Module Datetime.
Import Digits.

Definition in_range (lo hi n : Z) : bool := (lo <=? n) && (n <=? hi).

Definition is_leap (y : Z) : bool :=
  (y mod 4 =? 0) && (negb (y mod 100 =? 0) || (y mod 400 =? 0)).

Definition days_in_month (y m : Z) : Z :=
  if m =? 2 then (if is_leap y then 29 else 28)
  else if (m =? 4) || (m =? 6) || (m =? 9) || (m =? 11) then 30
  else 31.

(** The dates and times that [datetime] accepts. *)
Definition validb (t : datetime) : bool :=
  in_range 1 9999 (year t) && in_range 1 12 (month t) &&
  in_range 1 (days_in_month (year t) (month t)) (day t) &&
  in_range 0 23 (hour t) &&
  in_range 0 59 (minute t) && in_range 0 59 (second t) &&
  in_range 0 999999 (microsecond t).

Definition valid (t : datetime) : Prop := validb t = true.

(** [t.isoformat()]: [YYYY-MM-DDTHH:MM:SS], followed by [.ffffff] when the
    microseconds are not zero. *)
Definition isoformat (t : datetime) : string :=
  (pad 4 (year t) ++ "-" ++ pad 2 (month t) ++ "-" ++ pad 2 (day t) ++ "T" ++
   pad 2 (hour t) ++ ":" ++ pad 2 (minute t) ++ ":" ++ pad 2 (second t) ++
   (if (microsecond t =? 0)%Z then "" else "." ++ pad 6 (microsecond t)))%string.

(** [t.strftime('%Y%m%d_%H%M%S')] *)
Definition strftime_compact (t : datetime) : string :=
  (pad 4 (year t) ++ pad 2 (month t) ++ pad 2 (day t) ++ "_" ++
   pad 2 (hour t) ++ pad 2 (minute t) ++ pad 2 (second t))%string.

Definition expect (c : string) (s : string) (pos : nat) : option unit :=
  if String.eqb (substring pos 1 s) c then Some tt else None.

Definition field (s : string) (pos len : nat) : option Z :=
  let f := substring pos len s in
  if (String.length f =? len)%nat then parse f else None.

Definition obind {A B : Type} (o : option A) (k : A -> option B) : option B :=
  match o with Some a => k a | None => None end.

(** [datetime.fromisoformat(s)], on the strings that [isoformat] writes;
    any other string is a [ValueError]. *)
Definition fromisoformat_opt (s : string) : option datetime :=
  obind (field s 0 4) (fun y =>
  obind (expect "-" s 4) (fun _ =>
  obind (field s 5 2) (fun mo =>
  obind (expect "-" s 7) (fun _ =>
  obind (field s 8 2) (fun d =>
  obind (expect "T" s 10) (fun _ =>
  obind (field s 11 2) (fun h =>
  obind (expect ":" s 13) (fun _ =>
  obind (field s 14 2) (fun mi =>
  obind (expect ":" s 16) (fun _ =>
  obind (field s 17 2) (fun se =>
  obind (if (String.length s =? 19)%nat then Some 0
         else if (String.length s =? 26)%nat
              then obind (expect "." s 19) (fun _ => field s 20 6)
              else None) (fun us =>
  let t := mkDatetime y mo d h mi se us in
  if validb t then Some t else None)))))))))))).

Definition fromisoformat (s : string) : result datetime :=
  match fromisoformat_opt s with
  | Some t => Ok t
  | None => Raise (ValueError "Invalid isoformat string")
  end.

End Datetime.

(** ** The data model *)

(** [VideoData] of [facebook_video_scraper.py] *)
Record VideoData : Type := mkVideoData {
  video_id : string;
  title : string;
  url : string;
  date : string;
  date_raw : string;
  likes : Z;
  comments : Z;
  shares : Z;
  views : string;
  description : string;
  thumbnail_url : string
}.

Record ContinuationPoint : Type := mkContinuationPoint {
  strategy : string;
  reasoning : string;
  scroll_offset : Z;
  target_date_range : option string;
  anchor_video_id : option string;
  expected_scroll_depth : Z;
  date_filter_active : bool;
  scroll_strategy : string
}.

Record HarvestSession : Type := mkHarvestSession {
  session_id : string;
  timestamp : datetime;
  videos_found : Z;
  success_rate : pynum;
  completion_time : pynum;
  target_filter : string;
  total_score : Z;
  continuation_point : option ContinuationPoint
}.

Record HarvestStats : Type := mkHarvestStats {
  total_sessions : Z;
  total_videos : Z;
  unique_videos : Z;
  total_time : pynum;
  average_success_rate : pynum;
  stats_total_score : Z;
  best_session_score : Z;
  last_harvest : string
}.

Definition HarvestStats_default : HarvestStats :=
  mkHarvestStats 0 0 0 (PInt 0) (PInt 0) 0 0 "".

(** The state of a [SmartHarvester] object. *)
Record SmartHarvester : Type := mkSmartHarvester {
  sessions : list HarvestSession;
  all_videos : dict VideoData;
  harvest_stats : HarvestStats;
  session_gap_min : Z;
  session_gap_max : Z;
  duplicate_threshold : float64;
  early_check_count : Z
}.

Definition set_sessions (h : SmartHarvester) (x : list HarvestSession) :=
  mkSmartHarvester x (all_videos h) (harvest_stats h) (session_gap_min h)
    (session_gap_max h) (duplicate_threshold h) (early_check_count h).

Definition set_all_videos (h : SmartHarvester) (x : dict VideoData) :=
  mkSmartHarvester (sessions h) x (harvest_stats h) (session_gap_min h)
    (session_gap_max h) (duplicate_threshold h) (early_check_count h).

Definition set_harvest_stats (h : SmartHarvester) (x : HarvestStats) :=
  mkSmartHarvester (sessions h) (all_videos h) x (session_gap_min h)
    (session_gap_max h) (duplicate_threshold h) (early_check_count h).

(** ** Merging the videos of a session (the loop of [run_harvest_session]) *)

Record merge_state : Type := mkMergeState {
  merged : dict VideoData;   (* self.all_videos *)
  new_videos : Z;
  duplicate_videos : Z
}.

(** One iteration of [for video in videos]. *)
Definition merge_video (st : merge_state) (video : VideoData) : merge_state :=
  if negb (mem (video_id video) (merged st))
  then mkMergeState (PyDict.set (merged st) (video_id video) video)
                    (new_videos st + 1) (duplicate_videos st)
  else mkMergeState (merged st) (new_videos st) (duplicate_videos st + 1).

Definition merge_videos (all : dict VideoData) (videos : list VideoData)
  : merge_state :=
  fold_left merge_video videos (mkMergeState all 0 0).

(** The corpus after a sequence of sessions, each returning a batch. *)
Definition merge_sessions (all : dict VideoData)
  (batches : list (list VideoData)) : dict VideoData :=
  fold_left (fun d videos => merged (merge_videos d videos)) batches all.

(** ** Strings and regular expressions *)

Module PyStr.

Definition code (c : ascii) : nat := nat_of_ascii c.

(** [c.lower()] on code points below 256: the ASCII capitals and the
    Latin-1 capitals (U+00C0 to U+00DE without the multiplication sign). *)
Definition lower_char (c : ascii) : ascii :=
  let n := code c in
  if ((65 <=? n) && (n <=? 90) ||
      (192 <=? n) && (n <=? 222) && negb (n =? 215))%nat
  then ascii_of_nat (n + 32) else c.

Fixpoint lower (s : string) : string :=
  match s with
  | EmptyString => EmptyString
  | String c s' => String (lower_char c) (lower s')
  end.

(** [\d] on code points below 256 *)
Definition is_digit (c : ascii) : bool := Digits.is_digit c.

(** [\s] on code points below 256: tab to carriage return, the four
    separators U+001C to U+001F, the space, NEL and the no-break space. *)
Definition is_space (c : ascii) : bool :=
  let n := code c in
  ((9 <=? n) && (n <=? 13) || (28 <=? n) && (n <=? 32) ||
   (n =? 133) || (n =? 160))%nat.

(** [int(s)] for a string of decimal digits *)
Fixpoint int_from (acc : Z) (s : string) : Z :=
  match s with
  | EmptyString => acc
  | String c s' => int_from (acc * 10 + Digits.Z_of_digit c) s'
  end.

Definition digits_value (s : string) : Z := int_from 0 s.

(** [int(s)] for a string of decimal digits.  The conversion raises for a
    string of more than 4300 digits, leading zeros included: the limit
    [sys.int_info.default_max_str_digits] of Python 3.11 and of the
    security releases of 3.7 to 3.10. *)
Definition max_str_digits : nat := 4300.

Definition int_limit_error (digits : nat) : exn :=
  ValueError
    ("Exceeds the limit (4300 digits) for integer string conversion: " ++
     "value has " ++ NilZero.string_of_uint (Nat.to_uint digits) ++
     " digits; use sys.set_int_max_str_digits() to increase the limit").

Definition int_of_digits (s : string) : result Z :=
  if (max_str_digits <? String.length s)%nat
  then Raise (int_limit_error (String.length s))
  else Ok (digits_value s).

(** [s.startswith(p)] *)
Fixpoint startswith (p s : string) : bool :=
  match p, s with
  | EmptyString, _ => true
  | String a p', String b s' => Ascii.eqb a b && startswith p' s'
  | String _ _, EmptyString => false
  end.

Fixpoint drop (n : nat) (s : string) : string :=
  match n, s with
  | O, _ => s
  | S n', String _ s' => drop n' s'
  | S _, EmptyString => EmptyString
  end.

(** [bool(s)] *)
Definition truthy (s : string) : bool :=
  match s with EmptyString => false | _ => true end.

End PyStr.

(** A backtracking matcher with the priorities of Python's [re]: a greedy
    [+] tries the longest repetition first, an alternation tries its
    branches from left to right, and [search] takes the leftmost position
    at which a match exists. *)
Module Re.
Import PyStr.

Inductive regex : Type :=
| Lit (s : string)                 (* a literal string *)
| Plus (cls : ascii -> bool)       (* [c+] for a character class [c] *)
| Group (r : regex)                (* [( r )] *)
| Seq (r1 r2 : regex)
| Alt (r1 r2 : regex).

(** The groups captured so far, in the order in which they were closed. *)
Definition groups : Type := list string.

Definition cont : Type := string -> groups -> option groups.

(** [cls+] at [s]: one character of the class, then as many more as
    possible, giving characters back one at a time if the rest fails. *)
Fixpoint plus (cls : ascii -> bool) (s : string) (gs : groups) (k : cont)
  : option groups :=
  match s with
  | EmptyString => None
  | String c s' =>
      if cls c then
        match plus cls s' gs k with
        | Some r => Some r
        | None => k s' gs
        end
      else None
  end.

(** The text between the start [s] of a group and the rest [s'] of the
    input at its end. *)
Definition consumed (s s' : string) : string :=
  substring 0 (String.length s - String.length s') s.

Fixpoint exec (r : regex) (s : string) (gs : groups) (k : cont)
  : option groups :=
  match r with
  | Lit l => if startswith l s then k (drop (String.length l) s) gs else None
  | Plus cls => plus cls s gs k
  | Group r' => exec r' s gs (fun s' gs' => k s' (gs' ++ [consumed s s']))
  | Seq r1 r2 => exec r1 s gs (fun s' gs' => exec r2 s' gs' k)
  | Alt r1 r2 =>
      match exec r1 s gs k with
      | Some g => Some g
      | None => exec r2 s gs k
      end
  end.

(** [re.match(r, s)]: a match at the start of [s]. *)
Definition match_ (r : regex) (s : string) : option groups :=
  exec r s [] (fun _ gs => Some gs).

(** [re.search(r, s)] *)
Fixpoint search (r : regex) (s : string) : option groups :=
  match match_ r s with
  | Some gs => Some gs
  | None =>
      match s with
      | EmptyString => None
      | String _ s' => search r s'
      end
  end.

End Re.

(** ** [_parse_date_to_priority] *)

(** [(\d+)\s+(year|month|day|hour)] *)
Definition date_pattern : Re.regex :=
  Re.Seq (Re.Group (Re.Plus PyStr.is_digit))
    (Re.Seq (Re.Plus PyStr.is_space)
       (Re.Group (Re.Alt (Re.Lit "year")
                    (Re.Alt (Re.Lit "month")
                       (Re.Alt (Re.Lit "day") (Re.Lit "hour")))))).

Definition _parse_date_to_priority (date_str : string) : result Z :=
  if negb (PyStr.truthy date_str) then Ok 9999
  else
    match Re.search date_pattern (PyStr.lower date_str) with
    | Some [number_text; unit] =>
        number <- PyStr.int_of_digits number_text ;;
        if String.eqb unit "year" then Ok (number * 365)
        else if String.eqb unit "month" then Ok (number * 30)
        else if String.eqb unit "day" then Ok number
        else if String.eqb unit "hour" then Ok 0
        else Ok 5000
    | _ => Ok 5000
    end.

(** ** Built-ins used by the planner *)

Module Py.

(** [str(n)] *)
Definition str (n : Z) : string := NilZero.string_of_int (Z.to_int n).

(** [s[-n:]] for a positive [n] *)
Definition last_chars (n : nat) (s : string) : string :=
  PyStr.drop (String.length s - n) s.

(** [l[-n:]] for a positive [n] *)
Definition last_items {A : Type} (n : nat) (l : list A) : list A :=
  skipn (List.length l - n) l.

(** [random.randint(lo, hi)], where [draw] is the number the generator
    gives; the range must not be empty. *)
Definition randint (lo hi draw : Z) : result Z :=
  if (lo <=? draw) && (draw <=? hi) then Ok draw
  else Raise (ValueError "empty range for randrange()").

(** A stable sort by an integer key: [sorted(l, key=key)]. *)
Section Sorting.
Context {A : Type} (key : A -> Z).

Fixpoint insert (x : A) (l : list A) : list A :=
  match l with
  | [] => [x]
  | y :: l' => if key x <=? key y then x :: y :: l' else y :: insert x l'
  end.

Fixpoint sorted (l : list A) : list A :=
  match l with
  | [] => []
  | x :: l' => insert x (sorted l')
  end.

End Sorting.

(** [sorted(l, key=key, reverse=True)]: descending, still stable. *)
Definition sorted_reverse {A : Type} (key : A -> Z) (l : list A) : list A :=
  sorted (fun x => - key x) l.

(** [[f(x) for x in l]] with an [f] that can raise: the first error, in
    the order of the list. *)
Fixpoint map_result {A B : Type} (f : A -> result B) (l : list A)
  : result (list B) :=
  match l with
  | [] => Ok []
  | x :: l' => y <- f x ;; ys <- map_result f l' ;; Ok (y :: ys)
  end.

(** [sorted(l, key=key)] with a key that can raise: the keys of all items
    are computed first, in the order of the list, and the items are then
    sorted by them. *)
Definition sorted_by {A : Type} (key : A -> result Z) (l : list A)
  : result (list A) :=
  keys <- map_result key l ;;
  Ok (map fst (sorted snd (combine l keys))).

End Py.

(** ** [_should_continue_session] *)

Definition _should_continue_session (self : SmartHarvester)
  (scraped_videos : list VideoData) : result bool :=
  if Z.of_nat (List.length scraped_videos) <? early_check_count self
  then Ok true
  else
    let duplicates :=
      Z.of_nat (List.length
                  (filter (fun video => mem (video_id video) (all_videos self))
                          scraped_videos)) in
    duplicate_rate <-
      int_truediv duplicates (Z.of_nat (List.length scraped_videos)) ;;
    if fge duplicate_rate (duplicate_threshold self) then Ok false
    else Ok true.

(** ** [_calculate_session_gap] *)

(** [base_draw] is what [random.randint] gives for the base gap. *)
Definition _calculate_session_gap (self : SmartHarvester) (base_draw : Z)
  (gap_multiplier : float64) : result Z :=
  base_gap <-
    Py.randint (session_gap_min self) (session_gap_max self) base_draw ;;
  gap_multiplier <-
    (if 2 <=? Z.of_nat (List.length (sessions self)) then
       let recent_success_rates :=
         map success_rate (Py.last_items 2 (sessions self)) in
       match recent_success_rates with
       | [rate0; rate1] =>
           bound <- PyNum.sub rate0 (PInt 10) ;;
           if PyNum.lt rate1 bound
           then Ok (fmul gap_multiplier (lit 3))
           else Ok gap_multiplier
       | _ => Ok gap_multiplier
       end
     else Ok gap_multiplier) ;;
  let gap_multiplier :=
    if 2 <=? Z.of_nat (List.length (sessions self))
    then fmul gap_multiplier (lit (5 # 2))
    else gap_multiplier in
  base_float <- of_int base_gap ;;
  final_gap <- to_int (fmul base_float gap_multiplier) ;;
  Ok (Z.min (Z.max final_gap 30) 300).

(** ** [_analyze_collection_gaps] *)

(** The values of the dictionary the analysis returns. *)
Inductive analysis_value : Type :=
| AInt (n : Z)
| AStr (s : string)
| AStrList (l : list string)
| AGroups (l : list (string * list VideoData)).

(** [date_groups[date_key].append(video)], creating the group first when
    the key is new. *)
Definition group_add (date_groups : dict (list VideoData)) (video : VideoData)
  : dict (list VideoData) :=
  let date_key := date video in
  match PyDict.get date_groups date_key with
  | None => PyDict.set date_groups date_key [video]
  | Some group => PyDict.set date_groups date_key (group ++ [video])
  end.

Definition _analyze_collection_gaps (self : SmartHarvester)
  : result (dict analysis_value) :=
  match all_videos self with
  | [] => Ok [("strategy", AStr "fresh_start");
              ("reasoning", AStr "No existing videos")]
  | _ =>
      let videos_with_dates :=
        filter (fun v => PyStr.truthy (date v) &&
                         negb (String.eqb (date v) ""))
               (values (all_videos self)) in
      let date_groups := fold_left group_add videos_with_dates [] in
      sorted_dates <-
        Py.sorted_by _parse_date_to_priority (keys date_groups) ;;
      Ok [("total_videos", AInt (len (all_videos self)));
          ("date_ranges", AInt (len date_groups));
          ("most_recent_dates", AStrList (firstn 3 sorted_dates));
          ("largest_date_groups",
           AGroups (firstn 3
                      (Py.sorted_reverse
                         (fun x => Z.of_nat (List.length (snd x)))
                         (items date_groups))))]
  end.

(** ** [_calculate_advanced_continuation_point] *)

Definition session_label (session_num : Z) : string :=
  ("Session " ++ Py.str (session_num + 1))%string.

(** [offset_draw] is what [random.randint(10, 15)] gives. *)
Definition _calculate_advanced_continuation_point (self : SmartHarvester)
  (session_num : Z) (offset_draw : Z) : result ContinuationPoint :=
  if session_num =? 0 then
    Ok (mkContinuationPoint "fresh_start" "Session 1: Fresh start from top"
          0 None None 0 false "standard")
  else
    analysis <- _analyze_collection_gaps self ;;
    if session_num =? 1 then
      scroll_offset <- Py.randint 10 15 offset_draw ;;
      Ok (mkContinuationPoint "scroll_offset"
            ("Session 2: Start at scroll " ++ Py.str scroll_offset ++
             " to avoid overlap")%string
            scroll_offset None None (scroll_offset + 20) false "adaptive")
    else
      dated_videos <-
        (if 2 <=? session_num then
           Py.map_result
             (fun vid =>
                priority <- _parse_date_to_priority (date vid) ;;
                Ok (vid, priority))
             (filter (fun vid => PyStr.truthy (date vid))
                     (values (all_videos self)))
         else Ok []) ;;
      match dated_videos with
      | first :: _ =>
          let dated_videos := Py.sorted snd dated_videos in
          let target_index :=
            Z.min (Z.of_nat (List.length dated_videos) / 2)
                  (Z.of_nat (List.length dated_videos) - 1) in
          let anchor_video :=
            fst (nth (Z.to_nat target_index) dated_videos first) in
          let scroll_depth := Z.min (session_num * 12) 50 in
          Ok (mkContinuationPoint "video_id_anchor"
                (session_label session_num ++ ": Continue from video " ++
                 Py.last_chars 8 (video_id anchor_video) ++ "... (" ++
                 date anchor_video ++ ")")%string
                scroll_depth (Some (date anchor_video))
                (Some (video_id anchor_video)) (scroll_depth + 15)
                true "deep")
      | [] =>
          recent <- getitem analysis "most_recent_dates" ;;
          match recent with
          | AStrList (d :: ds) =>
              let target_date := last ds d in
              Ok (mkContinuationPoint "date_anchor"
                    (session_label session_num ++ ": Target " ++
                     target_date ++ " content")%string
                    (session_num * 8) (Some target_date) None
                    (session_num * 8 + 20) true "adaptive")
          | AStrList [] =>
              Ok (mkContinuationPoint "deep_scroll"
                    (session_label session_num ++
                     ": Deep scroll continuation")%string
                    (session_num * 10) None None
                    (session_num * 10 + 25) false "deep")
          | _ => Raise (TypeError "most_recent_dates is not a list")
          end
      end.

(** ** JSON documents *)

Unset Elimination Schemes.

Inductive json : Type :=
| JNull
| JBool (b : bool)
| JNum (n : pynum)
| JStr (s : string)
| JList (l : list json)
| JObj (o : list (string * json)).

Set Elimination Schemes.

Module Json.

(** [bool(v)] *)
Definition truthy (v : json) : bool :=
  match v with
  | JNull => false
  | JBool b => b
  | JNum (PInt z) => negb (z =? 0)
  | JNum (PFloat (Fin q)) => negb (Qeq_bool q 0)
  | JNum (PFloat _) => true
  | JStr s => PyStr.truthy s
  | JList l => match l with [] => false | _ => true end
  | JObj o => match o with [] => false | _ => true end
  end.

(** [v[key]] *)
Definition getitem (v : json) (key : string) : result json :=
  match v with
  | JObj o => PyDict.getitem o key
  | _ => Raise (TypeError "indices must be integers or the value is not subscriptable")
  end.

(** [v.get(key, default)] *)
Definition get (v : json) (key : string) (default : json) : result json :=
  match v with
  | JObj o =>
      match PyDict.get o key with
      | Some x => Ok x
      | None => Ok default
      end
  | _ => Raise (AttributeError "object has no attribute 'get'")
  end.

(** [v.items()] *)
Definition items (v : json) : result (list (string * json)) :=
  match v with
  | JObj o => Ok o
  | _ => Raise (AttributeError "object has no attribute 'items'")
  end.

(** [for x in v] *)
Definition iterate (v : json) : result (list json) :=
  match v with
  | JList l => Ok l
  | JObj o => Ok (map (fun kv => JStr (fst kv)) o)
  | JStr s => Ok (map (fun c => JStr (String c EmptyString))
                      (list_ascii_of_string s))
  | _ => Raise (TypeError "object is not iterable")
  end.

(** The records of the embedding are typed.  Python stores a value of
    any type in a field and fails when the field is used; the embedding
    raises [TypeError] when such a value is read from the document. *)
Definition to_str (v : json) : result string :=
  match v with
  | JStr s => Ok s
  | _ => Raise (TypeError "a string was expected")
  end.

Definition to_int (v : json) : result Z :=
  match v with
  | JNum (PInt z) => Ok z
  | _ => Raise (TypeError "an int was expected")
  end.

Definition to_num (v : json) : result pynum :=
  match v with
  | JNum n => Ok n
  | _ => Raise (TypeError "a number was expected")
  end.

Definition to_bool (v : json) : result bool :=
  match v with
  | JBool b => Ok b
  | _ => Raise (TypeError "a bool was expected")
  end.

Definition to_opt_str (v : json) : result (option string) :=
  match v with
  | JNull => Ok None
  | JStr s => Ok (Some s)
  | _ => Raise (TypeError "a string or null was expected")
  end.

Definition of_opt_str (o : option string) : json :=
  match o with
  | None => JNull
  | Some s => JStr s
  end.

End Json.

(** [dataclasses.asdict] *)
Definition asdict_video (v : VideoData) : json :=
  JObj [("video_id", JStr (video_id v));
        ("title", JStr (title v));
        ("url", JStr (url v));
        ("date", JStr (date v));
        ("date_raw", JStr (date_raw v));
        ("likes", JNum (PInt (likes v)));
        ("comments", JNum (PInt (comments v)));
        ("shares", JNum (PInt (shares v)));
        ("views", JStr (views v));
        ("description", JStr (description v));
        ("thumbnail_url", JStr (thumbnail_url v))].

Definition asdict_continuation (c : ContinuationPoint) : json :=
  JObj [("strategy", JStr (strategy c));
        ("reasoning", JStr (reasoning c));
        ("scroll_offset", JNum (PInt (scroll_offset c)));
        ("target_date_range", Json.of_opt_str (target_date_range c));
        ("anchor_video_id", Json.of_opt_str (anchor_video_id c));
        ("expected_scroll_depth", JNum (PInt (expected_scroll_depth c)));
        ("date_filter_active", JBool (date_filter_active c));
        ("scroll_strategy", JStr (scroll_strategy c))].

(** ** The harvest file *)

(** What [harvest_results.json] holds: nothing, something that cannot be
    opened or parsed, or a JSON object. *)
Inductive disk : Type :=
| NoFile
| Unreadable (e : exn)
| Document (data : list (string * json)).

(** ** State and exceptions together *)

(** A method of the harvester changes the object and returns or raises;
    what it changed before raising stays changed. *)
Definition method (A : Type) : Type :=
  SmartHarvester -> result A * SmartHarvester.

Definition ret {A : Type} (a : A) : method A := fun self => (Ok a, self).

Definition raise_ {A : Type} (e : exn) : method A := fun self => (Raise e, self).

Definition lift {A : Type} (r : result A) : method A := fun self => (r, self).

Definition mbind {A B : Type} (m : method A) (k : A -> method B) : method B :=
  fun self =>
    match m self with
    | (Ok a, self') => k a self'
    | (Raise e, self') => (Raise e, self')
    end.

Definition update (f : SmartHarvester -> SmartHarvester) : method unit :=
  fun self => (Ok tt, f self).

Definition read {A : Type} (f : SmartHarvester -> A) : method A :=
  fun self => (Ok (f self), self).

Notation "x <~ c ;; k" := (mbind c (fun x => k))
  (at level 61, c at next level, right associativity).

Notation "c ;;; k" := (mbind c (fun _ => k))
  (at level 61, right associativity).

(** [try: body except Exception: handler] on a method. *)
Definition mtry {A : Type} (body : method A) (handler : exn -> method A)
  : method A :=
  fun self =>
    match body self with
    | (Ok a, self') => (Ok a, self')
    | (Raise e, self') => handler e self'
    end.

Fixpoint mfor {A : Type} (xs : list A) (body : A -> method unit) : method unit :=
  match xs with
  | [] => ret tt
  | x :: xs' => body x ;;; mfor xs' body
  end.

(** ** [_load_harvest_history] *)

Definition set_stats (f : HarvestStats -> HarvestStats) : method unit :=
  update (fun self => set_harvest_stats self (f (harvest_stats self))).

(** The block under [if "harvest_metadata" in data]. *)
Definition load_metadata (metadata : json) : method unit :=
  v <~ lift (x <- Json.get metadata "total_sessions" (JNum (PInt 0)) ;; Json.to_int x) ;;
  set_stats (fun st => mkHarvestStats v (total_videos st) (unique_videos st)
    (total_time st) (average_success_rate st) (stats_total_score st)
    (best_session_score st) (last_harvest st)) ;;;
  v <~ lift (x <- Json.get metadata "total_videos" (JNum (PInt 0)) ;; Json.to_int x) ;;
  set_stats (fun st => mkHarvestStats (total_sessions st) v (unique_videos st)
    (total_time st) (average_success_rate st) (stats_total_score st)
    (best_session_score st) (last_harvest st)) ;;;
  v <~ lift (x <- Json.get metadata "unique_videos" (JNum (PInt 0)) ;; Json.to_int x) ;;
  set_stats (fun st => mkHarvestStats (total_sessions st) (total_videos st) v
    (total_time st) (average_success_rate st) (stats_total_score st)
    (best_session_score st) (last_harvest st)) ;;;
  v <~ lift (x <- Json.get metadata "total_time" (JNum (PInt 0)) ;; Json.to_num x) ;;
  set_stats (fun st => mkHarvestStats (total_sessions st) (total_videos st)
    (unique_videos st) v (average_success_rate st) (stats_total_score st)
    (best_session_score st) (last_harvest st)) ;;;
  v <~ lift (x <- Json.get metadata "average_success_rate" (JNum (PInt 0)) ;; Json.to_num x) ;;
  set_stats (fun st => mkHarvestStats (total_sessions st) (total_videos st)
    (unique_videos st) (total_time st) v (stats_total_score st)
    (best_session_score st) (last_harvest st)) ;;;
  v <~ lift (x <- Json.get metadata "total_score" (JNum (PInt 0)) ;; Json.to_int x) ;;
  set_stats (fun st => mkHarvestStats (total_sessions st) (total_videos st)
    (unique_videos st) (total_time st) (average_success_rate st) v
    (best_session_score st) (last_harvest st)) ;;;
  v <~ lift (x <- Json.get metadata "best_session_score" (JNum (PInt 0)) ;; Json.to_int x) ;;
  set_stats (fun st => mkHarvestStats (total_sessions st) (total_videos st)
    (unique_videos st) (total_time st) (average_success_rate st)
    (stats_total_score st) v (last_harvest st)) ;;;
  v <~ lift (x <- Json.get metadata "last_harvest" (JStr "") ;; Json.to_str x) ;;
  set_stats (fun st => mkHarvestStats (total_sessions st) (total_videos st)
    (unique_videos st) (total_time st) (average_success_rate st)
    (stats_total_score st) (best_session_score st) v).

(** [VideoData(video_id=video_data["video_id"], ...)] *)
Definition load_video (video_data : json) : result VideoData :=
  a <- (x <- Json.getitem video_data "video_id" ;; Json.to_str x) ;;
  b <- (x <- Json.getitem video_data "title" ;; Json.to_str x) ;;
  c <- (x <- Json.getitem video_data "url" ;; Json.to_str x) ;;
  d <- (x <- Json.get video_data "date" (JStr "") ;; Json.to_str x) ;;
  e <- (x <- Json.get video_data "date_raw" (JStr "") ;; Json.to_str x) ;;
  f <- (x <- Json.get video_data "likes" (JNum (PInt 0)) ;; Json.to_int x) ;;
  g <- (x <- Json.get video_data "comments" (JNum (PInt 0)) ;; Json.to_int x) ;;
  h <- (x <- Json.get video_data "shares" (JNum (PInt 0)) ;; Json.to_int x) ;;
  i <- (x <- Json.get video_data "views" (JStr "") ;; Json.to_str x) ;;
  j <- (x <- Json.get video_data "description" (JStr "") ;; Json.to_str x) ;;
  k <- (x <- Json.get video_data "thumbnail_url" (JStr "") ;; Json.to_str x) ;;
  Ok (mkVideoData a b c d e f g h i j k).

(** The block under [if "all_videos" in data]. *)
Definition load_videos (videos : json) : method unit :=
  entries <~ lift (Json.items videos) ;;
  mfor entries (fun entry =>
    video <~ lift (load_video (snd entry)) ;;
    update (fun self =>
      set_all_videos self (PyDict.set (all_videos self) (fst entry) video))).

Definition load_continuation (continuation_data : json)
  : result (option ContinuationPoint) :=
  if Json.truthy continuation_data then
    a <- (x <- Json.get continuation_data "strategy" (JStr "fresh_start") ;; Json.to_str x) ;;
    b <- (x <- Json.get continuation_data "reasoning" (JStr "") ;; Json.to_str x) ;;
    c <- (x <- Json.get continuation_data "scroll_offset" (JNum (PInt 0)) ;; Json.to_int x) ;;
    d <- (x <- Json.get continuation_data "target_date_range" JNull ;; Json.to_opt_str x) ;;
    e <- (x <- Json.get continuation_data "anchor_video_id" JNull ;; Json.to_opt_str x) ;;
    f <- (x <- Json.get continuation_data "expected_scroll_depth" (JNum (PInt 0)) ;; Json.to_int x) ;;
    g <- (x <- Json.get continuation_data "date_filter_active" (JBool false) ;; Json.to_bool x) ;;
    h <- (x <- Json.get continuation_data "scroll_strategy" (JStr "adaptive") ;; Json.to_str x) ;;
    Ok (Some (mkContinuationPoint a b c d e f g h))
  else Ok None.

Definition load_session (session_data : json) : result HarvestSession :=
  continuation_data <- Json.get session_data "continuation_point" JNull ;;
  continuation_point <- load_continuation continuation_data ;;
  a <- (x <- Json.getitem session_data "session_id" ;; Json.to_str x) ;;
  b <- (x <- Json.getitem session_data "timestamp" ;;
        s <- Json.to_str x ;; Datetime.fromisoformat s) ;;
  c <- (x <- Json.getitem session_data "videos_found" ;; Json.to_int x) ;;
  d <- (x <- Json.getitem session_data "success_rate" ;; Json.to_num x) ;;
  e <- (x <- Json.getitem session_data "completion_time" ;; Json.to_num x) ;;
  f <- (x <- Json.getitem session_data "target_filter" ;; Json.to_str x) ;;
  g <- (x <- Json.getitem session_data "total_score" ;; Json.to_int x) ;;
  Ok (mkHarvestSession a b c d e f g continuation_point).

(** The block under [if "sessions" in data]. *)
Definition load_sessions (sessions_data : json) : method unit :=
  entries <~ lift (Json.iterate sessions_data) ;;
  mfor entries (fun session_data =>
    session <~ lift (load_session session_data) ;;
    update (fun self => set_sessions self (sessions self ++ [session]))).

(** [if key in data: block(data[key])] *)
Definition when_present (data : list (string * json)) (key : string)
  (block : json -> method unit) : method unit :=
  match PyDict.get data key with
  | Some v => block v
  | None => ret tt
  end.

(** The body of the [try] of [_load_harvest_history]. *)
Definition load_body (file : disk) : method unit :=
  match file with
  | NoFile => ret tt
  | Unreadable e => raise_ e
  | Document data =>
      when_present data "harvest_metadata" load_metadata ;;;
      when_present data "all_videos" load_videos ;;;
      when_present data "sessions" load_sessions
  end.

Definition _load_harvest_history (file : disk) : method unit :=
  mtry (load_body file) (fun e => ret tt).

(** [SmartHarvester()] *)
Definition SmartHarvester_init (file : disk) : result SmartHarvester * SmartHarvester :=
  let self := mkSmartHarvester [] [] HarvestStats_default 30 120
                (lit (8 # 10)) 20 in
  match _load_harvest_history file self with
  | (Ok _, self') => (Ok self', self')
  | (Raise e, self') => (Raise e, self')
  end.

(** ** [_save_harvest_results] *)

Definition session_dict (session : HarvestSession) : json :=
  JObj ([("session_id", JStr (session_id session));
         ("timestamp", JStr (Datetime.isoformat (timestamp session)));
         ("videos_found", JNum (PInt (videos_found session)));
         ("success_rate", JNum (success_rate session));
         ("completion_time", JNum (completion_time session));
         ("target_filter", JStr (target_filter session));
         ("total_score", JNum (PInt (total_score session)))] ++
        match continuation_point session with
        | Some c => [("continuation_point", asdict_continuation c)]
        | None => []
        end).

Definition videos_dict (all : dict VideoData) : list (string * json) :=
  fold_left (fun videos_data entry =>
               PyDict.set videos_data (fst entry) (asdict_video (snd entry)))
            (items all) [].

Definition harvest_data (self : SmartHarvester) (now : datetime)
  : list (string * json) :=
  let sessions_data := map session_dict (sessions self) in
  let videos_data := videos_dict (all_videos self) in
  let st := harvest_stats self in
  let n_sessions := JNum (PInt (Z.of_nat (List.length (sessions self)))) in
  let n_unique := JNum (PInt (len (all_videos self))) in
  [("harvest_metadata",
    JObj [("harvester_version", JStr "2.0");
          ("last_harvest", JStr (Datetime.isoformat now));
          ("total_sessions", n_sessions);
          ("total_videos", JNum (PInt (total_videos st)));
          ("unique_videos", n_unique);
          ("total_time", JNum (total_time st));
          ("average_success_rate", JNum (average_success_rate st));
          ("total_score", JNum (PInt (stats_total_score st)));
          ("best_session_score", JNum (PInt (best_session_score st)))]);
   ("sessions", JList sessions_data);
   ("all_videos", JObj videos_data);
   ("total_sessions", n_sessions);
   ("total_videos", JNum (PInt (total_videos st)));
   ("unique_videos", n_unique);
   ("total_time", JNum (total_time st));
   ("total_score", JNum (PInt (stats_total_score st)));
   ("best_session_score", JNum (PInt (best_session_score st)))].

(** What opening and writing the file does: it succeeds, or it raises and
    leaves [remains] on the disk. *)
Inductive write_outcome : Type :=
| Written
| WriteFails (e : exn) (remains : disk).

(** The body of the [try] of [_save_harvest_results]: the new content of
    the disk and how the body ends. *)
Definition save_body (self : SmartHarvester) (now : datetime)
  (w : write_outcome) : result unit * disk :=
  let data := harvest_data self now in
  match w with
  | Written => (Ok tt, Document data)
  | WriteFails e remains => (Raise e, remains)
  end.

Definition _save_harvest_results (self : SmartHarvester) (now : datetime)
  (w : write_outcome) : result unit * disk :=
  match save_body self now w with
  | (Ok _, d) => (Ok tt, d)
  | (Raise e, d) => (Ok tt, d)    (* logger.error *)
  end.

(** ** [_generate_session_config] *)

Record session_config : Type := mkSessionConfig {
  scroll_count : string;
  config_target_filter : string;
  config_gap_multiplier : float64;
  continuation : ContinuationPoint;
  session_priority : string
}.

(** [self.sessions[-1]] of a non-empty list *)
Definition last_session (l : list HarvestSession) : option HarvestSession :=
  match l with
  | [] => None
  | s :: l' => Some (last l' s)
  end.

Definition _generate_session_config (self : SmartHarvester) (session_num : Z)
  (offset_draw scroll_draw : Z) : result session_config :=
  continuation <-
    _calculate_advanced_continuation_point self session_num offset_draw ;;
  scroll_count <-
    (if String.eqb (strategy continuation) "fresh_start"
     then Py.randint 18 22 scroll_draw
     else if String.eqb (strategy continuation) "scroll_offset"
     then Py.randint 16 20 scroll_draw
     else if String.eqb (scroll_strategy continuation) "deep"
     then Py.randint 12 16 scroll_draw
     else Py.randint 15 20 scroll_draw) ;;
  let gap_multiplier :=
    if 2 <=? session_num then lit (5 # 2)
    else match last_session (sessions self) with
         | Some s => if PyNum.lt (success_rate s) (PInt 50)
                     then lit 2 else lit 1
         | None => lit 1
         end in
  Ok (mkSessionConfig (Py.str scroll_count)
        ("harvest_batch_" ++ Py.str (session_num + 1))%string
        gap_multiplier continuation
        (if session_num <? 2 then "quality" else "coverage")).

(** ** [run_harvest_session] *)

(** What one session meets outside the harvester. *)
Record session_env : Type := mkSessionEnv {
  offset_draw : Z;                     (* [randint(10, 15)] of the planner *)
  scroll_draw : Z;                     (* [randint] of the scroll count *)
  started_at : datetime;               (* [datetime.now()] of the session id *)
  scraped : result (list VideoData);   (* [run_scraper_return_videos] *)
  elapsed : float64;                   (* [time.time() - start_time] *)
  scraper_score : Z;                   (* [scoring_system.session_score] *)
  finished_at : datetime;              (* [datetime.now()] of the record *)
  saved_at : datetime;                 (* [datetime.now()] of the save *)
  write : write_outcome;               (* the write of the save *)
  base_draw : Z;                       (* [randint] of the base gap *)
  preview_draw : Z;                    (* [randint(10, 15)] of the preview *)
  recovery_draw : Z                    (* [randint(60, 180)] after a failure *)
}.

Definition proper_title (v : VideoData) : bool :=
  negb (PyStr.startswith "DRAGAMAMA_Video_" (title v)).

Definition session_body (config : session_config) (env : session_env)
  : method HarvestSession :=
  let session_id :=
    ("harvest_" ++ Datetime.strftime_compact (started_at env))%string in
  videos <~ lift (scraped env) ;;
  metrics <~
    (match videos with
     | _ :: _ =>
         all <~ read all_videos ;;
         update (fun self =>
                   set_all_videos self (merged (merge_videos all videos))) ;;;
         let proper_titles :=
           Z.of_nat (List.length (filter proper_title videos)) in
         success_rate <~
           lift (ratio <- PyNum.truediv (PInt proper_titles)
                            (PInt (Z.of_nat (List.length videos))) ;;
                 PyNum.mul ratio (PInt 100)) ;;
         ret (success_rate, scraper_score env)
     | [] => ret (PInt 0, 0)
     end) ;;
  let session :=
    mkHarvestSession session_id (finished_at env)
      (Z.of_nat (List.length videos)) (fst metrics)
      (PFloat (elapsed env)) (config_target_filter config) (snd metrics)
      (Some (continuation config)) in
  update (fun self => set_sessions self (sessions self ++ [session])) ;;;
  ret session.

Definition run_harvest_session (config : session_config) (env : session_env)
  : method (option HarvestSession) :=
  mtry (session <~ session_body config env ;; ret (Some session))
       (fun e => ret None).

(** ** [run_smart_harvest] *)

(** The run so far: the harvester, the file, the number of successful
    sessions and the pauses taken, in seconds. *)
Record run_state : Type := mkRunState {
  harvester : SmartHarvester;
  file : disk;
  successful_sessions : Z;
  pauses : list Z
}.

(** The statistics update after a successful session. *)
Definition update_stats (session : HarvestSession) : method unit :=
  set_stats (fun st => mkHarvestStats (total_sessions st + 1)
    (total_videos st) (unique_videos st) (total_time st)
    (average_success_rate st) (stats_total_score st) (best_session_score st)
    (last_harvest st)) ;;;
  set_stats (fun st => mkHarvestStats (total_sessions st)
    (total_videos st + videos_found session) (unique_videos st)
    (total_time st) (average_success_rate st) (stats_total_score st)
    (best_session_score st) (last_harvest st)) ;;;
  unique <~ read (fun self => len (all_videos self)) ;;
  set_stats (fun st => mkHarvestStats (total_sessions st) (total_videos st)
    unique (total_time st) (average_success_rate st) (stats_total_score st)
    (best_session_score st) (last_harvest st)) ;;;
  time <~ (fun self =>
             (PyNum.add (total_time (harvest_stats self))
                        (completion_time session), self)) ;;
  set_stats (fun st => mkHarvestStats (total_sessions st) (total_videos st)
    (unique_videos st) time (average_success_rate st) (stats_total_score st)
    (best_session_score st) (last_harvest st)) ;;;
  set_stats (fun st => mkHarvestStats (total_sessions st) (total_videos st)
    (unique_videos st) (total_time st) (average_success_rate st)
    (stats_total_score st + total_score session) (best_session_score st)
    (last_harvest st)) ;;;
  set_stats (fun st => mkHarvestStats (total_sessions st) (total_videos st)
    (unique_videos st) (total_time st) (average_success_rate st)
    (stats_total_score st)
    (if best_session_score st <? total_score session
     then total_score session else best_session_score st)
    (last_harvest st)).

(** One turn of [for session_num in range(num_sessions)], after the test
    of the target. *)
Definition run_iteration (num_sessions session_num : Z) (env : session_env)
  (st : run_state) : result unit * run_state :=
  let self := harvester st in
  match _generate_session_config self session_num
          (offset_draw env) (scroll_draw env) with
  | Raise e => (Raise e, st)
  | Ok config =>
      match run_harvest_session config env self with
      | (Raise e, self1) =>
          (Raise e, mkRunState self1 (file st) (successful_sessions st) (pauses st))
      | (Ok None, self1) =>
          match Py.randint 60 180 (recovery_draw env) with
          | Raise e =>
              (Raise e, mkRunState self1 (file st) (successful_sessions st) (pauses st))
          | Ok pause =>
              (Ok tt, mkRunState self1 (file st) (successful_sessions st)
                        (pauses st ++ [pause]))
          end
      | (Ok (Some session), self1) =>
          let succ := successful_sessions st + 1 in
          match update_stats session self1 with
          | (Raise e, self2) =>
              (Raise e, mkRunState self2 (file st) succ (pauses st))
          | (Ok _, self2) =>
              let file2 :=
                snd (_save_harvest_results self2 (saved_at env) (write env)) in
              if session_num <? num_sessions - 1 then
                match _calculate_session_gap self2 (base_draw env)
                        (config_gap_multiplier config) with
                | Raise e => (Raise e, mkRunState self2 file2 succ (pauses st))
                | Ok gap =>
                    match _calculate_advanced_continuation_point self2
                            (session_num + 1) (preview_draw env) with
                    | Raise e =>
                        (Raise e, mkRunState self2 file2 succ (pauses st))
                    | Ok _ =>
                        (Ok tt, mkRunState self2 file2 succ (pauses st ++ [gap]))
                    end
                end
              else (Ok tt, mkRunState self2 file2 succ (pauses st))
          end
      end
  end.

(** The loop; [envs] has one entry for each of the sessions that remain,
    and [break] ends it when the target is reached. *)
Fixpoint run_loop (num_sessions target_videos session_num : Z)
  (envs : list session_env) (st : run_state) : result unit * run_state :=
  match envs with
  | [] => (Ok tt, st)
  | env :: envs' =>
      if target_videos <=? len (all_videos (harvester st)) then (Ok tt, st)
      else
        match run_iteration num_sessions session_num env st with
        | (Ok _, st') =>
            run_loop num_sessions target_videos (session_num + 1) envs' st'
        | (Raise e, st') => (Raise e, st')
        end
  end.

(** [sum(rates) / len(rates)] *)
Definition average (rates : list pynum) : result pynum :=
  total <- for_each (fun acc r => PyNum.add acc r) rates (PInt 0) ;;
  PyNum.truediv total (PInt (Z.of_nat (List.length rates))).

(** What the end of a run meets outside the harvester. *)
Record final_env : Type := mkFinalEnv {
  total_harvest_time : float64;        (* [time.time() - harvest_start] *)
  final_saved_at : datetime;
  final_write : write_outcome
}.

(** [_display_harvest_report] writes to the log; of its computations only
    the collection rate [len(self.all_videos) / (total_time / 3600)], shown
    when there are two sessions or more, can raise. *)
Definition _display_harvest_report (self : SmartHarvester)
  (total_time : float64) : result unit :=
  if 2 <=? Z.of_nat (List.length (sessions self)) then
    hours <- PyNum.truediv (PFloat total_time) (PInt 3600) ;;
    rate <- PyNum.truediv (PInt (len (all_videos self))) hours ;;
    Ok tt
  else Ok tt.

(** [run_smart_harvest]; [num_sessions] is the length of [envs]. *)
Definition run_smart_harvest (target_videos : Z) (envs : list session_env)
  (fin : final_env) (self : SmartHarvester) (file0 : disk)
  : result unit * run_state :=
  let num_sessions := Z.of_nat (List.length envs) in
  match run_loop num_sessions target_videos 0 envs
          (mkRunState self file0 0 []) with
  | (Raise e, st) => (Raise e, st)
  | (Ok _, st) =>
      let self1 := harvester st in
      let stats := harvest_stats self1 in
      let with_time (avg : pynum) :=
        set_harvest_stats self1
          (mkHarvestStats (total_sessions stats) (total_videos stats)
             (unique_videos stats) (PFloat (total_harvest_time fin)) avg
             (stats_total_score stats) (best_session_score stats)
             (last_harvest stats)) in
      let finish (self2 : SmartHarvester) :=
        (_display_harvest_report self2 (total_harvest_time fin),
         mkRunState self2
           (snd (_save_harvest_results self2 (final_saved_at fin)
                   (final_write fin)))
           (successful_sessions st) (pauses st)) in
      if 0 <? successful_sessions st then
        match average (map success_rate
                         (Py.last_items (Z.to_nat (successful_sessions st))
                            (sessions self1))) with
        | Ok avg => finish (with_time avg)
        | Raise e =>
            (Raise e,
             mkRunState (with_time (average_success_rate stats)) (file st)
               (successful_sessions st) (pauses st))
        end
      else finish (with_time (average_success_rate stats))
  end.

(** [main], from the construction of the harvester to the exit code, for
    the command-line values [gap_min] and [gap_max]. *)
Definition main (gap_min gap_max target_videos : Z) (file0 : disk)
  (envs : list session_env) (fin : final_env) : Z * run_state :=
  let self0 := snd (SmartHarvester_init file0) in
  let self1 :=
    mkSmartHarvester (sessions self0) (all_videos self0) (harvest_stats self0)
      gap_min gap_max (duplicate_threshold self0) (early_check_count self0) in
  match run_smart_harvest target_videos envs fin self1 file0 with
  | (Ok _, st) => (0, st)
  | (Raise e, st) => (1, st)
  end.

(** * The scraper's side of a session ([facebook_video_scraper.py])

    [run_harvest_session] calls [run_scraper_return_videos], which calls
    [scrape_videos_with_continuation]; that method turns the links of the
    page into videos and consults the duplicate guard of the harvester.
    What the browser shows (the [href] of a link, the title and the
    engagement data found around it) is given with each link. *)

(** ** [needle in s] on strings *)

Fixpoint str_in (needle s : string) : bool :=
  PyStr.startswith needle s ||
  match s with
  | EmptyString => false
  | String _ s' => str_in needle s'
  end.

(** ** [extract_video_id_from_url] *)

(** [prefix(\d+)] *)
Definition id_after (prefix : string) : Re.regex :=
  Re.Seq (Re.Lit prefix) (Re.Group (Re.Plus PyStr.is_digit)).

(** [watch/\?v=(\d+)], [/watch\?v=(\d+)], [videos/(\d+)], [/videos/(\d+)]
    and [v=(\d+)] *)
Definition id_patterns : list Re.regex :=
  [id_after "watch/?v="; id_after "/watch?v="; id_after "videos/";
   id_after "/videos/"; id_after "v="].

(** [for pattern in patterns]: the first group of the first pattern whose
    match is longer than ten characters. *)
Fixpoint first_long_match (patterns : list Re.regex) (url : string)
  : option string :=
  match patterns with
  | [] => None
  | pattern :: patterns' =>
      match Re.search pattern url with
      | Some [group1] =>
          if (10 <? String.length group1)%nat then Some group1
          else first_long_match patterns' url
      | _ => first_long_match patterns' url
      end
  end.

Definition extract_video_id_from_url (url : string) : option string :=
  if negb (PyStr.truthy url) then None
  else first_long_match id_patterns url.

(** ** The links of the page *)

(** What [_extract_engagement_near_link] returns. *)
Record engagement : Type := mkEngagement {
  eng_likes : Z;
  eng_comments : Z;
  eng_shares : Z;
  eng_views : string;
  eng_date : string;
  eng_date_raw : string
}.

(** An [a] element of the page, by what the scraper reads from it. *)
Record page_link : Type := mkPageLink {
  link_href : result (option string);  (* [link.get_attribute('href')] *)
  link_title : string -> string * Z;   (* [_extract_title_from_link_context]:
                                          the title, and the points that the
                                          method awards for it (0 if none) *)
  link_engagement : engagement         (* [_extract_engagement_near_link] *)
}.

(** The body of the [try] of the first loop: the identity under which a
    link is kept, if it is kept. *)
Definition link_video_id (link : page_link) : option string :=
  match link_href link with
  | Raise _ => None
  | Ok attribute =>
      let href := match attribute with Some s => s | None => "" end in
      if PyStr.truthy href && (str_in "watch" href || str_in "video" href)
      then
        match extract_video_id_from_url href with
        | Some video_id =>
            if PyStr.truthy video_id && (10 <? String.length video_id)%nat
            then Some video_id else None
        | None => None
        end
      else None
  end.

Fixpoint video_links (all_page_links : list page_link)
  : list (page_link * string) :=
  match all_page_links with
  | [] => []
  | link :: links =>
      match link_video_id link with
      | Some video_id => (link, video_id) :: video_links links
      | None => video_links links
      end
  end.

(** [videos_by_id]: the first link of every identity. *)
Definition videos_by_id (links : list (page_link * string)) : dict page_link :=
  fold_left
    (fun by_id entry =>
       if negb (mem (snd entry) by_id)
       then PyDict.set by_id (snd entry) (fst entry)
       else by_id)
    links [].

(** ** The scoring system, as far as the loop writes it *)

Module ScoringSystem.

Record state : Type := mkState {
  total_score : Z;
  session_score : Z;
  dates_found : Z;     (* [session_stats['dates_found']] *)
  likes_found : Z      (* [session_stats['likes_found']] *)
}.

Definition award_points (points : Z) (s : state) : state :=
  mkState (total_score s + points) (session_score s + points)
    (dates_found s) (likes_found s).

Definition count_date (s : state) : state :=
  mkState (total_score s) (session_score s) (dates_found s + 1) (likes_found s).

Definition count_likes (s : state) : state :=
  mkState (total_score s) (session_score s) (dates_found s) (likes_found s + 1).

End ScoringSystem.

(** ** The loop of [scrape_videos_with_continuation] *)

Record scrape_state : Type := mkScrapeState {
  processed_ids : list string;
  videos_data : list VideoData;
  scoring : ScoringSystem.state
}.

(** [duplicate_checker]: [None], or a function that answers or raises. *)
Definition checker : Type := option (list VideoData -> result bool).

(** One turn of [for video_id, (link, href) in videos_by_id.items()]; the
    boolean says whether the loop goes on. *)
Definition process_link (date_filter : option string)
  (duplicate_checker : checker) (st : scrape_state)
  (entry : string * page_link) : result (bool * scrape_state) :=
  let video_id := fst entry in
  let link := snd entry in
  if existsb (String.eqb video_id) (processed_ids st) then Ok (true, st)
  else
    let processed := processed_ids st ++ [video_id] in
    let extracted := link_title link video_id in
    let title := fst extracted in
    let sc := ScoringSystem.award_points (snd extracted) (scoring st) in
    let engagement_data := link_engagement link in
    let video_date := eng_date engagement_data in
    let filtering :=
      match date_filter with
      | Some wanted => PyStr.truthy wanted && PyStr.truthy video_date
      | None => false
      end in
    let wanted := match date_filter with Some w => w | None => "" end in
    if filtering && negb (str_in wanted video_date)
    then Ok (true, mkScrapeState processed (videos_data st) sc)
    else
      let sc := if filtering then ScoringSystem.award_points 5 sc else sc in
      let sc :=
        if PyStr.truthy video_date
        then ScoringSystem.count_date (ScoringSystem.award_points 3 sc)
        else sc in
      let sc :=
        if 0 <? eng_likes engagement_data
        then ScoringSystem.count_likes (ScoringSystem.award_points 5 sc)
        else sc in
      let video_data :=
        mkVideoData video_id title
          ("https://www.facebook.com/watch/?v=" ++ video_id)%string
          video_date (eng_date_raw engagement_data)
          (eng_likes engagement_data) (eng_comments engagement_data)
          (eng_shares engagement_data) (eng_views engagement_data) "" "" in
      let videos := videos_data st ++ [video_data] in
      let count := Z.of_nat (List.length videos) in
      let st' := mkScrapeState processed videos sc in
      match duplicate_checker with
      | Some check =>
          if (20 <=? count) && (count mod 20 =? 0)
          then go_on <- check videos ;; Ok (go_on, st')
          else Ok (true, st')
      | None => Ok (true, st')
      end.

Fixpoint process_links (date_filter : option string)
  (duplicate_checker : checker) (entries : list (string * page_link))
  (st : scrape_state) : result scrape_state :=
  match entries with
  | [] => Ok st
  | entry :: entries' =>
      turn <- process_link date_filter duplicate_checker st entry ;;
      if fst turn
      then process_links date_filter duplicate_checker entries' (snd turn)
      else Ok (snd turn)
  end.

(** From the links of the page to [videos_data] at the end of the loop. *)
Definition collect_videos (all_page_links : list page_link)
  (date_filter : option string) (duplicate_checker : checker)
  (sc : ScoringSystem.state) : result scrape_state :=
  let by_id := videos_by_id (video_links all_page_links) in
  let sc :=
    if 0 <? len by_id
    then ScoringSystem.award_points (len by_id * 5) sc else sc in
  process_links date_filter duplicate_checker (items by_id)
    (mkScrapeState [] [] sc).

(** * The scripts that call the harvester *)

(** ** [test_continuation.py] *)

Module TestContinuation.

(** How a test function ends: it returns, an [assert] fails, or a call
    raises. *)
Inductive outcome : Type :=
| Passed
| AssertionFailed
| Raised (e : exn).

(** [assert b], and then the rest. *)
Definition assert_ (b : bool) (rest : outcome) : outcome :=
  if b then rest else AssertionFailed.

(** A call that can raise, and then the rest. *)
Definition call {A : Type} (r : result A) (rest : A -> outcome) : outcome :=
  match r with
  | Ok a => rest a
  | Raise e => Raised e
  end.

(** One statement after the other. *)
Definition then_ (first rest : outcome) : outcome :=
  match first with
  | Passed => rest
  | _ => first
  end.

Definition test_continuation_point_calculation (file : disk) (offset_draw : Z)
  : outcome :=
  let harvester := snd (SmartHarvester_init file) in
  call (_calculate_advanced_continuation_point harvester 0 offset_draw)
    (fun continuation_1 =>
  assert_ (String.eqb (strategy continuation_1) "fresh_start") (
  assert_ (scroll_offset continuation_1 =? 0) (
  call (_calculate_advanced_continuation_point harvester 1 offset_draw)
    (fun continuation_2 =>
  assert_ (String.eqb (strategy continuation_2) "scroll_offset") (
  assert_ ((10 <=? scroll_offset continuation_2) &&
           (scroll_offset continuation_2 <=? 15))
    Passed))))).

(** [for session_num in range(3)]; [draws] gives the two random numbers
    of every call.  The three asserts on the keys of the configuration
    hold of every configuration. *)
Fixpoint check_configs (harvester : SmartHarvester) (draws : Z -> Z * Z)
  (session_nums : list Z) : outcome :=
  match session_nums with
  | [] => Passed
  | session_num :: rest =>
      call (_generate_session_config harvester session_num
              (fst (draws session_num)) (snd (draws session_num)))
        (fun config =>
      assert_ (if session_num =? 0
               then String.eqb (strategy (continuation config)) "fresh_start"
               else if session_num =? 1
               then String.eqb (strategy (continuation config)) "scroll_offset"
               else true)
        (check_configs harvester draws rest))
  end.

Definition test_session_config_generation (file : disk) (draws : Z -> Z * Z)
  : outcome :=
  check_configs (snd (SmartHarvester_init file)) draws [0; 1; 2].

(** What follows the analysis is under a [try ... except Exception]. *)
Definition test_collection_analysis (file : disk) : outcome :=
  let harvester := snd (SmartHarvester_init file) in
  call (_analyze_collection_gaps harvester) (fun analysis => Passed).

Definition test_dates : list (string * Z) :=
  [("3 years ago", 3 * 365); ("5 months ago", 5 * 30); ("2 days ago", 2);
   ("1 hour ago", 0); ("", 9999); ("invalid date", 5000)].

Fixpoint check_dates (dates : list (string * Z)) : outcome :=
  match dates with
  | [] => Passed
  | (date_str, expected_range) :: rest =>
      call (_parse_date_to_priority date_str) (fun priority =>
      if expected_range <? 9999
      then assert_ (Z.abs (priority - expected_range) <=? 100) (check_dates rest)
      else check_dates rest)
  end.

Definition test_date_priority_parsing : outcome := check_dates test_dates.

(** [draw_1] and [draw_2] are the base gaps of the two calls. *)
Definition test_gap_calculation (file : disk) (draw_1 draw_2 : Z) : outcome :=
  let harvester := snd (SmartHarvester_init file) in
  call (_calculate_session_gap harvester draw_1 (lit 1)) (fun base_gap =>
  assert_ ((30 <=? base_gap) && (base_gap <=? 300)) (
  call (_calculate_session_gap harvester draw_2 (lit (5 # 2)))
    (fun extended_gap =>
  assert_ (base_gap <=? extended_gap) Passed))).

Definition validate_continuation_data_structure : outcome :=
  let test_point :=
    mkContinuationPoint "video_id_anchor" "Test continuation point" 15
      (Some "4 years ago") (Some "1234567890123456") 35 true "deep" in
  let serialized := asdict_continuation test_point in
  Passed.

(** The random numbers of a run of the tests. *)
Record draws : Type := mkDraws {
  point_draw : Z;
  config_draws : Z -> Z * Z;
  gap_draw_1 : Z;
  gap_draw_2 : Z
}.

Definition run_tests (file : disk) (d : draws) : outcome :=
  then_ (test_continuation_point_calculation file (point_draw d)) (
  then_ (test_session_config_generation file (config_draws d)) (
  then_ (test_collection_analysis file) (
  then_ test_date_priority_parsing (
  then_ (test_gap_calculation file (gap_draw_1 d) (gap_draw_2 d))
    validate_continuation_data_structure)))).

(** The exit code. *)
Definition main (file : disk) (d : draws) : Z :=
  match run_tests file d with
  | Passed => 0
  | _ => 1
  end.

End TestContinuation.

(** ** [demo_continuation.py] *)

Module DemoContinuation.

(** The random numbers of one turn of the loop. *)
Record draws : Type := mkDraws {
  plan_draw : Z;     (* [randint(10, 15)] of the planner *)
  count_draw : Z;    (* [randint] of the scroll count *)
  gap_draw : Z       (* [randint] of the base gap *)
}.

(** [for session_num in range(5)] *)
Fixpoint demonstrate_sessions (harvester : SmartHarvester) (d : Z -> draws)
  (session_nums : list Z) : result unit :=
  match session_nums with
  | [] => Ok tt
  | session_num :: rest =>
      config <-
        _generate_session_config harvester session_num
          (plan_draw (d session_num)) (count_draw (d session_num)) ;;
      _ <- (if session_num <? 4
            then gap <- _calculate_session_gap harvester
                          (gap_draw (d session_num))
                          (config_gap_multiplier config) ;;
                 Ok tt
            else Ok tt) ;;
      demonstrate_sessions harvester d rest
  end.

Definition demonstrate_continuation_strategies (file : disk) (d : Z -> draws)
  : result unit :=
  demonstrate_sessions (snd (SmartHarvester_init file)) d [0; 1; 2; 3; 4].

(** The exit code; the two other demonstrations only write to the log. *)
Definition main (file : disk) (d : Z -> draws) : Z :=
  match demonstrate_continuation_strategies file d with
  | Ok _ => 0
  | Raise _ => 1
  end.

End DemoContinuation.

(** * The vocabulary of the statements

    Definitions that the lemmas and theorems below are stated with: what
    the specification calls by a name (the duplicates of a sample, the
    degradation signal, the ranking of the dated items), closed forms of
    what the code computes, and sample data. *)

(** ** The corpus *)

(** The identities a merge adds, in the order of their first occurrence. *)
Fixpoint fresh_ids (seen : list string) (ids : list string) : list string :=
  match ids with
  | [] => []
  | i :: ids' =>
      if in_dec string_dec i seen then fresh_ids seen ids'
      else i :: fresh_ids (seen ++ [i]) ids'
  end.

(** ** Age buckets *)

(** Every character of [s] is in the class [cls]. *)
Fixpoint all_in (cls : ascii -> bool) (s : string) : bool :=
  match s with
  | EmptyString => true
  | String c s' => cls c && all_in cls s'
  end.

(** No character of [s] is in the class [cls]. *)
Fixpoint none_in (cls : ascii -> bool) (s : string) : bool :=
  match s with
  | EmptyString => true
  | String c s' => negb (cls c) && none_in cls s'
  end.

(** The units of the age buckets. *)
Definition units : list string := ["year"; "month"; "day"; "hour"].

(** The day equivalent of a magnitude and a unit, as the specification
    words it. *)
Definition day_equivalent (magnitude : Z) (unit : string) : Z :=
  if String.eqb unit "hour" then 0
  else if String.eqb unit "day" then magnitude
  else if String.eqb unit "month" then magnitude * 30
  else magnitude * 365.

(** [s] is [number_text], white space, [unit] and anything after it. *)
Definition magnitude_and_unit (s number_text ws unit post : string) : Prop :=
  s = (number_text ++ ws ++ unit ++ post)%string /\
  number_text <> "" /\ all_in PyStr.is_digit number_text = true /\
  ws <> "" /\ all_in PyStr.is_space ws = true /\
  In unit units.

(** The second group of [date_pattern]. *)
Definition unit_group : Re.regex :=
  Re.Group (Re.Alt (Re.Lit "year")
              (Re.Alt (Re.Lit "month") (Re.Alt (Re.Lit "day") (Re.Lit "hour")))).

(** ** Doubles *)

(** The doubles of the standard library's specification of IEEE 754
    arithmetic, read as values of [float64], and the double of an integer
    there: the reference that [round] is compared with on samples. *)
Definition of_spec (x : SpecFloat.spec_float) : float64 :=
  match x with
  | SpecFloat.S754_zero _ => Fin 0
  | SpecFloat.S754_infinity s => Inf s
  | SpecFloat.S754_nan => NaN
  | SpecFloat.S754_finite s m e =>
      Fin (Qred ((if s then inject_Z (Z.neg m) else inject_Z (Z.pos m)) *
                 pow2 e))
  end.

Definition spec_of_Z (n : Z) : SpecFloat.spec_float :=
  SpecFloat.binary_normalize 53 1024 n 0 false.

Definition spec_div (a b : Z) : SpecFloat.spec_float :=
  SpecFloat.SFdiv 53 1024 (spec_of_Z a) (spec_of_Z b).

(** The double just below the threshold [0.8]. *)
Definition below_threshold : Q := 7205759403792793 # 9007199254740992.

(** ** The duplicate guard *)

(** The number of scraped videos whose identity is in the corpus. *)
Definition duplicates_of (self : SmartHarvester) (videos : list VideoData) : Z :=
  Z.of_nat (List.length
              (filter (fun video => mem (video_id video) (all_videos self))
                      videos)).

(** ** The gap between sessions *)

(** [rate - 10] *)
Definition minus_ten (rate : pynum) : pynum :=
  match rate with
  | PInt z => PInt (z - 10)
  | PFloat f => PFloat (fsub f (Fin 10))
  end.

(** The degradation signal: the last session's success rate is more than
    ten points below the one before. *)
Definition degradation (s0 s1 : HarvestSession) : bool :=
  PyNum.lt (success_rate s1) (minus_ten (success_rate s0)).

(** The gap for a given product of the multipliers. *)
Definition clamped_gap (self : SmartHarvester) (base_draw : Z)
  (multiplier : float64) : result Z :=
  base_gap <-
    Py.randint (session_gap_min self) (session_gap_max self) base_draw ;;
  base_float <- of_int base_gap ;;
  final_gap <- to_int (fmul base_float multiplier) ;;
  Ok (Z.min (Z.max final_gap 30) 300).

(** What the history makes of the hint. *)
Definition scaled (self : SmartHarvester) (hint : float64) : float64 :=
  match rev (sessions self) with
  | s1 :: s0 :: _ =>
      fmul (if degradation s0 s1 then fmul hint (lit 3) else hint)
           (lit (5 # 2))
  | _ => hint
  end.

(** Bounds within which no product of the gap overflows. *)
Definition hint_bound : Q := inject_Z (2 ^ 900).

Definition scaled_bound : Q := inject_Z (15 * 2 ^ 899).

Definition base_bound : Q := inject_Z (2 ^ 63).

Definition product_bound : Q := inject_Z (15 * 2 ^ 962).

(** ** The continuation planner *)

(** The order of a sort by [key]. *)
Definition key_le {A : Type} (key : A -> Z) (x y : A) : Prop := key x <= key y.

(** The items with a known age bucket, in the order of the corpus. *)
Definition dated (self : SmartHarvester) : list VideoData :=
  filter (fun vid => PyStr.truthy (date vid)) (values (all_videos self)).

(** The age priority of a bucket, where the conversion of its magnitude
    does not raise (0 stands in where it does). *)
Definition priority (bucket : string) : Z :=
  match _parse_date_to_priority bucket with
  | Ok p => p
  | Raise _ => 0
  end.

(** The age priority of the bucket is defined: the conversion of its
    magnitude does not raise. *)
Definition has_priority (bucket : string) : bool :=
  match _parse_date_to_priority bucket with
  | Ok _ => true
  | Raise _ => false
  end.

(** The age priority of an item. *)
Definition age_rank (v : VideoData) : Z := priority (date v).

(** Every age bucket of the corpus has a priority. *)
Definition priorities_defined (self : SmartHarvester) : bool :=
  forallb (fun v => has_priority (date v)) (dated self).

(** The same items ranked by age priority, the most recent first. *)
Definition ranked (self : SmartHarvester) : list VideoData :=
  Py.sorted age_rank (dated self).

(** The plans of the third session and later. *)
Definition video_anchor_point (session_num : Z) (anchor : VideoData)
  : ContinuationPoint :=
  mkContinuationPoint "video_id_anchor"
    (session_label session_num ++ ": Continue from video " ++
     Py.last_chars 8 (video_id anchor) ++ "... (" ++ date anchor ++ ")")%string
    (Z.min (session_num * 12) 50) (Some (date anchor))
    (Some (video_id anchor)) (Z.min (session_num * 12) 50 + 15) true "deep".

Definition deep_scroll_point (session_num : Z) : ContinuationPoint :=
  mkContinuationPoint "deep_scroll"
    (session_label session_num ++ ": Deep scroll continuation")%string
    (session_num * 10) None None (session_num * 10 + 25) false "deep".

(** Some session of the history has recorded an age bucket. *)
Definition history_has_bucket (self : SmartHarvester) : Prop :=
  exists session point bucket,
    In session (sessions self) /\
    continuation_point session = Some point /\
    target_date_range point = Some bucket.

(** ** The harvest file and the run *)

(** The invariant of the harvester that the statements assume: the corpus
    is a dictionary and the timestamps of the sessions are dates. *)
Definition well_formed (self : SmartHarvester) : Prop :=
  wf (all_videos self) /\
  Forall (fun x => Datetime.valid (timestamp x)) (sessions self).

(** A method keeps a property of the harvester, also when it raises. *)
Definition preserves {A : Type} (P : SmartHarvester -> Prop) (m : method A)
  : Prop :=
  forall self, P self -> P (snd (m self)).

(** An entry of the corpus as an entry of the document. *)
Definition encode_video (entry : string * VideoData) : string * json :=
  (fst entry, asdict_video (snd entry)).

(** The harvester before the file is loaded. *)
Definition fresh_harvester : SmartHarvester :=
  mkSmartHarvester [] [] HarvestStats_default 30 120 (lit (8 # 10)) 20.

(** The harvester a fresh process builds from the document of [self]. *)
Definition reloaded (self : SmartHarvester) (now : datetime) : SmartHarvester :=
  let st := harvest_stats self in
  mkSmartHarvester (sessions self) (all_videos self)
    (mkHarvestStats (Z.of_nat (List.length (sessions self)))
       (total_videos st) (len (all_videos self)) (total_time st)
       (average_success_rate st) (stats_total_score st)
       (best_session_score st) (Datetime.isoformat now))
    30 120 (lit (8 # 10)) 20.




(** ** Sample data *)

(** Videos with the identities ["lo"] to ["lo + count - 1"]. *)
Definition video_numbered (i : Z) : VideoData :=
  mkVideoData (Py.str i) "title" "" "" "" 0 0 0 "" "" "".

Definition videos_numbered (lo count : nat) : list VideoData :=
  map (fun i => video_numbered (Z.of_nat i)) (seq lo count).

(** A video with an age bucket, and one without. *)
Definition dated_video (id bucket : string) : VideoData :=
  mkVideoData id "title" "" bucket "" 0 0 0 "" "" "".

Definition undated_video (id : string) : VideoData := dated_video id "".

(** A harvester, as the constructor sets it up, that has merged [videos]. *)
Definition harvester_with (videos : list VideoData) : SmartHarvester :=
  mkSmartHarvester [] (merged (merge_videos [] videos)) HarvestStats_default
    30 120 (lit (8 # 10)) 20.

(** A session with the given success rate. *)
Definition session_with_rate (rate : pynum) : HarvestSession :=
  mkHarvestSession "harvest_20250101_000000" (mkDatetime 2025 1 1 0 0 0 0)
    20 rate (PFloat (Fin 60)) "harvest_batch_1" 0 None.

(** A harvester whose history has these success rates. *)
Definition harvester_with_rates (rates : list pynum) : SmartHarvester :=
  mkSmartHarvester (map session_with_rate rates) [] HarvestStats_default
    30 120 (lit (8 # 10)) 20.

(** A corpus of one item without age bucket and a history whose only
    session recorded the bucket "3 years ago". *)
Definition harvester_with_recorded_bucket : SmartHarvester :=
  mkSmartHarvester
    [mkHarvestSession "harvest_20250101_000000" (mkDatetime 2025 1 1 0 0 0 0)
       20 (PFloat (Fin 100)) (PFloat (Fin 60)) "harvest_batch_3" 0
       (Some (mkContinuationPoint "video_id_anchor" "" 24
                (Some "3 years ago") (Some "9") 39 true "deep"))]
    [("1", undated_video "1")] HarvestStats_default 30 120 (lit (8 # 10)) 20.

(** A harvester with two sessions and two videos. *)
Definition sample_session : HarvestSession :=
  mkHarvestSession "harvest_20250102_030405"
    (mkDatetime 2025 1 2 3 4 5 678) 20 (PFloat (Fin 95)) (PFloat (Fin 61))
    "harvest_batch_1" 120
    (Some (mkContinuationPoint "fresh_start" "Session 1: Fresh start from top"
             0 None None 0 false "standard")).

Definition sample_harvester : SmartHarvester :=
  mkSmartHarvester [sample_session; session_with_rate (PInt 0)]
    [("a", dated_video "a" "3 years ago"); ("b", undated_video "b")]
    HarvestStats_default 30 120 (lit (8 # 10)) 20.

(** A session that scrapes the given videos and whose save ends as [w]. *)
Definition sample_env (videos : list VideoData) (w : write_outcome)
  : session_env :=
  mkSessionEnv 12 18 (mkDatetime 2025 1 2 3 4 5 0) (Ok videos) (Fin 60) 100
    (mkDatetime 2025 1 2 3 5 5 0) (mkDatetime 2025 1 2 3 5 6 0) w 40 12 90.

(** The end of a run whose last save succeeds. *)
Definition sample_final : final_env :=
  mkFinalEnv (Fin 400) (mkDatetime 2025 1 2 3 9 0 0) Written.



(** A session of a run whose gap window is the single value [base]. *)
Definition env_with_base (base : Z) (videos : list VideoData) : session_env :=
  mkSessionEnv 12 18 (mkDatetime 2025 1 2 3 4 5 0) (Ok videos) (Fin 60) 100
    (mkDatetime 2025 1 2 3 5 5 0) (mkDatetime 2025 1 2 3 5 6 0) Written
    base 12 90.

(** ** Magnitudes beyond the limit of [int] *)

(** A run of [n] nines. *)
Fixpoint nines (n : nat) : string :=
  match n with
  | O => EmptyString
  | S n' => String "9" (nines n')
  end.

(** A bucket whose magnitude has 4301 digits. *)
Definition over_limit_bucket : string := (nines 4301 ++ " years ago")%string.

(** A corpus with one item, whose bucket is over the limit. *)
Definition over_limit_harvester : SmartHarvester :=
  harvester_with [dated_video "a" over_limit_bucket].

(** * More vocabulary: sessions, runs and the scripts *)

(** ** A session *)

(** The videos a session scrapes; none when the scraper raises. *)
Definition scraped_videos (env : session_env) : list VideoData :=
  match scraped env with
  | Ok videos => videos
  | Raise _ => []
  end.

(** The harvester after a session that scraped [videos] and recorded
    [session]. *)
Definition after_session (self : SmartHarvester) (videos : list VideoData)
  (session : HarvestSession) : SmartHarvester :=
  mkSmartHarvester (sessions self ++ [session])
    (merged (merge_videos (all_videos self) videos)) (harvest_stats self)
    (session_gap_min self) (session_gap_max self) (duplicate_threshold self)
    (early_check_count self).

(** The number of videos whose title was extracted. *)
Definition proper_titles (videos : list VideoData) : Z :=
  Z.of_nat (List.length (filter proper_title videos)).

(** A configuration of a first session. *)
Definition sample_config : session_config :=
  mkSessionConfig "20" "harvest_batch_1" (lit 1)
    (mkContinuationPoint "fresh_start" "Session 1: Fresh start from top"
       0 None None 0 false "standard")
    "quality".

(** ** The configuration of a session *)

(** The range from which the scroll count of a session is drawn. *)
Definition scroll_band (session_num : Z) : Z * Z :=
  if session_num =? 0 then (18, 22)
  else if session_num =? 1 then (16, 20)
  else (12, 16).

(** The plan of the first session. *)
Definition fresh_start_point : ContinuationPoint :=
  mkContinuationPoint "fresh_start" "Session 1: Fresh start from top"
    0 None None 0 false "standard".

(** The plan of the second session. *)
Definition scroll_offset_point (offset : Z) : ContinuationPoint :=
  mkContinuationPoint "scroll_offset"
    ("Session 2: Start at scroll " ++ Py.str offset ++ " to avoid overlap")%string
    offset None None (offset + 20) false "adaptive".

(** The error of [random.randint] on a draw outside the range. *)
Definition empty_range : exn := ValueError "empty range for randrange()".

(** ** A run *)

(** The statistics after a successful session, when the corpus has
    [unique] videos and the time adds up to [time]. *)
Definition stats_after (st : HarvestStats) (unique : Z) (time : pynum)
  (session : HarvestSession) : HarvestStats :=
  mkHarvestStats (total_sessions st + 1)
    (total_videos st + videos_found session) unique time
    (average_success_rate st) (stats_total_score st + total_score session)
    (Z.max (best_session_score st) (total_score session)) (last_harvest st).

(** The seconds a run may pause between two sessions. *)
Definition pause_in_range (pause : Z) : Prop := 30 <= pause <= 300.

(** The sum of a list of integers. *)
Definition total (l : list Z) : Z := fold_right Z.add 0 l.

(** The settings of the harvester that no method changes. *)
Definition same_settings (self self' : SmartHarvester) : Prop :=
  session_gap_min self' = session_gap_min self /\
  session_gap_max self' = session_gap_max self /\
  duplicate_threshold self' = duplicate_threshold self /\
  early_check_count self' = early_check_count self.

(** A record of the session that [env] describes. *)
Definition record_of (env : session_env) (session : HarvestSession) : Prop :=
  scraped env = Ok (scraped_videos env) /\
  timestamp session = finished_at env /\
  videos_found session = Z.of_nat (List.length (scraped_videos env)) /\
  completion_time session = PFloat (elapsed env) /\
  total_score session =
    match scraped_videos env with [] => 0 | _ => scraper_score env end.

(** How far a run has come from [before] to [after]: the sessions of
    [done] were started, [new] are the records of those that returned and
    [more] the pauses taken. *)
Definition progress (before after : run_state) (done : list session_env)
  (new : list HarvestSession) (more : list Z) : Prop :=
  same_settings (harvester before) (harvester after) /\
  sessions (harvester after) = sessions (harvester before) ++ new /\
  successful_sessions after =
    successful_sessions before + Z.of_nat (List.length new) /\
  (List.length new <= List.length done)%nat /\
  Forall (fun s => exists env, In env done /\ record_of env s) new /\
  all_videos (harvester after) =
    merge_sessions (all_videos (harvester before)) (map scraped_videos done) /\
  (new = [] -> all_videos (harvester after) = all_videos (harvester before)) /\
  pauses after = pauses before ++ more /\
  Forall pause_in_range more.

(** The counters of the statistics after the sessions [new]. *)
Definition stats_advance (old : HarvestStats) (new : list HarvestSession)
  (stats : HarvestStats) : Prop :=
  total_sessions stats = total_sessions old + Z.of_nat (List.length new) /\
  total_videos stats = total_videos old + total (map videos_found new) /\
  stats_total_score stats =
    stats_total_score old + total (map total_score new) /\
  best_session_score stats =
    fold_left Z.max (map total_score new) (best_session_score old) /\
  last_harvest stats = last_harvest old.

(** The harvester that [main] runs: the one the constructor builds from
    the file, with the gap window of the command line. *)
Definition started_from (file0 : disk) (gap_min gap_max : Z) : SmartHarvester :=
  let self := snd (SmartHarvester_init file0) in
  mkSmartHarvester (sessions self) (all_videos self) (harvest_stats self)
    gap_min gap_max (duplicate_threshold self) (early_check_count self).

(** A session that scrapes nothing: draws in range, no video. *)
Definition empty_session_env : session_env :=
  mkSessionEnv 12 18 (mkDatetime 2025 1 2 3 4 5 0) (Ok []) (Fin 60) 0
    (mkDatetime 2025 1 2 3 5 5 0) (mkDatetime 2025 1 2 3 5 6 0) Written
    40 12 90.

(** ** The harvest file *)

(** The fields of the metadata that the document repeats at its top
    level. *)
Definition mirrored_fields : list string :=
  ["total_sessions"; "total_videos"; "unique_videos"; "total_time";
   "total_score"; "best_session_score"].

(** ** The analysis of the corpus *)

(** The age buckets of the corpus, in the order of their first video. *)
Definition buckets (self : SmartHarvester) : list string :=
  fresh_ids [] (map date (dated self)).

(** The videos of a bucket, in the order of the corpus. *)
Definition bucket_videos (self : SmartHarvester) (bucket : string)
  : list VideoData :=
  filter (fun v => String.eqb (date v) bucket) (dated self).

(** The order of a descending sort of groups by size. *)
Definition larger_first (x y : string * list VideoData) : Prop :=
  (List.length (snd y) <= List.length (snd x))%nat.

(** ** The scripts *)





(** Draws in range for every session of the scripts. *)
Definition sample_config_draws (session_num : Z) : Z * Z :=
  (12, if session_num =? 0 then 18 else if session_num =? 1 then 16 else 14).

Definition sample_test_draws (gap_1 gap_2 : Z) : TestContinuation.draws :=
  TestContinuation.mkDraws 12 sample_config_draws gap_1 gap_2.


(** ** The scraper *)

(** The address the scraper gives a video. *)
Definition watch_url (video_id : string) : string :=
  ("https://www.facebook.com/watch/?v=" ++ video_id)%string.

(** [s] does not begin with a character of the class. *)
Definition stops (cls : ascii -> bool) (s : string) : Prop :=
  match s with
  | String c _ => cls c = false
  | EmptyString => True
  end.

(** What precedes the digits of an identity in every pattern. *)
Definition id_markers : list string := ["v="; "videos/"].

(** A link with this address. *)
Definition link_to (href : string) : page_link :=
  mkPageLink (Ok (Some href))
    (fun video_id => ("Draga mama " ++ video_id, 20))%string
    (mkEngagement 0 0 0 "" "" "").

(** The entries of [videos_by_id] for the links of a page. *)
Definition page_entries (all_page_links : list page_link)
  : list (string * page_link) :=
  items (videos_by_id (video_links all_page_links)).

(** The identities of the links of a page, one for every link that has
    one, in the order of the page. *)
Definition page_ids (all_page_links : list page_link) : list string :=
  map snd (video_links all_page_links).

(** A date filter is given and not empty. *)
Definition filter_on (date_filter : option string) : bool :=
  match date_filter with
  | Some wanted => PyStr.truthy wanted
  | None => false
  end.

(** The date that a link shows is compared with the filter. *)
Definition filter_applies (date_filter : option string)
  (entry : string * page_link) : bool :=
  filter_on date_filter &&
  PyStr.truthy (eng_date (link_engagement (snd entry))).

(** The loop keeps the entry. *)
Definition passes (date_filter : option string)
  (entry : string * page_link) : bool :=
  negb (filter_applies date_filter entry &&
        negb (str_in (match date_filter with Some w => w | None => "" end)
                (eng_date (link_engagement (snd entry))))).

(** The video that the loop builds for an entry. *)
Definition video_of (entry : string * page_link) : VideoData :=
  let engagement_data := link_engagement (snd entry) in
  mkVideoData (fst entry) (fst (link_title (snd entry) (fst entry)))
    (watch_url (fst entry)) (eng_date engagement_data)
    (eng_date_raw engagement_data) (eng_likes engagement_data)
    (eng_comments engagement_data) (eng_shares engagement_data)
    (eng_views engagement_data) "" "".

(** The points that the extraction of the title awards for an entry. *)
Definition title_points (entry : string * page_link) : Z :=
  snd (link_title (snd entry) (fst entry)).

(** The score after the loop has kept an entry whose title has been
    extracted. *)
Definition scored (date_filter : option string) (entry : string * page_link)
  (sc : ScoringSystem.state) : ScoringSystem.state :=
  let sc :=
    if filter_applies date_filter entry
    then ScoringSystem.award_points 5 sc else sc in
  let sc :=
    if PyStr.truthy (eng_date (link_engagement (snd entry)))
    then ScoringSystem.count_date (ScoringSystem.award_points 3 sc)
    else sc in
  if 0 <? eng_likes (link_engagement (snd entry))
  then ScoringSystem.count_likes (ScoringSystem.award_points 5 sc)
  else sc.

(** The score after one turn of the loop on an entry. *)
Definition scored_entry (date_filter : option string)
  (entry : string * page_link) (sc : ScoringSystem.state)
  : ScoringSystem.state :=
  let sc := ScoringSystem.award_points (title_points entry) sc in
  if passes date_filter entry then scored date_filter entry sc else sc.

(** The number of collected videos at which the checker is consulted. *)
Definition due (videos : list VideoData) : bool :=
  (20 <=? Z.of_nat (List.length videos)) &&
  (Z.of_nat (List.length videos) mod 20 =? 0).

(** The points that the loop awards for a collected video. *)
Definition points (date_filter : option string) (v : VideoData) : Z :=
  (if PyStr.truthy (date v)
   then (if filter_on date_filter then 8 else 3) else 0) +
  (if 0 <? likes v then 5 else 0).

(** The collected videos that show a date, and those that show likes. *)
Definition with_date (videos : list VideoData) : list VideoData :=
  filter (fun v => PyStr.truthy (date v)) videos.

Definition with_likes (videos : list VideoData) : list VideoData :=
  filter (fun v => 0 <? likes v) videos.

(** The entries of the page that the loop has reached. *)
Definition seen_entries (all_page_links : list page_link) (st : scrape_state)
  : list (string * page_link) :=
  firstn (List.length (processed_ids st)) (page_entries all_page_links).

(** A scoring system at the start of a session. *)
Definition no_score : ScoringSystem.state := ScoringSystem.mkState 0 0 0 0.

(** A link to the video with the sixteen-digit identity that ends in the
    two digits of [i], showing the date [shown] and [liked] likes. *)
Definition sample_id (i : nat) : string :=
  ("12345678901234" ++ Digits.pad 2 (Z.of_nat i))%string.

Definition sample_link (i : nat) (shown : string) (liked : Z) : page_link :=
  mkPageLink (Ok (Some (watch_url (sample_id i))))
    (fun video_id => ("Draga mama " ++ video_id, 20))%string
    (mkEngagement liked 0 0 "" shown shown).

(** A page of [count] links to different videos. *)
Definition sample_page (count : nat) : list page_link :=
  map (fun i => sample_link i "3 years ago" 7) (seq 0 count).

(** A harvester, as the constructor sets it up, that has stored the
    videos of the first [count] links of the sample page. *)
Definition sample_corpus (count : nat) : SmartHarvester :=
  harvester_with
    (map (fun i => dated_video (sample_id i) "3 years ago") (seq 0 count)).

(** Every identity of the page is stored. *)
Definition page_is_stored (self : SmartHarvester) (links : list page_link)
  : bool :=
  forallb
    (fun link =>
       match link_video_id link with
       | Some id => mem id (all_videos self)
       | None => true
       end)
    links.

(** A checker that stops the loop whenever it is asked. *)
Definition always_stop : list VideoData -> result bool := fun _ => Ok false.

(** A checker that fails whenever it is asked. *)
Definition always_raise : list VideoData -> result bool :=
  fun _ => Raise (ValueError "checker").

(** * Properties *)

(** ** Dictionaries *)

Section DictFacts.
Context {V : Type}.
Implicit Types (d : dict V) (k : string) (v : V).

Lemma get_None_iff d k : get d k = None <-> ~ In k (keys d).
Proof.
  induction d as [|[k' v'] d IH]; simpl.
  - tauto.
  - destruct (String.eqb_spec k k') as [->|Hne].
    + split; [discriminate | intros H; exfalso; apply H; now left].
    + rewrite IH. split.
      * intros H [E|E]; [now apply Hne | now apply H].
      * intros H E. apply H. now right.
Qed.

Lemma mem_false_iff d k : mem k d = false <-> ~ In k (keys d).
Proof.
  unfold mem. rewrite <- get_None_iff. destruct (get d k); split; congruence.
Qed.

Lemma mem_true_iff d k : mem k d = true <-> In k (keys d).
Proof.
  destruct (mem k d) eqn:E.
  - split; [intros _|reflexivity].
    destruct (in_dec string_dec k (keys d)) as [H|H]; [exact H|].
    apply mem_false_iff in H. congruence.
  - apply mem_false_iff in E. split; [discriminate | tauto].
Qed.

Lemma get_set_same d k v : get (PyDict.set d k v) k = Some v.
Proof.
  induction d as [|[k' v'] d IH]; simpl.
  - now rewrite String.eqb_refl.
  - destruct (String.eqb_spec k k') as [->|Hne]; simpl.
    + now rewrite String.eqb_refl.
    + destruct (String.eqb_spec k k'); [contradiction | exact IH].
Qed.

Lemma get_set_other d k v k' :
  k' <> k -> get (PyDict.set d k v) k' = get d k'.
Proof.
  intros Hne. induction d as [|[k0 v0] d IH]; simpl.
  - destruct (String.eqb_spec k' k); [contradiction | reflexivity].
  - destruct (String.eqb_spec k k0) as [->|H0]; simpl.
    + destruct (String.eqb_spec k' k0); [contradiction | reflexivity].
    + now rewrite IH.
Qed.

Lemma keys_set_new d k v :
  ~ In k (keys d) -> keys (PyDict.set d k v) = keys d ++ [k].
Proof.
  induction d as [|[k' v'] d IH]; simpl; intros H.
  - reflexivity.
  - destruct (String.eqb_spec k k') as [->|Hne].
    + exfalso. apply H. now left.
    + simpl. f_equal. apply IH. intros E. apply H. now right.
Qed.

Lemma set_new d k v :
  ~ In k (keys d) -> PyDict.set d k v = d ++ [(k, v)].
Proof.
  induction d as [|[k' v'] d IH]; simpl; intros H.
  - reflexivity.
  - destruct (String.eqb_spec k k') as [->|Hne].
    + exfalso. apply H. now left.
    + f_equal. apply IH. intros E. apply H. now right.
Qed.

Lemma wf_set_new d k v : wf d -> ~ In k (keys d) -> wf (PyDict.set d k v).
Proof.
  unfold wf. intros Hd Hk. rewrite keys_set_new by exact Hk.
  apply NoDup_app; [exact Hd | constructor; [intros [] | constructor] |].
  intros x Hx [<-|[]]. now apply Hk.
Qed.

Lemma len_length d : len d = Z.of_nat (List.length (keys d)).
Proof. unfold len, keys. now rewrite length_map. Qed.

End DictFacts.

Lemma keys_set_old {V : Type} (d : dict V) k v :
  In k (keys d) -> keys (PyDict.set d k v) = keys d.
Proof.
  induction d as [|[k' v'] d IH]; simpl; intros H; [contradiction|].
  destruct (String.eqb_spec k k') as [->|Hne]; [reflexivity|].
  simpl. f_equal. apply IH. destruct H as [E|H]; [congruence | exact H].
Qed.

Lemma wf_set {V : Type} (d : dict V) k v : wf d -> wf (PyDict.set d k v).
Proof.
  intros W. destruct (in_dec string_dec k (keys d)) as [I|N].
  - unfold wf. now rewrite keys_set_old.
  - now apply wf_set_new.
Qed.

(** ** Merging *)

Lemma merge_video_dup st video :
  In (video_id video) (keys (merged st)) ->
  merge_video st video =
    mkMergeState (merged st) (new_videos st) (duplicate_videos st + 1).
Proof.
  intros H. unfold merge_video.
  apply mem_true_iff in H. now rewrite H.
Qed.

Lemma merge_video_new st video :
  ~ In (video_id video) (keys (merged st)) ->
  merge_video st video =
    mkMergeState (merged st ++ [(video_id video, video)])
                 (new_videos st + 1) (duplicate_videos st).
Proof.
  intros H. unfold merge_video.
  pose proof H as H'. apply mem_false_iff in H'. rewrite H'. simpl.
  now rewrite set_new.
Qed.

Lemma fold_merge_keys videos st :
  keys (merged (fold_left merge_video videos st)) =
  keys (merged st) ++ fresh_ids (keys (merged st)) (map video_id videos).
Proof.
  revert st. induction videos as [|v vs IH]; intros st; simpl.
  - now rewrite app_nil_r.
  - rewrite IH.
    destruct (in_dec string_dec (video_id v) (keys (merged st))) as [Hin|Hout].
    + rewrite merge_video_dup by exact Hin. reflexivity.
    + rewrite merge_video_new by exact Hout. simpl.
      unfold keys. rewrite map_app. simpl.
      now rewrite <- app_assoc.
Qed.

Lemma fold_merge_counts videos st :
  let st' := fold_left merge_video videos st in
  new_videos st' - new_videos st =
    Z.of_nat (List.length (fresh_ids (keys (merged st)) (map video_id videos))) /\
  (new_videos st' - new_videos st) + (duplicate_videos st' - duplicate_videos st) =
    Z.of_nat (List.length videos).
Proof.
  revert st. induction videos as [|v vs IH]; intros st; simpl.
  - lia.
  - specialize (IH (merge_video st v)). simpl in IH.
    destruct (in_dec string_dec (video_id v) (keys (merged st))) as [Hin|Hout].
    + rewrite merge_video_dup in * by exact Hin. simpl in *. lia.
    + rewrite merge_video_new in * by exact Hout. simpl in *.
      unfold keys in IH. rewrite map_app in IH. simpl in IH.
      unfold keys. lia.
Qed.

Lemma fresh_ids_spec ids : forall seen,
  NoDup seen ->
  NoDup (seen ++ fresh_ids seen ids) /\
  (forall x, In x (seen ++ fresh_ids seen ids) <-> In x (seen ++ ids)).
Proof.
  induction ids as [|i ids IH]; intros seen Hnd; simpl.
  - rewrite app_nil_r. tauto.
  - destruct (in_dec string_dec i seen) as [Hin|Hout].
    + destruct (IH seen Hnd) as [H1 H2]. split; [exact H1|].
      intros x. rewrite H2, !in_app_iff. simpl.
      split; [tauto|]. intros [H|[<-|H]]; tauto.
    + assert (Hnd' : NoDup (seen ++ [i])).
      { apply NoDup_app; [exact Hnd | constructor; [intros []|constructor] |].
        intros x Hx [<-|[]]. now apply Hout. }
      destruct (IH (seen ++ [i]) Hnd') as [H1 H2].
      rewrite <- app_assoc in H1, H2. simpl in H1, H2.
      split; [exact H1|].
      intros x. rewrite H2, !in_app_iff. simpl. tauto.
Qed.

Lemma fresh_ids_length seen ids :
  NoDup seen ->
  List.length (seen ++ fresh_ids seen ids) =
  List.length (nodup string_dec (seen ++ ids)).
Proof.
  intros Hnd. destruct (fresh_ids_spec ids seen Hnd) as [H1 H2].
  apply Permutation_length, NoDup_Permutation.
  - exact H1.
  - apply NoDup_nodup.
  - intros x. rewrite H2. symmetry. apply nodup_In.
Qed.

Lemma merge_videos_wf all videos :
  wf all -> wf (merged (merge_videos all videos)).
Proof.
  intros H. unfold wf, merge_videos. rewrite fold_merge_keys. simpl.
  now apply fresh_ids_spec.
Qed.

Lemma merge_videos_get all videos id :
  get (merged (merge_videos all videos)) id =
  match get all id with
  | Some v => Some v
  | None => find (fun v => String.eqb id (video_id v)) videos
  end.
Proof.
  unfold merge_videos.
  change all with (merged (mkMergeState all 0 0)) at 2.
  generalize (mkMergeState all 0 0). clear all.
  induction videos as [|v vs IH]; intros st; simpl.
  - now destruct (get (merged st) id).
  - rewrite IH. unfold merge_video.
    destruct (mem (video_id v) (merged st)) eqn:Hm; simpl.
    + destruct (get (merged st) id) eqn:Hg; [reflexivity|].
      destruct (String.eqb_spec id (video_id v)) as [->|Hne]; [|reflexivity].
      unfold mem in Hm. now rewrite Hg in Hm.
    + destruct (String.eqb_spec id (video_id v)) as [->|Hne].
      * rewrite get_set_same. unfold mem in Hm.
        now destruct (get (merged st) (video_id v)).
      * now rewrite get_set_other.
Qed.

Lemma merge_sessions_keys batches : forall all,
  keys (merge_sessions all batches) =
  keys all ++ fresh_ids (keys all) (map video_id (List.concat batches)).
Proof.
  induction batches as [|b bs IH]; intros all; simpl.
  - now rewrite app_nil_r.
  - unfold merge_sessions in *. simpl. rewrite IH.
    unfold merge_videos. rewrite fold_merge_keys. simpl.
    rewrite map_app, <- app_assoc. f_equal.
    generalize (keys all). clear.
    induction b as [|v vs IHb]; intros seen; simpl.
    + now rewrite app_nil_r.
    + destruct (in_dec string_dec (video_id v) seen); [apply IHb|].
      simpl. f_equal. rewrite <- IHb. now rewrite <- app_assoc.
Qed.

Lemma merge_sessions_get batches : forall all id,
  get (merge_sessions all batches) id =
  match get all id with
  | Some v => Some v
  | None => find (fun v => String.eqb id (video_id v)) (List.concat batches)
  end.
Proof.
  induction batches as [|b bs IH]; intros all id; simpl.
  - now destruct (get all id).
  - unfold merge_sessions in *. simpl. rewrite IH, merge_videos_get.
    destruct (get all id); [reflexivity|].
    induction b as [|v vs IHb]; simpl; [reflexivity|].
    now destruct (String.eqb id (video_id v)).
Qed.

(** C1. Merging an item whose identity is already stored leaves the corpus
    as it is: the stored item stays (first seen wins) and the size does not
    change.  After any sequence of merges, batch after batch, the stored
    item of an identity is the first one seen with it, and the size of the
    corpus is the number of distinct identities it has been given. *)
Theorem corpus_merge_first_seen_wins :
  (forall st video stored,
      get (merged st) (video_id video) = Some stored ->
      merged (merge_video st video) = merged st /\
      new_videos (merge_video st video) = new_videos st /\
      duplicate_videos (merge_video st video) = duplicate_videos st + 1) /\
  (forall batches id,
      get (merge_sessions [] batches) id =
      find (fun v => String.eqb id (video_id v)) (List.concat batches)) /\
  (forall batches,
      len (merge_sessions [] batches) =
      Z.of_nat (List.length
                  (nodup string_dec (map video_id (List.concat batches))))) /\
  (forall all batches,
      wf all ->
      wf (merge_sessions all batches) /\
      len (merge_sessions all batches) =
      Z.of_nat (List.length
                  (nodup string_dec
                     (keys all ++ map video_id (List.concat batches))))).
Proof.
  assert (G : forall all batches, wf all ->
      wf (merge_sessions all batches) /\
      len (merge_sessions all batches) =
      Z.of_nat (List.length
                  (nodup string_dec
                     (keys all ++ map video_id (List.concat batches))))).
  { intros all batches Hwf. unfold wf.
    rewrite len_length, merge_sessions_keys. split.
    - now apply fresh_ids_spec.
    - f_equal. now apply fresh_ids_length. }
  repeat split.
  - unfold merge_video, mem. now rewrite H.
  - unfold merge_video, mem. now rewrite H.
  - unfold merge_video, mem. now rewrite H.
  - intros batches id. now rewrite merge_sessions_get.
  - intros batches. apply (G [] batches). constructor.
  - now apply G.
  - now apply G.
Qed.

Lemma corpus_merge_first_seen_wins_witness :
  let a := mkVideoData "1" "first" "" "" "" 0 0 0 "" "" "" in
  let b := mkVideoData "1" "second" "" "" "" 0 0 0 "" "" "" in
  let c := mkVideoData "2" "other" "" "" "" 0 0 0 "" "" "" in
  wf [("1", a)] /\
  merge_sessions [("1", a)] [[b; c]; [c; b]] = [("1", a); ("2", c)] /\
  len (merge_sessions [("1", a)] [[b; c]; [c; b]]) = 2.
Proof.
  intros a b c.
  assert (W : wf [("1", a)]).
  { unfold wf. simpl. constructor; [intros [] | constructor]. }
  split; [exact W|]. split; [reflexivity|].
  destruct corpus_merge_first_seen_wins as (_ & _ & _ & G).
  destruct (G [("1", a)] [[b; c]; [c; b]] W) as [_ ->].
  reflexivity.
Defined.

(** ** Strings *)

Section StringFacts.
Local Open Scope string_scope.

Lemma append_assoc (a b c : string) : (a ++ b) ++ c = a ++ (b ++ c).
Proof. induction a as [|x a IH]; simpl; [reflexivity | now rewrite IH]. Qed.

Lemma append_nil_r (a : string) : a ++ "" = a.
Proof. induction a as [|x a IH]; simpl; [reflexivity | now rewrite IH]. Qed.

Lemma length_append (a b : string) :
  String.length (a ++ b) = (String.length a + String.length b)%nat.
Proof. induction a as [|x a IH]; simpl; [reflexivity | now rewrite IH]. Qed.

Lemma substring_0_length (a b : string) :
  substring 0 (String.length a) (a ++ b) = a.
Proof.
  induction a as [|x a IH]; simpl.
  - now destruct b.
  - now rewrite IH.
Qed.

Lemma consumed_append (a b : string) : Re.consumed (a ++ b) b = a.
Proof.
  unfold Re.consumed. rewrite length_append.
  replace (String.length a + String.length b - String.length b)%nat
    with (String.length a) by lia.
  apply substring_0_length.
Qed.

Lemma drop_append (a b : string) : PyStr.drop (String.length a) (a ++ b) = b.
Proof. induction a as [|x a IH]; simpl; [reflexivity | exact IH]. Qed.

Lemma startswith_append (a b : string) : PyStr.startswith a (a ++ b) = true.
Proof.
  induction a as [|x a IH]; simpl; [reflexivity|].
  now rewrite Ascii.eqb_refl.
Qed.

Lemma startswith_inv (p s : string) :
  PyStr.startswith p s = true -> exists rest, s = p ++ rest.
Proof.
  revert s. induction p as [|x p IH]; intros s H; simpl in *.
  - now exists s.
  - destruct s as [|y s]; [discriminate|].
    apply andb_true_iff in H. destruct H as [E H].
    apply Ascii.eqb_eq in E. subst y.
    destruct (IH s H) as [rest ->]. now exists rest.
Qed.

End StringFacts.

(** ** The matcher *)

Section MatcherFacts.
Local Open Scope string_scope.
Import Re.

(** A successful [cls+] has consumed a non-empty run of the class. *)
Lemma plus_sound cls s gs k r :
  plus cls s gs k = Some r ->
  exists run rest,
    s = run ++ rest /\ run <> "" /\ all_in cls run = true /\
    k rest gs = Some r.
Proof.
  revert r. induction s as [|c s IH]; intros r H; simpl in H.
  - discriminate.
  - destruct (cls c) eqn:Hc; [|discriminate].
    destruct (plus cls s gs k) as [r'|] eqn:Hp.
    + injection H as <-.
      destruct (IH r' eq_refl) as (run & rest & -> & _ & Hall & Hk).
      exists (String c run), rest. simpl. rewrite Hc, Hall.
      repeat split; [discriminate | exact Hk].
    + exists (String c ""), s. simpl. rewrite Hc.
      repeat split; [discriminate | exact H].
Qed.

(** A greedy [cls+] takes the whole run when the rest of the pattern
    matches after it and the run cannot be extended. *)
Lemma plus_greedy cls run rest gs k r :
  run <> "" -> all_in cls run = true ->
  plus cls rest gs k = None ->
  k rest gs = Some r ->
  plus cls (run ++ rest) gs k = Some r.
Proof.
  intros Hne Hall Hstop Hk.
  induction run as [|c run IH]; [contradiction|].
  simpl in *. apply andb_true_iff in Hall. destruct Hall as [Hc Hall].
  rewrite Hc. destruct run as [|c' run].
  - simpl. now rewrite Hstop.
  - rewrite IH; [reflexivity | discriminate | exact Hall].
Qed.

Lemma plus_first_not_in cls c s gs k :
  cls c = false -> plus cls (String c s) gs k = None.
Proof. intros H. simpl. now rewrite H. Qed.

End MatcherFacts.

(** ** The age priority *)

Section AgePriority.
Local Open Scope string_scope.
Import Re PyStr.

Lemma space_not_digit c : is_space c = true -> is_digit c = false.
Proof.
  unfold is_space, is_digit, Digits.is_digit, code.
  generalize (nat_of_ascii c). intros n H.
  repeat (apply orb_true_iff in H; destruct H as [H|H]);
    repeat (apply andb_true_iff in H; destruct H as [? H]);
    repeat match goal with
           | H : (_ <=? _)%nat = true |- _ => apply Nat.leb_le in H
           | H : (_ =? _)%nat = true |- _ => apply Nat.eqb_eq in H
           end;
    apply andb_false_iff;
    rewrite !Nat.leb_gt; lia.
Qed.

Lemma unit_first_not_space unit post :
  In unit units -> forall gs k, plus is_space (unit ++ post) gs k = None.
Proof.
  intros H gs k. unfold units in H. simpl in H.
  destruct H as [<-|[<-|[<-|[<-|[]]]]]; reflexivity.
Qed.

Lemma lit_here (l post : string) gs (k : cont) :
  exec (Lit l) (l ++ post) gs k = k post gs.
Proof. cbn [exec]. now rewrite startswith_append, drop_append. Qed.

Lemma unit_alternatives unit post gs :
  In unit units ->
  exec unit_group (unit ++ post) gs (fun _ g => Some g) =
  Some (gs ++ [unit])%list.
Proof.
  intros H. unfold units in H. simpl in H. unfold unit_group.
  destruct H as [<-|[<-|[<-|[<-|[]]]]]; cbn [exec].
  - rewrite startswith_append, drop_append. now rewrite consumed_append.
  - replace (startswith "year" ("month" ++ post)) with false by reflexivity.
    rewrite startswith_append, drop_append. now rewrite consumed_append.
  - replace (startswith "year" ("day" ++ post)) with false by reflexivity.
    replace (startswith "month" ("day" ++ post)) with false by reflexivity.
    rewrite startswith_append, drop_append. now rewrite consumed_append.
  - replace (startswith "year" ("hour" ++ post)) with false by reflexivity.
    replace (startswith "month" ("hour" ++ post)) with false by reflexivity.
    replace (startswith "day" ("hour" ++ post)) with false by reflexivity.
    rewrite startswith_append, drop_append. now rewrite consumed_append.
Qed.

Lemma unit_alternatives_sound rest gs g :
  exec unit_group rest gs (fun _ g => Some g) = Some g ->
  exists unit post,
    In unit units /\ rest = unit ++ post /\ g = ((gs ++ [unit])%list).
Proof.
  unfold unit_group. cbn [exec]. intros H.
  assert (U : forall u, startswith u rest = true ->
            exists post, rest = u ++ post /\
                         consumed rest (drop (String.length u) rest) = u).
  { intros u Hu. apply startswith_inv in Hu. destruct Hu as [post ->].
    exists post. now rewrite drop_append, consumed_append. }
  destruct (startswith "year" rest) eqn:E1.
  { destruct (U _ E1) as (post & Hr & Hc). rewrite Hc in H.
    exists "year", post. unfold units. simpl. intuition congruence. }
  destruct (startswith "month" rest) eqn:E2.
  { destruct (U _ E2) as (post & Hr & Hc). rewrite Hc in H.
    exists "month", post. unfold units. simpl. intuition congruence. }
  destruct (startswith "day" rest) eqn:E3.
  { destruct (U _ E3) as (post & Hr & Hc). rewrite Hc in H.
    exists "day", post. unfold units. simpl. intuition congruence. }
  destruct (startswith "hour" rest) eqn:E4.
  { destruct (U _ E4) as (post & Hr & Hc). rewrite Hc in H.
    exists "hour", post. unfold units. simpl. intuition congruence. }
  discriminate.
Qed.

Lemma date_pattern_eq :
  date_pattern = Seq (Group (Plus is_digit)) (Seq (Plus is_space) unit_group).
Proof. reflexivity. Qed.

(** At a text of the form of the pattern the match succeeds and captures
    the number and the unit. *)
Lemma match_complete s number_text ws unit post :
  magnitude_and_unit s number_text ws unit post ->
  match_ date_pattern s = Some [number_text; unit].
Proof.
  intros (-> & Hn & Hd & Hw & Hs & Hu).
  unfold match_. rewrite date_pattern_eq.
  cbn [exec].
  assert (Hstop1 : forall gs k, plus is_digit (ws ++ unit ++ post) gs k = None).
  { intros gs k. destruct ws as [|c ws]; [contradiction|].
    simpl in Hs. apply andb_true_iff in Hs. destruct Hs as [Hc _].
    simpl. now rewrite (space_not_digit c Hc). }
  apply plus_greedy; [exact Hn | exact Hd | apply Hstop1 |].
  rewrite consumed_append.
  apply plus_greedy; [exact Hw | exact Hs | now apply unit_first_not_space |].
  now apply (unit_alternatives unit post [number_text]).
Qed.

(** A match has the form of the pattern. *)
Lemma match_sound s gs :
  match_ date_pattern s = Some gs ->
  exists number_text ws unit post,
    magnitude_and_unit s number_text ws unit post /\
    gs = [number_text; unit].
Proof.
  unfold match_. rewrite date_pattern_eq. cbn [exec]. intros H.
  apply plus_sound in H.
  destruct H as (ds & rest & Hs1 & Hn & Hd & H).
  apply plus_sound in H.
  destruct H as (ws & rest' & Hs2 & Hw & Hs & H).
  apply unit_alternatives_sound in H.
  destruct H as (unit & post & Hu & Hs3 & Hg).
  subst. rewrite consumed_append.
  exists ds, ws, unit, post. unfold magnitude_and_unit. intuition.
Qed.

Lemma match_needs_digit c s :
  is_digit c = false -> match_ date_pattern (String c s) = None.
Proof.
  intros H. unfold match_. rewrite date_pattern_eq. cbn [exec].
  now apply plus_first_not_in.
Qed.

Lemma match_empty : match_ date_pattern "" = None.
Proof. reflexivity. Qed.

(** [search] skips a prefix without digits. *)
Lemma search_skip pre s :
  none_in is_digit pre = true ->
  search date_pattern (pre ++ s) = search date_pattern s.
Proof.
  induction pre as [|c pre IH]; intros H; [reflexivity|].
  simpl in H. apply andb_true_iff in H. destruct H as [Hc H].
  apply negb_true_iff in Hc.
  cbn [append search].
  rewrite (match_needs_digit c _ Hc). now apply IH.
Qed.

Lemma search_here s gs :
  match_ date_pattern s = Some gs -> search date_pattern s = Some gs.
Proof. intros H. destruct s; cbn [search]; now rewrite H. Qed.

(** A successful search has found the form of the pattern somewhere. *)
Lemma search_sound s gs :
  search date_pattern s = Some gs ->
  exists pre number_text ws unit post,
    s = pre ++ number_text ++ ws ++ unit ++ post /\
    magnitude_and_unit (number_text ++ ws ++ unit ++ post)
      number_text ws unit post /\
    gs = [number_text; unit].
Proof.
  induction s as [|c s IH]; cbn [search].
  - rewrite match_empty. discriminate.
  - destruct (match_ date_pattern (String c s)) as [g|] eqn:E.
    + intros H. injection H as <-.
      destruct (match_sound _ _ E) as (n & ws & u & post & Hm & ->).
      exists "", n, ws, u, post. simpl.
      pose proof Hm as (Hs & _). rewrite <- Hs. split; [reflexivity|].
      split; [exact Hm | reflexivity].
    + intros H. destruct (IH H) as (pre & n & ws & u & post & -> & Hm & ->).
      exists (String c pre), n, ws, u, post.
      split; [reflexivity|]. split; [exact Hm | reflexivity].
Qed.

Lemma priority_of_groups number_text unit :
  In unit units ->
  (number <- int_of_digits number_text ;;
   if String.eqb unit "year" then Ok (number * 365)
   else if String.eqb unit "month" then Ok (number * 30)
   else if String.eqb unit "day" then Ok number
   else if String.eqb unit "hour" then Ok 0
   else Ok 5000) =
  (number <- int_of_digits number_text ;; Ok (day_equivalent number unit)).
Proof.
  unfold units. simpl.
  intros [<-|[<-|[<-|[<-|[]]]]]; destruct (int_of_digits number_text);
    reflexivity.
Qed.

Lemma int_of_digits_within number_text :
  (String.length number_text <= max_str_digits)%nat ->
  int_of_digits number_text = Ok (digits_value number_text).
Proof.
  intros H. unfold int_of_digits.
  destruct (Nat.ltb_spec max_str_digits (String.length number_text));
    [lia | reflexivity].
Qed.

Lemma int_of_digits_beyond number_text :
  (max_str_digits < String.length number_text)%nat ->
  int_of_digits number_text =
    Raise (int_limit_error (String.length number_text)).
Proof.
  intros H. unfold int_of_digits.
  destruct (Nat.ltb_spec max_str_digits (String.length number_text));
    [reflexivity | lia].
Qed.

End AgePriority.

Section AgePriorityTheorem.
Local Open Scope string_scope.
Import Re PyStr.

Lemma priority_nonempty s :
  s <> "" ->
  _parse_date_to_priority s =
  match search date_pattern (lower s) with
  | Some [number_text; unit] =>
      number <- int_of_digits number_text ;;
      if String.eqb unit "year" then Ok (number * 365)
      else if String.eqb unit "month" then Ok (number * 30)
      else if String.eqb unit "day" then Ok number
      else if String.eqb unit "hour" then Ok 0
      else Ok 5000
  | _ => Ok 5000
  end.
Proof. intros H. destruct s; [contradiction | reflexivity]. Qed.

(** Wherever the form of the pattern occurs, the search finds a match. *)
Lemma search_complete pre rest number_text ws unit post :
  magnitude_and_unit rest number_text ws unit post ->
  search date_pattern (pre ++ rest) <> None.
Proof.
  intros Hm. induction pre as [|c pre IH].
  - simpl append. now rewrite (search_here _ _ (match_complete _ _ _ _ _ Hm)).
  - cbn [append search].
    destruct (match_ date_pattern (String c (pre ++ rest))); [discriminate|].
    exact IH.
Qed.

(** The age priority of a bucket in which the form of the pattern comes
    after a prefix without digits. *)
Lemma priority_of_form s pre number_text ws unit post :
  lower s = pre ++ number_text ++ ws ++ unit ++ post ->
  none_in is_digit pre = true ->
  number_text <> "" -> all_in is_digit number_text = true ->
  ws <> "" -> all_in is_space ws = true ->
  In unit units ->
  _parse_date_to_priority s =
    (number <- int_of_digits number_text ;; Ok (day_equivalent number unit)).
Proof.
  intros Hs Hpre Hn Hd Hw Hsp Hu.
  assert (NE : s <> "").
  { intros ->. simpl in Hs.
    destruct pre; [|discriminate]. destruct number_text;
      [contradiction | discriminate]. }
  rewrite (priority_nonempty s NE), Hs, (search_skip pre _ Hpre).
  rewrite (search_here _ [number_text; unit]).
  - now apply priority_of_groups.
  - apply (match_complete _ number_text ws unit post).
    unfold magnitude_and_unit. intuition.
Qed.

(** X2. The age priority, for strings of code points below 256.  The
    priority of the empty string is 9999.  A bucket whose lower-case
    form has, after a prefix without digits, a decimal number,
    white space and one of the units hour, day, month, year has the day
    equivalent of that number when the number has at most 4300 digits: 0
    for hours, the number for days, 30 times the number for months, 365
    times the number for years; with more digits the call raises the
    [ValueError] of [int], whatever the unit.  A bucket in which such a
    form occurs anywhere has the day equivalent of one of its
    occurrences, the one the search finds first, or raises for it.  A
    non-empty bucket in which no number is followed by white space and a
    unit has priority 5000.  The six buckets of the specification have
    the priorities it lists. *)
Theorem parse_date_to_priority_spec :
  _parse_date_to_priority "" = Ok 9999 /\
  (forall s pre number_text ws unit post,
      lower s = pre ++ number_text ++ ws ++ unit ++ post ->
      none_in is_digit pre = true ->
      number_text <> "" -> all_in is_digit number_text = true ->
      ws <> "" -> all_in is_space ws = true ->
      In unit units ->
      ((String.length number_text <= 4300)%nat ->
       _parse_date_to_priority s =
         Ok (day_equivalent (digits_value number_text) unit)) /\
      ((4300 < String.length number_text)%nat ->
       _parse_date_to_priority s =
         Raise (int_limit_error (String.length number_text)))) /\
  (forall s pre number_text ws unit post,
      lower s = pre ++ number_text ++ ws ++ unit ++ post ->
      number_text <> "" -> all_in is_digit number_text = true ->
      ws <> "" -> all_in is_space ws = true ->
      In unit units ->
      exists pre' number_text' ws' unit' post',
        lower s = pre' ++ number_text' ++ ws' ++ unit' ++ post' /\
        magnitude_and_unit (number_text' ++ ws' ++ unit' ++ post')
          number_text' ws' unit' post' /\
        _parse_date_to_priority s =
          (number <- int_of_digits number_text' ;;
           Ok (day_equivalent number unit'))) /\
  (forall s,
      s <> "" ->
      (forall pre number_text ws unit post,
          lower s = pre ++ number_text ++ ws ++ unit ++ post ->
          ~ (number_text <> "" /\ all_in is_digit number_text = true /\
             ws <> "" /\ all_in is_space ws = true /\ In unit units)) ->
      _parse_date_to_priority s = Ok 5000) /\
  (day_equivalent 7 "hour" = 0 /\ day_equivalent 7 "day" = 7 /\
   day_equivalent 7 "month" = 7 * 30 /\ day_equivalent 7 "year" = 7 * 365) /\
  _parse_date_to_priority "3 years ago" = Ok 1095 /\
  _parse_date_to_priority "5 months ago" = Ok 150 /\
  _parse_date_to_priority "2 days ago" = Ok 2 /\
  _parse_date_to_priority "1 hour ago" = Ok 0 /\
  _parse_date_to_priority "banana" = Ok 5000.
Proof.
  assert (NE : forall s pre n ws u post,
             lower s = pre ++ n ++ ws ++ u ++ post -> n <> "" -> s <> "").
  { intros s pre n ws u post Hs Hn ->. simpl in Hs.
    destruct pre; [|discriminate]. destruct n; [contradiction | discriminate]. }
  split; [reflexivity|]. split; [|split; [|split]].
  - intros s pre n ws u post Hs Hpre Hn Hd Hw Hsp Hu.
    rewrite (priority_of_form s pre n ws u post Hs Hpre Hn Hd Hw Hsp Hu).
    split; intros L.
    + now rewrite int_of_digits_within.
    + now rewrite int_of_digits_beyond.
  - intros s pre n ws u post Hs Hn Hd Hw Hsp Hu.
    rewrite (priority_nonempty s (NE _ _ _ _ _ _ Hs Hn)).
    destruct (search date_pattern (lower s)) as [gs|] eqn:E.
    + destruct (search_sound _ _ E)
        as (pre' & n' & ws' & u' & post' & Hs' & Hm & Hg).
      exists pre', n', ws', u', post'. split; [exact Hs'|]. split; [exact Hm|].
      rewrite Hg. apply priority_of_groups. apply Hm.
    + exfalso. rewrite Hs in E. revert E.
      apply (search_complete pre (n ++ ws ++ u ++ post) n ws u post).
      unfold magnitude_and_unit. intuition.
  - intros s Hne Hno. rewrite (priority_nonempty s Hne).
    destruct (search date_pattern (lower s)) as [gs|] eqn:E; [|reflexivity].
    exfalso.
    destruct (search_sound _ _ E) as (pre & n & ws & u & post & Hs & Hm & _).
    apply (Hno pre n ws u post Hs).
    destruct Hm as (_ & Hm). exact Hm.
  - repeat split; reflexivity.
Qed.

Lemma parse_date_to_priority_spec_witness :
  _parse_date_to_priority "About 12  Months ago" = Ok 360 /\
  _parse_date_to_priority "3years ago" = Ok 5000.
Proof.
  destruct parse_date_to_priority_spec as (_ & H & _ & H' & _). split.
  - assert (U : In "month" units) by (unfold units; simpl; auto).
    assert (D : "12" <> "") by discriminate.
    assert (S : "  " <> "") by discriminate.
    destruct (H "About 12  Months ago" "about " "12" "  " "month" "s ago"
                eq_refl eq_refl D eq_refl S eq_refl U) as [W _].
    apply W. simpl. lia.
  - apply H'; [discriminate|].
    intros pre n ws u post Hs Hm.
    apply (search_complete pre (n ++ ws ++ u ++ post) n ws u post).
    + split; [reflexivity | exact Hm].
    + rewrite <- Hs. reflexivity.
Defined.

Lemma nines_length n : String.length (nines n) = n.
Proof. induction n as [|n IH]; simpl; [reflexivity | now rewrite IH]. Qed.

Lemma nines_digits n : all_in is_digit (nines n) = true.
Proof. induction n as [|n IH]; simpl; [reflexivity | exact IH]. Qed.

Lemma nines_lower n post : lower (nines n ++ post) = nines n ++ lower post.
Proof. induction n as [|n IH]; simpl; [reflexivity | now rewrite IH]. Qed.

(** A bucket with a magnitude of [n] nines. *)
Lemma priority_of_nines n unit post :
  (0 < n)%nat -> In unit units ->
  _parse_date_to_priority (nines n ++ " " ++ unit ++ post) =
    (number <- int_of_digits (nines n) ;; Ok (day_equivalent number unit)).
Proof.
  intros Hn Hu.
  apply (priority_of_form _ "" (nines n) " " unit (lower post)).
  - rewrite nines_lower. cbn [append]. f_equal.
    change (lower (String " " (unit ++ post)))
      with (String " " (lower (unit ++ post))).
    f_equal. unfold units in Hu. simpl in Hu.
    destruct Hu as [<-|[<-|[<-|[<-|[]]]]]; reflexivity.
  - reflexivity.
  - destruct n; [lia | discriminate].
  - apply nines_digits.
  - discriminate.
  - reflexivity.
  - exact Hu.
Qed.

Lemma priority_of_over_limit_bucket :
  _parse_date_to_priority over_limit_bucket = Raise (int_limit_error 4301).
Proof.
  assert (Y : In "year" units) by (unfold units; simpl; auto).
  change over_limit_bucket with (nines 4301 ++ " " ++ "year" ++ "s ago").
  rewrite (priority_of_nines 4301 "year" "s ago") by (lia || exact Y).
  rewrite int_of_digits_beyond
    by (rewrite nines_length; unfold max_str_digits; lia).
  now rewrite nines_length.
Qed.

(** C7, where the code leaves the claim.  The bucket of 4301 nines and
    [ years ago] has a magnitude and a unit, and the claim gives it 365
    times the magnitude; the call raises the [ValueError] of [int], whose
    conversion is limited to 4300 digits.  With 4300 nines the value is
    the one of the claim. *)
Theorem priority_raises_beyond_the_digit_limit :
  _parse_date_to_priority over_limit_bucket = Raise (int_limit_error 4301) /\
  _parse_date_to_priority (nines 4301 ++ " hours ago") =
    Raise (int_limit_error 4301) /\
  _parse_date_to_priority (nines 4300 ++ " years ago") =
    Ok (day_equivalent (digits_value (nines 4300)) "year").
Proof.
  assert (Y : In "year" units) by (unfold units; simpl; auto).
  assert (H : In "hour" units) by (unfold units; simpl; auto).
  split; [|split].
  - exact priority_of_over_limit_bucket.
  - change (nines 4301 ++ " hours ago")
      with (nines 4301 ++ " " ++ "hour" ++ "s ago").
    rewrite (priority_of_nines 4301 "hour" "s ago") by (lia || exact H).
    rewrite int_of_digits_beyond by (rewrite nines_length; unfold max_str_digits; lia).
    now rewrite nines_length.
  - change (nines 4300 ++ " years ago")
      with (nines 4300 ++ " " ++ "year" ++ "s ago").
    rewrite (priority_of_nines 4300 "year" "s ago") by (lia || exact Y).
    rewrite int_of_digits_within by (rewrite nines_length; unfold max_str_digits; lia).
    reflexivity.
Qed.

End AgePriorityTheorem.

(** ** Rounding *)

Section FloatFacts.
Local Open Scope Q_scope.

Lemma pow2_pos e : 0 < pow2 e.
Proof. apply Qpower_0_lt. reflexivity. Qed.

Lemma pow2_add a b : pow2 (a + b) == pow2 a * pow2 b.
Proof. apply Qpower_plus. discriminate. Qed.

Lemma pow2_le a b : (a <= b)%Z -> pow2 a <= pow2 b.
Proof. intros H. apply Qpower_le_compat_l; [exact H | discriminate]. Qed.

Lemma pow2_lt a b : (a < b)%Z -> pow2 a < pow2 b.
Proof. intros H. apply Qpower_lt_compat_l; [exact H | reflexivity]. Qed.

Lemma pow2_lt_inv a b : pow2 a < pow2 b -> (a < b)%Z.
Proof. intros H. apply (Qpower_lt_compat_l_inv 2); [exact H | reflexivity]. Qed.

Lemma pow2_Z n : (0 <= n)%Z -> pow2 n == inject_Z (2 ^ n).
Proof. intros H. unfold pow2. now rewrite Zpower_Qpower. Qed.

Lemma pow2_sub a b : pow2 a / pow2 b == pow2 (a - b).
Proof.
  unfold pow2. rewrite Qpower_minus by discriminate. reflexivity.
Qed.

Lemma div_pow2_le x y u : x <= y -> x / pow2 u <= y / pow2 u.
Proof.
  intros H. unfold Qdiv. apply Qmult_le_compat_r; [exact H|].
  apply Qlt_le_weak, Qinv_lt_0_compat, pow2_pos.
Qed.

Lemma div_mul_pow2 x u : x / pow2 u * pow2 u == x.
Proof.
  unfold Qdiv. rewrite <- Qmult_assoc, (Qmult_comm (/ _)), Qmult_inv_r.
  - apply Qmult_1_r.
  - intros E. pose proof (pow2_pos u) as P. rewrite E in P. discriminate.
Qed.

(** *** The binade *)

Lemma binade_spec q :
  0 < q -> pow2 (binade q) <= q /\ q < pow2 (binade q + 1).
Proof.
  intros Hq. destruct q as [a b]. unfold binade. cbn [Qnum Qden].
  assert (Ha : (0 < a)%Z).
  { unfold Qlt in Hq. simpl in Hq. lia. }
  set (la := Z.log2 a). set (lb := Z.log2 (Z.pos b)).
  assert (Hla : (0 <= la)%Z) by apply Z.log2_nonneg.
  assert (Hlb : (0 <= lb)%Z) by apply Z.log2_nonneg.
  destruct (Z.log2_spec a Ha) as [A1 A2]. fold la in A1, A2.
  destruct (Z.log2_spec (Z.pos b) (Pos2Z.is_pos b)) as [B1 B2].
  fold lb in B1, B2.
  assert (QA1 : pow2 la <= inject_Z a).
  { rewrite pow2_Z by exact Hla. now rewrite <- Zle_Qle. }
  assert (QA2 : inject_Z a < pow2 (la + 1)).
  { rewrite pow2_Z by lia. rewrite <- Zlt_Qlt. exact A2. }
  assert (QB1 : pow2 lb <= inject_Z (Z.pos b)).
  { rewrite pow2_Z by exact Hlb. now rewrite <- Zle_Qle. }
  assert (QB2 : inject_Z (Z.pos b) < pow2 (lb + 1)).
  { rewrite pow2_Z by lia. rewrite <- Zlt_Qlt. exact B2. }
  assert (Hb : 0 < inject_Z (Z.pos b)).
  { change 0 with (inject_Z 0). now rewrite <- Zlt_Qlt. }
  assert (Eq : a # b == inject_Z a / inject_Z (Z.pos b)) by apply Qmake_Qdiv.
  assert (Up : a # b < pow2 (la - lb + 1)).
  { rewrite Eq. apply Qlt_shift_div_r; [exact Hb|].
    apply Qlt_le_trans with (pow2 (la + 1)); [exact QA2|].
    replace (la + 1)%Z with ((la - lb + 1) + lb)%Z by lia.
    rewrite pow2_add. apply Qmult_le_l; [apply pow2_pos | exact QB1]. }
  assert (Lo : pow2 (la - lb - 1) <= a # b).
  { rewrite Eq. apply Qle_shift_div_l; [exact Hb|].
    apply Qle_trans with (pow2 la); [|exact QA1].
    replace la with ((la - lb - 1) + (lb + 1))%Z at 2 by lia.
    rewrite pow2_add. apply Qmult_le_l; [apply pow2_pos|].
    now apply Qlt_le_weak. }
  destruct (Qle_bool (pow2 (la - lb)) (a # b)) eqn:E.
  - apply Qle_bool_iff in E. split; [exact E | exact Up].
  - split; [exact Lo|].
    replace (la - lb - 1 + 1)%Z with (la - lb)%Z by lia.
    apply Qnot_le_lt. intros C. apply Qle_bool_iff in C. congruence.
Qed.

Lemma binade_mono q1 q2 :
  0 < q1 -> q1 <= q2 -> (binade q1 <= binade q2)%Z.
Proof.
  intros H1 H12.
  assert (H2 : 0 < q2) by (eapply Qlt_le_trans; eassumption).
  destruct (binade_spec q1 H1) as [L1 _].
  destruct (binade_spec q2 H2) as [_ U2].
  assert (P : pow2 (binade q1) < pow2 (binade q2 + 1)).
  { eapply Qle_lt_trans; [exact L1|]. eapply Qle_lt_trans; eassumption. }
  apply pow2_lt_inv in P. lia.
Qed.

(** *** Nearest integer *)

Lemma rne_cases x : rne x = Qfloor x \/ rne x = (Qfloor x + 1)%Z.
Proof.
  unfold rne. destruct (_ ?= _); [destruct (Z.even _)| |]; auto.
Qed.

Lemma rne_mono x y : x <= y -> (rne x <= rne y)%Z.
Proof.
  intros H. pose proof (Qfloor_resp_le x y H) as F.
  destruct (Z.eq_dec (Qfloor x) (Qfloor y)) as [E|NE].
  - unfold rne. rewrite <- E.
    destruct (Qcompare_spec (x - inject_Z (Qfloor x)) (1 # 2)) as [X|X|X];
      destruct (Qcompare_spec (y - inject_Z (Qfloor x)) (1 # 2)) as [Y|Y|Y];
      try destruct (Z.even (Qfloor x)); try lia; exfalso; lra.
  - destruct (rne_cases x) as [-> | ->], (rne_cases y) as [-> | ->]; lia.
Qed.

Lemma rne_Z n : rne (inject_Z n) = n.
Proof.
  unfold rne. rewrite Qfloor_Z.
  destruct (Qcompare_spec (inject_Z n - inject_Z n) (1 # 2)) as [X|X|X];
    [exfalso; lra | reflexivity | exfalso; lra].
Qed.

(** *** Rounding of positive rationals *)

Lemma round_val_upper q t :
  0 < q -> q <= pow2 t -> (fexp (binade q) <= t)%Z -> round_val q <= pow2 t.
Proof.
  intros Hq Hle Hu. unfold round_val.
  set (u := fexp (binade q)) in *.
  assert (M : (rne (q / pow2 u) <= 2 ^ (t - u))%Z).
  { rewrite <- (rne_Z (2 ^ (t - u))). apply rne_mono.
    rewrite <- pow2_Z by lia. rewrite <- pow2_sub. now apply div_pow2_le. }
  rewrite Zle_Qle in M. rewrite <- pow2_Z in M by lia.
  replace (pow2 t) with (pow2 ((t - u) + u)) by (f_equal; lia).
  rewrite pow2_add.
  apply Qmult_le_compat_r; [exact M | apply Qlt_le_weak, pow2_pos].
Qed.

Lemma round_val_lower q t :
  0 < q -> pow2 t <= q -> (fexp (binade q) <= t)%Z -> pow2 t <= round_val q.
Proof.
  intros Hq Hle Hu. unfold round_val.
  set (u := fexp (binade q)) in *.
  assert (M : (2 ^ (t - u) <= rne (q / pow2 u))%Z).
  { rewrite <- (rne_Z (2 ^ (t - u))) at 1. apply rne_mono.
    rewrite <- pow2_Z by lia. rewrite <- pow2_sub. now apply div_pow2_le. }
  rewrite Zle_Qle in M. rewrite <- pow2_Z in M by lia.
  replace (pow2 t) with (pow2 ((t - u) + u)) at 1 by (f_equal; lia).
  rewrite pow2_add.
  apply Qmult_le_compat_r; [exact M | apply Qlt_le_weak, pow2_pos].
Qed.

Lemma round_val_nonneg q : 0 < q -> 0 <= round_val q.
Proof.
  intros Hq. unfold round_val.
  apply Qmult_le_0_compat; [|apply Qlt_le_weak, pow2_pos].
  change 0 with (inject_Z 0). rewrite <- Zle_Qle.
  rewrite <- (rne_Z 0). apply rne_mono.
  apply Qle_shift_div_l; [apply pow2_pos|].
  change (inject_Z 0) with 0. rewrite Qmult_0_l. now apply Qlt_le_weak.
Qed.

Lemma round_val_mono q1 q2 :
  0 < q1 -> q1 <= q2 -> round_val q1 <= round_val q2.
Proof.
  intros H1 H12.
  assert (H2 : 0 < q2) by (eapply Qlt_le_trans; eassumption).
  pose proof (binade_mono q1 q2 H1 H12) as He.
  destruct (binade_spec q1 H1) as [L1 U1].
  destruct (binade_spec q2 H2) as [L2 U2].
  destruct (Z.eq_dec (fexp (binade q1)) (fexp (binade q2))) as [E|NE].
  - unfold round_val. rewrite E.
    apply Qmult_le_compat_r; [|apply Qlt_le_weak, pow2_pos].
    rewrite <- Zle_Qle. apply rne_mono. now apply div_pow2_le.
  - assert (Hu : (fexp (binade q1) < fexp (binade q2))%Z)
      by (unfold fexp in *; lia).
    apply Qle_trans with (pow2 (binade q2)).
    + apply round_val_upper; [exact H1 | | unfold fexp in *; lia].
      apply Qlt_le_weak. eapply Qlt_le_trans; [exact U1|].
      apply pow2_le. unfold fexp in *. lia.
    + apply round_val_lower; [exact H2 | exact L2 | unfold fexp in *; lia].
Qed.

(** *** Rounding is monotone *)

Lemma round_pos_false q :
  round_pos false q =
  if Qle_bool (pow2 1024) (round_val q) then Inf false
  else Fin (Qred (round_val q)).
Proof. reflexivity. Qed.

Lemma round_pos_true q :
  round_pos true q =
  if Qle_bool (pow2 1024) (round_val q) then Inf true
  else Fin (Qred (- round_val q)).
Proof. reflexivity. Qed.

Lemma round_mono q1 q2 : q1 <= q2 -> fle (round q1) (round q2) = true.
Proof.
  intros H. unfold round.
  destruct (Qcompare_spec q1 0) as [Z1|N1|P1];
    destruct (Qcompare_spec q2 0) as [Z2|N2|P2]; try (exfalso; lra).
  - reflexivity.
  - rewrite round_pos_false.
    pose proof (round_val_nonneg q2 P2) as V.
    destruct (Qle_bool _ _); cbn [fle negb orb andb]; [reflexivity|].
    apply Qle_bool_iff. now rewrite Qred_correct.
  - rewrite round_pos_true.
    assert (P : 0 < - q1) by lra.
    pose proof (round_val_nonneg _ P) as V.
    destruct (Qle_bool _ _); cbn [fle negb orb andb]; [reflexivity|].
    apply Qle_bool_iff. rewrite Qred_correct. lra.
  - rewrite !round_pos_true.
    assert (P2 : 0 < - q2) by lra.
    assert (M : round_val (- q2) <= round_val (- q1))
      by (apply round_val_mono; [exact P2 | lra]).
    destruct (Qle_bool (pow2 1024) (round_val (- q1))) eqn:E1;
      destruct (Qle_bool (pow2 1024) (round_val (- q2))) eqn:E2;
      cbn [fle negb orb andb]; try reflexivity.
    + apply Qle_bool_iff in E2.
      assert (C : Qle_bool (pow2 1024) (round_val (- q1)) = true)
        by (apply Qle_bool_iff; lra).
      congruence.
    + apply Qle_bool_iff. rewrite !Qred_correct. lra.
  - rewrite round_pos_true, round_pos_false.
    assert (P : 0 < - q1) by lra.
    pose proof (round_val_nonneg _ P) as V1.
    pose proof (round_val_nonneg _ P2) as V2.
    destruct (Qle_bool (pow2 1024) (round_val (- q1)));
      destruct (Qle_bool (pow2 1024) (round_val q2)); cbn [fle negb orb andb]; try reflexivity.
    apply Qle_bool_iff. rewrite !Qred_correct. lra.
  - rewrite !round_pos_false.
    assert (M : round_val q1 <= round_val q2)
      by (apply round_val_mono; assumption).
    destruct (Qle_bool (pow2 1024) (round_val q1)) eqn:E1;
      destruct (Qle_bool (pow2 1024) (round_val q2)) eqn:E2;
      cbn [fle negb orb andb]; try reflexivity.
    + apply Qle_bool_iff in E1.
      assert (C : Qle_bool (pow2 1024) (round_val q2) = true)
        by (apply Qle_bool_iff; lra).
      congruence.
    + apply Qle_bool_iff. rewrite !Qred_correct. exact M.
Qed.

(** A rational between two rationals that round to finite doubles rounds
    to a finite double between them. *)
Lemma round_between lo hi q a b :
  lo <= q -> q <= hi -> round lo = Fin a -> round hi = Fin b ->
  exists x, round q = Fin x /\ a <= x /\ x <= b.
Proof.
  intros H1 H2 Ea Eb.
  pose proof (round_mono lo q H1) as M1.
  pose proof (round_mono q hi H2) as M2.
  rewrite Ea in M1. rewrite Eb in M2.
  destruct (round q) as [x|s|]; simpl in M1, M2.
  - exists x. apply Qle_bool_iff in M1, M2. auto.
  - destruct s; discriminate.
  - discriminate.
Qed.

(** *** Samples against the reference implementation *)

Example round_third : round (1 # 3) = of_spec (spec_div 1 3).
Proof. vm_compute. reflexivity. Qed.

Example round_threshold : lit (8 # 10) = of_spec (spec_div 8 10).
Proof. vm_compute. reflexivity. Qed.

Example round_negative : round (- 7 # 3) = of_spec (spec_div (- 7) 3).
Proof. vm_compute. reflexivity. Qed.

Example round_tie_to_even :
  of_int (2 ^ 53 + 1) = Ok (of_spec (spec_of_Z (2 ^ 53 + 1))) /\
  of_int (2 ^ 53 + 3) = Ok (of_spec (spec_of_Z (2 ^ 53 + 3))).
Proof. vm_compute. split; reflexivity. Qed.

Example product_rounded :
  fmul (lit (1 # 10)) (Fin 3) =
  of_spec (SpecFloat.SFmul 53 1024 (spec_div 1 10) (spec_of_Z 3)).
Proof. vm_compute. reflexivity. Qed.

Example product_overflows :
  fmul (Fin (inject_Z (2 ^ 1023))) (Fin 2) =
  of_spec (SpecFloat.SFmul 53 1024 (spec_of_Z (2 ^ 1023)) (spec_of_Z 2)).
Proof. vm_compute. reflexivity. Qed.

Example difference_rounded :
  fsub (lit (1 # 10)) (Fin 10) =
  of_spec (SpecFloat.SFsub 53 1024 (spec_div 1 10) (spec_of_Z 10)).
Proof. vm_compute. reflexivity. Qed.

Example subnormal_rounded :
  fdiv (of_spec (spec_div 3 (2 ^ 1000))) (Fin (inject_Z (2 ^ 75))) =
  Ok (of_spec (SpecFloat.SFdiv 53 1024 (spec_div 3 (2 ^ 1000))
                 (spec_of_Z (2 ^ 75)))) /\
  fdiv (of_spec (spec_div 3 (2 ^ 1000))) (Fin (inject_Z (2 ^ 76))) =
  Ok (of_spec (SpecFloat.SFdiv 53 1024 (spec_div 3 (2 ^ 1000))
                 (spec_of_Z (2 ^ 76)))).
Proof. vm_compute. split; reflexivity. Qed.

End FloatFacts.

(** ** The duplicate guard *)

Section DuplicateGuard.
Local Open Scope Q_scope.

(** The fraction [d / n] against a rational constant, in integers. *)
Lemma ratio_ge (a : Z) (b : positive) (d n : Z) :
  (0 < n)%Z ->
  (a # b <= inject_Z d / inject_Z n <-> (a * n <= d * Z.pos b)%Z).
Proof.
  intros Hn.
  assert (Hq : 0 < inject_Z n).
  { change 0 with (inject_Z 0). now rewrite <- Zlt_Qlt. }
  split.
  - intros H.
    apply (Qmult_le_compat_r _ _ (inject_Z n)) in H; [|now apply Qlt_le_weak].
    unfold Qdiv in H.
    rewrite <- Qmult_assoc, (Qmult_comm (/ _)), Qmult_inv_r, Qmult_1_r in H
      by (intros E; rewrite E in Hq; discriminate).
    unfold Qle in H. simpl in H. lia.
  - intros H. apply Qle_shift_div_l; [exact Hq|].
    unfold Qle. simpl. lia.
Qed.

Lemma ratio_le (a : Z) (b : positive) (d n : Z) :
  (0 < n)%Z ->
  (inject_Z d / inject_Z n <= a # b <-> (d * Z.pos b <= a * n)%Z).
Proof.
  intros Hn.
  assert (Hq : 0 < inject_Z n).
  { change 0 with (inject_Z 0). now rewrite <- Zlt_Qlt. }
  split.
  - intros H.
    apply (Qmult_le_compat_r _ _ (inject_Z n)) in H; [|now apply Qlt_le_weak].
    unfold Qdiv in H.
    rewrite <- Qmult_assoc, (Qmult_comm (/ _)), Qmult_inv_r, Qmult_1_r in H
      by (intros E; rewrite E in Hq; discriminate).
    unfold Qle in H. simpl in H. lia.
  - intros H. apply Qle_shift_div_r; [exact Hq|].
    unfold Qle. simpl. lia.
Qed.

Lemma round_below_threshold : round below_threshold = Fin below_threshold.
Proof. vm_compute. reflexivity. Qed.

Lemma threshold_value :
  lit (8 # 10) = Fin (3602879701896397 # 4503599627370496).
Proof. vm_compute. reflexivity. Qed.

(** The rounded ratio of the duplicates is compared exactly when the
    sample has fewer than [2 ^ 51] items. *)
Lemma duplicate_rate_test (d n : Z) :
  (0 <= d <= n)%Z -> (0 < n < 2 ^ 51)%Z ->
  exists rate,
    int_truediv d n = Ok rate /\
    fge rate (lit (8 # 10)) = (4 * n <=? 5 * d)%Z.
Proof.
  intros Hd Hn.
  assert (H0 : 0 <= inject_Z d / inject_Z n).
  { change 0 with (0 # 1). apply ratio_ge; lia. }
  assert (H1 : inject_Z d / inject_Z n <= 1).
  { change 1 with (1 # 1). apply ratio_le; lia. }
  destruct (round_between 0 1 _ 0 1 H0 H1 eq_refl eq_refl) as (x & Ex & _).
  exists (Fin x). split.
  - unfold int_truediv. destruct (Z.eqb_spec n 0) as [E|_]; [lia|].
    now rewrite Ex.
  - unfold fge. destruct (Z.leb_spec (4 * n) (5 * d)) as [G|G].
    + rewrite <- Ex. unfold lit. apply round_mono.
      apply ratio_ge; lia.
    + assert (B : inject_Z d / inject_Z n <= below_threshold).
      { unfold below_threshold. apply ratio_le; lia. }
      pose proof (round_mono _ _ B) as M.
      rewrite Ex, round_below_threshold in M. cbn [fle] in M.
      apply Qle_bool_iff in M.
      rewrite threshold_value. cbn [fle].
      destruct (Qle_bool _ x) eqn:E; [|reflexivity].
      apply Qle_bool_iff in E. exfalso.
      assert (C : 3602879701896397 # 4503599627370496 <= below_threshold)
        by (eapply Qle_trans; eassumption).
      vm_compute in C. now apply C.
Qed.

End DuplicateGuard.

(** C2. With the settings of the constructor (a first check at 20 videos,
    a threshold of 0.8) the guard answers [True] for fewer than 20 videos.
    For 20 videos or more (and fewer than [2 ^ 51], so that the rounded
    ratio still tells a ratio below 0.8 from 0.8) it answers [False] if
    and only if the fraction of the videos whose identity is in the corpus
    is at least 0.8: 16 duplicates among 20 give [False], 15 among 20 give
    [True]. *)
Theorem should_continue_session_spec :
  forall (self : SmartHarvester) (scraped_videos : list VideoData),
    early_check_count self = 20 ->
    duplicate_threshold self = lit (8 # 10) ->
    let n := Z.of_nat (List.length scraped_videos) in
    let duplicates := duplicates_of self scraped_videos in
    (n < 20 -> _should_continue_session self scraped_videos = Ok true) /\
    (20 <= n < 2 ^ 51 ->
     exists answer,
       _should_continue_session self scraped_videos = Ok answer /\
       (answer = false <->
        (8 # 10 <= inject_Z duplicates / inject_Z n)%Q)) /\
    (n = 20 -> duplicates = 16 ->
     _should_continue_session self scraped_videos = Ok false) /\
    (n = 20 -> duplicates = 15 ->
     _should_continue_session self scraped_videos = Ok true).
Proof.
  intros self vs Hc Ht n d.
  assert (Hd : 0 <= d <= n).
  { unfold d, n, duplicates_of. split; [lia|].
    apply inj_le, filter_length_le. }
  assert (G : 20 <= n < 2 ^ 51 ->
              _should_continue_session self vs = Ok (negb (4 * n <=? 5 * d))).
  { intros Hn. unfold _should_continue_session. rewrite Hc, Ht.
    fold n. destruct (Z.ltb_spec n 20) as [L|_]; [lia|].
    fold (duplicates_of self vs). fold d.
    destruct (duplicate_rate_test d n Hd) as (rate & E1 & E2); [lia|].
    rewrite E1. cbn [bind]. rewrite E2. now destruct (4 * n <=? 5 * d). }
  split; [|split; [|split]].
  - intros L. unfold _should_continue_session. rewrite Hc. fold n.
    destruct (Z.ltb_spec n 20) as [_|L']; [reflexivity | lia].
  - intros Hn. exists (negb (4 * n <=? 5 * d)). split; [now apply G|].
    rewrite (ratio_ge 8 10 d n) by lia.
    change (Z.pos 10) with 10.
    destruct (Z.leb_spec (4 * n) (5 * d)) as [L|L]; cbn [negb].
    + split; [lia | reflexivity].
    + split; [discriminate | lia].
  - intros En Ed. rewrite G by lia. now rewrite En, Ed.
  - intros En Ed. rewrite G by lia. now rewrite En, Ed.
Qed.

Lemma should_continue_session_spec_witness :
  _should_continue_session (harvester_with (videos_numbered 0 16))
    (videos_numbered 0 19) = Ok true /\
  _should_continue_session (harvester_with (videos_numbered 0 16))
    (videos_numbered 0 20) = Ok false /\
  _should_continue_session (harvester_with (videos_numbered 0 15))
    (videos_numbered 0 20) = Ok true.
Proof.
  pose proof (should_continue_session_spec
                (harvester_with (videos_numbered 0 16))
                (videos_numbered 0 19) eq_refl eq_refl) as (H1 & _).
  pose proof (should_continue_session_spec
                (harvester_with (videos_numbered 0 16))
                (videos_numbered 0 20) eq_refl eq_refl) as (_ & _ & H2 & _).
  pose proof (should_continue_session_spec
                (harvester_with (videos_numbered 0 15))
                (videos_numbered 0 20) eq_refl eq_refl) as (_ & _ & _ & H3).
  split; [|split].
  - apply H1. vm_compute. reflexivity.
  - apply H2; vm_compute; reflexivity.
  - apply H3; vm_compute; reflexivity.
Defined.

(** ** The gap between sessions *)

Section SessionGap.

Lemma last_items_2 {A : Type} (pre : list A) (x y : A) :
  Py.last_items 2 (pre ++ [x; y]) = [x; y].
Proof.
  unfold Py.last_items. rewrite length_app. simpl.
  replace (List.length pre + 2 - 2)%nat with (List.length pre + 0)%nat by lia.
  rewrite skipn_app, Nat.add_0_r, skipn_all.
  replace (List.length pre - List.length pre)%nat with 0%nat by lia.
  reflexivity.
Qed.

Lemma two_last {A : Type} (l : list A) :
  (2 <= List.length l)%nat -> exists pre x y, l = pre ++ [x; y].
Proof.
  intros H.
  destruct (exists_last (l := l)) as (l1 & y & ->).
  { intros ->. simpl in H. lia. }
  destruct (exists_last (l := l1)) as (pre & x & ->).
  { intros ->. simpl in H. lia. }
  exists pre, x, y. now rewrite <- app_assoc.
Qed.

Lemma sub_ten rate : PyNum.sub rate (PInt 10) = Ok (minus_ten rate).
Proof. destruct rate; reflexivity. Qed.

Lemma gap_few_sessions self base_draw hint :
  (List.length (sessions self) < 2)%nat ->
  _calculate_session_gap self base_draw hint = clamped_gap self base_draw hint.
Proof.
  intros H. unfold _calculate_session_gap, clamped_gap.
  destruct (Z.leb_spec 2 (Z.of_nat (List.length (sessions self)))); [lia|].
  destruct (Py.randint _ _ _); reflexivity.
Qed.

Lemma gap_two_sessions self base_draw hint pre s0 s1 :
  sessions self = pre ++ [s0; s1] ->
  _calculate_session_gap self base_draw hint =
  clamped_gap self base_draw
    (fmul (if degradation s0 s1 then fmul hint (lit 3) else hint)
          (lit (5 # 2))).
Proof.
  intros E. unfold _calculate_session_gap, clamped_gap.
  rewrite E, last_items_2.
  assert (L : (2 <=? Z.of_nat (List.length (pre ++ [s0; s1]))) = true).
  { apply Z.leb_le. rewrite length_app. simpl. lia. }
  rewrite L. cbn [map]. rewrite sub_ten. cbn [bind].
  fold (degradation s0 s1).
  destruct (Py.randint _ _ _); [|reflexivity]. cbn [bind].
  now destruct (degradation s0 s1).
Qed.

Lemma randint_range lo hi draw base :
  Py.randint lo hi draw = Ok base -> base = draw /\ lo <= base <= hi.
Proof.
  unfold Py.randint.
  destruct (Z.leb_spec lo draw) as [L1|L1],
           (Z.leb_spec draw hi) as [L2|L2]; simpl;
    intros E; inversion E; subst; lia.
Qed.

(** C3. The gap is the base value, drawn from the window of the floor and
    the ceiling, times the product of the multipliers, truncated to whole
    seconds and then clamped to 30..300.  With fewer than two sessions the
    product is the hint alone.  With two sessions or more the hint is
    multiplied by 3.0 when the success rate of the last session is more
    than 10 points below the one before it, and then by 2.5 in any case.
    The products are products of doubles, in this order. *)
Theorem calculate_session_gap_spec :
  forall (self : SmartHarvester) (base_draw : Z) (hint : float64),
    (forall base,
        Py.randint (session_gap_min self) (session_gap_max self) base_draw =
        Ok base ->
        session_gap_min self <= base <= session_gap_max self) /\
    (forall multiplier base,
        Py.randint (session_gap_min self) (session_gap_max self) base_draw =
        Ok base ->
        clamped_gap self base_draw multiplier =
        (base_float <- of_int base ;;
         final_gap <- to_int (fmul base_float multiplier) ;;
         Ok (Z.min (Z.max final_gap 30) 300))) /\
    ((List.length (sessions self) < 2)%nat ->
     _calculate_session_gap self base_draw hint =
     clamped_gap self base_draw hint) /\
    (forall pre s0 s1,
        sessions self = pre ++ [s0; s1] ->
        degradation s0 s1 = true ->
        _calculate_session_gap self base_draw hint =
        clamped_gap self base_draw (fmul (fmul hint (lit 3)) (lit (5 # 2)))) /\
    (forall pre s0 s1,
        sessions self = pre ++ [s0; s1] ->
        degradation s0 s1 = false ->
        _calculate_session_gap self base_draw hint =
        clamped_gap self base_draw (fmul hint (lit (5 # 2)))).
Proof.
  intros self base_draw hint. repeat split.
  - now apply randint_range in H.
  - now apply randint_range in H.
  - intros multiplier base H. unfold clamped_gap. now rewrite H.
  - apply gap_few_sessions.
  - intros pre s0 s1 E D. rewrite (gap_two_sessions _ _ _ pre s0 s1 E).
    now rewrite D.
  - intros pre s0 s1 E D. rewrite (gap_two_sessions _ _ _ pre s0 s1 E).
    now rewrite D.
Qed.

End SessionGap.

Lemma calculate_session_gap_spec_witness :
  _calculate_session_gap (harvester_with_rates []) 31 (lit 1) = Ok 31 /\
  _calculate_session_gap
    (harvester_with_rates [PFloat (Fin 100); PFloat (Fin 80)]) 40 (lit 1) =
  Ok 300 /\
  _calculate_session_gap
    (harvester_with_rates [PFloat (Fin 100); PFloat (Fin 95)]) 40 (lit 1) =
  Ok 100.
Proof.
  split; [|split].
  - destruct (calculate_session_gap_spec (harvester_with_rates []) 31 (lit 1))
      as (_ & _ & H & _).
    rewrite H by (simpl; lia). vm_compute. reflexivity.
  - destruct (calculate_session_gap_spec
                (harvester_with_rates [PFloat (Fin 100); PFloat (Fin 80)])
                40 (lit 1)) as (_ & _ & _ & H & _).
    rewrite (H [] (session_with_rate (PFloat (Fin 100)))
               (session_with_rate (PFloat (Fin 80))) eq_refl eq_refl).
    vm_compute. reflexivity.
  - destruct (calculate_session_gap_spec
                (harvester_with_rates [PFloat (Fin 100); PFloat (Fin 95)])
                40 (lit 1)) as (_ & _ & _ & _ & H).
    rewrite (H [] (session_with_rate (PFloat (Fin 100)))
               (session_with_rate (PFloat (Fin 95))) eq_refl eq_refl).
    vm_compute. reflexivity.
Defined.

(** ** Bounds and monotonicity of the gap *)

Section GapBounds.
Local Open Scope Q_scope.

Lemma fmul_Fin_inv x y z :
  fmul x y = Fin z -> exists a b, x = Fin a /\ y = Fin b /\ round (a * b) = Fin z.
Proof.
  destruct x as [a|s|], y as [b|t|]; simpl; intros H; try discriminate.
  - now exists a, b.
  - destruct (is_zero a); discriminate.
  - destruct (is_zero b); discriminate.
Qed.

Lemma round_Fin_mono q1 q2 x1 x2 :
  q1 <= q2 -> round q1 = Fin x1 -> round q2 = Fin x2 -> x1 <= x2.
Proof.
  intros H E1 E2. pose proof (round_mono q1 q2 H) as M.
  rewrite E1, E2 in M. now apply Qle_bool_iff in M.
Qed.

Lemma round_zero : round 0 = Fin 0.
Proof. reflexivity. Qed.

(** *** Truncation *)

Lemma Qtrunc_nonneg q : 0 <= q -> Qtrunc q = Qfloor q.
Proof.
  destruct q as [a b]. unfold Qle, Qtrunc, Qfloor. simpl. intros H.
  apply Z.quot_div_nonneg; lia.
Qed.

Lemma Qtrunc_neg q : q <= 0 -> Qtrunc q = Qceiling q.
Proof.
  destruct q as [a b]. unfold Qle, Qtrunc, Qceiling, Qfloor. simpl. intros H.
  replace a with (- - a)%Z at 1 by lia.
  rewrite Z.quot_opp_l by lia. f_equal.
  apply Z.quot_div_nonneg; lia.
Qed.

Lemma Qtrunc_mono x y : x <= y -> (Qtrunc x <= Qtrunc y)%Z.
Proof.
  intros H.
  destruct (Qlt_le_dec x 0) as [X|X], (Qlt_le_dec y 0) as [Y|Y].
  - rewrite !Qtrunc_neg by lra. now apply Qceiling_resp_le.
  - rewrite (Qtrunc_neg x), (Qtrunc_nonneg y) by lra.
    apply Z.le_trans with 0%Z.
    + change 0%Z with (Qceiling 0). apply Qceiling_resp_le. lra.
    + change 0%Z with (Qfloor 0). now apply Qfloor_resp_le.
  - exfalso. lra.
  - rewrite !Qtrunc_nonneg by lra. now apply Qfloor_resp_le.
Qed.

Lemma Qtrunc_nonpos q : q <= 0 -> (Qtrunc q <= 0)%Z.
Proof.
  intros H. change 0%Z with (Qtrunc 0). now apply Qtrunc_mono.
Qed.

(** *** The product of the multipliers *)

Lemma gap_scaled self base_draw hint :
  _calculate_session_gap self base_draw hint =
  clamped_gap self base_draw (scaled self hint).
Proof.
  unfold scaled.
  destruct (le_lt_dec 2 (List.length (sessions self))) as [L|L].
  - destruct (two_last _ L) as (pre & s0 & s1 & E).
    rewrite (gap_two_sessions _ _ _ pre s0 s1 E).
    rewrite E, rev_app_distr. reflexivity.
  - rewrite gap_few_sessions by exact L.
    destruct (sessions self) as [|a [|b l]]; simpl in *; try reflexivity; lia.
Qed.

Lemma lit_3 : lit 3 = Fin 3.
Proof. reflexivity. Qed.

Lemma lit_5_2 : lit (5 # 2) = Fin (5 # 2).
Proof. reflexivity. Qed.

(** A finite scaled hint comes from a finite hint, and the scaling is
    monotone. *)
Lemma scaled_Fin_inv self hint m :
  scaled self hint = Fin m -> exists h, hint = Fin h.
Proof.
  unfold scaled. destruct (rev (sessions self)) as [|s1 [|s0 l]].
  - intros ->. now exists m.
  - intros ->. now exists m.
  - intros H. apply fmul_Fin_inv in H. destruct H as (a & b & Ha & _ & _).
    destruct (degradation s0 s1).
    + apply fmul_Fin_inv in Ha. destruct Ha as (h & _ & -> & _). now exists h.
    + now exists a.
Qed.

Lemma scaled_mono self h1 h2 m1 m2 :
  h1 <= h2 ->
  scaled self (Fin h1) = Fin m1 -> scaled self (Fin h2) = Fin m2 ->
  m1 <= m2.
Proof.
  intros H. unfold scaled. destruct (rev (sessions self)) as [|s1 [|s0 l]].
  - intros E1 E2. injection E1 as <-. injection E2 as <-. exact H.
  - intros E1 E2. injection E1 as <-. injection E2 as <-. exact H.
  - rewrite lit_3, lit_5_2. destruct (degradation s0 s1).
    + intros E1 E2.
      apply fmul_Fin_inv in E1. destruct E1 as (a1 & b1 & A1 & B1 & R1).
      apply fmul_Fin_inv in E2. destruct E2 as (a2 & b2 & A2 & B2 & R2).
      injection B1 as <-. injection B2 as <-.
      cbn [fmul] in A1, A2.
      assert (A : a1 <= a2).
      { apply (round_Fin_mono (h1 * 3) (h2 * 3)); [lra | assumption..]. }
      apply (round_Fin_mono (a1 * (5 # 2)) (a2 * (5 # 2))); [lra | assumption..].
    + cbn [fmul]. intros E1 E2.
      apply (round_Fin_mono (h1 * (5 # 2)) (h2 * (5 # 2))); [lra | assumption..].
Qed.

Lemma scaled_nonneg self h m :
  0 <= h -> scaled self (Fin h) = Fin m -> 0 <= m.
Proof.
  intros H E.
  assert (E0 : scaled self (Fin 0) = Fin 0).
  { unfold scaled. destruct (rev (sessions self)) as [|s1 [|s0 l]];
      try reflexivity. now destruct (degradation s0 s1). }
  exact (scaled_mono self 0 h 0 m H E0 E).
Qed.

End GapBounds.

Section GapTheorem.
Local Open Scope Q_scope.

Lemma round_not_NaN q : round q <> NaN.
Proof.
  unfold round, round_pos.
  destruct (q ?= 0); try destruct (Qle_bool _ _); discriminate.
Qed.

Lemma of_int_Ok n f : of_int n = Ok f -> exists b, f = Fin b /\ round (inject_Z n) = Fin b.
Proof.
  unfold of_int. pose proof (round_not_NaN (inject_Z n)) as N.
  destruct (round (inject_Z n)) as [b|s|]; intros H; inversion H; subst.
  - now exists b.
  - contradiction.
Qed.

Lemma clamped_gap_inv self base_draw multiplier g :
  clamped_gap self base_draw multiplier = Ok g ->
  exists b m z,
    round (inject_Z base_draw) = Fin b /\ multiplier = Fin m /\
    round (b * m) = Fin z /\
    g = Z.min (Z.max (Qtrunc z) 30) 300.
Proof.
  unfold clamped_gap. intros H.
  destruct (Py.randint _ _ _) as [base|e] eqn:R; [|discriminate].
  apply randint_range in R. destruct R as [-> _]. cbn [bind] in H.
  destruct (of_int base_draw) as [f|e] eqn:F; [|discriminate].
  apply of_int_Ok in F. destruct F as (b & -> & Rb). cbn [bind] in H.
  destruct (fmul (Fin b) multiplier) as [z|s|] eqn:M; try discriminate.
  cbn [to_int bind] in H. injection H as <-.
  apply fmul_Fin_inv in M. destruct M as (b' & m & Eb & -> & Rz).
  injection Eb as <-. now exists b, m, z.
Qed.

Lemma gap_in_range self base_draw hint g :
  _calculate_session_gap self base_draw hint = Ok g -> (30 <= g <= 300)%Z.
Proof.
  rewrite gap_scaled. intros H. apply clamped_gap_inv in H.
  destruct H as (_ & _ & z & _ & _ & _ & ->). lia.
Qed.

Lemma gap_monotone self base_draw h1 h2 g1 g2 :
  (0 <= base_draw)%Z \/ fle (Fin 0) h1 = true ->
  fle h1 h2 = true ->
  _calculate_session_gap self base_draw h1 = Ok g1 ->
  _calculate_session_gap self base_draw h2 = Ok g2 ->
  (g1 <= g2)%Z.
Proof.
  rewrite !gap_scaled. intros Hsign Hle G1 G2.
  apply clamped_gap_inv in G1. destruct G1 as (b & m1 & z1 & Rb & S1 & R1 & ->).
  apply clamped_gap_inv in G2. destruct G2 as (b' & m2 & z2 & Rb' & S2 & R2 & ->).
  rewrite Rb in Rb'. injection Rb' as <-.
  destruct (scaled_Fin_inv _ _ _ S1) as (q1 & ->).
  destruct (scaled_Fin_inv _ _ _ S2) as (q2 & ->).
  cbn [fle] in Hle. apply Qle_bool_iff in Hle.
  pose proof (scaled_mono self q1 q2 m1 m2 Hle S1 S2) as Hm.
  destruct (Z_le_gt_dec 0 base_draw) as [Hb|Hb].
  - assert (B : 0 <= b).
    { apply (round_Fin_mono 0 (inject_Z base_draw)); [|reflexivity|exact Rb].
      change 0 with (inject_Z 0). now rewrite <- Zle_Qle. }
    assert (P : b * m1 <= b * m2) by nra.
    pose proof (round_Fin_mono _ _ _ _ P R1 R2) as Z12.
    pose proof (Qtrunc_mono _ _ Z12). lia.
  - destruct Hsign as [Hs|Hs]; [lia|].
    cbn [fle] in Hs. apply Qle_bool_iff in Hs.
    assert (B : b <= 0).
    { apply (round_Fin_mono (inject_Z base_draw) 0); [|exact Rb|reflexivity].
      change 0 with (inject_Z 0). rewrite <- Zle_Qle. lia. }
    pose proof (scaled_nonneg self q1 m1 Hs S1) as M1.
    assert (M2 : 0 <= m2) by lra.
    assert (P1 : b * m1 <= 0) by nra.
    assert (P2 : b * m2 <= 0) by nra.
    pose proof (round_Fin_mono _ _ _ _ P1 R1 round_zero) as Z1.
    pose proof (round_Fin_mono _ _ _ _ P2 R2 round_zero) as Z2.
    pose proof (Qtrunc_nonpos _ Z1). pose proof (Qtrunc_nonpos _ Z2). lia.
Qed.

(** *** The gap is defined on bounded inputs *)

Lemma round_symmetric_between K q :
  round K = Fin K -> round (- K) = Fin (- K) ->
  - K <= q -> q <= K ->
  exists x, round q = Fin x /\ - K <= x /\ x <= K.
Proof.
  intros E1 E2 L U. exact (round_between (- K) K q (- K) K L U E2 E1).
Qed.

Lemma scaled_defined self h :
  - hint_bound <= h -> h <= hint_bound ->
  exists m, scaled self (Fin h) = Fin m /\
            - scaled_bound <= m /\ m <= scaled_bound.
Proof.
  intros L U.
  assert (HB : hint_bound <= scaled_bound) by (vm_compute; discriminate).
  unfold scaled. destruct (rev (sessions self)) as [|s1 [|s0 l]].
  - exists h. split; [reflexivity | lra].
  - exists h. split; [reflexivity | lra].
  - rewrite lit_3, lit_5_2. destruct (degradation s0 s1); cbn [fmul].
    + set (K := inject_Z (3 * 2 ^ 900)).
      assert (K3 : K == 3 * hint_bound) by (vm_compute; reflexivity).
      destruct (round_symmetric_between K (h * 3)) as (a & -> & La & Ua);
        [vm_compute; reflexivity | vm_compute; reflexivity | lra | lra |].
      assert (S3 : scaled_bound == (5 # 2) * K) by (vm_compute; reflexivity).
      destruct (round_symmetric_between scaled_bound (a * (5 # 2)))
        as (m & Em & Lm & Um);
        [vm_compute; reflexivity | vm_compute; reflexivity | lra | lra |].
      exists m. auto.
    + set (K := inject_Z (5 * 2 ^ 899)).
      assert (K3 : K == (5 # 2) * hint_bound) by (vm_compute; reflexivity).
      assert (KS : K <= scaled_bound) by (vm_compute; discriminate).
      destruct (round_symmetric_between K (h * (5 # 2))) as (m & Em & Lm & Um);
        [vm_compute; reflexivity | vm_compute; reflexivity | lra | lra |].
      exists m. split; [exact Em | lra].
Qed.

Lemma product_bounded b m :
  - base_bound <= b -> b <= base_bound ->
  - scaled_bound <= m -> m <= scaled_bound ->
  - product_bound <= b * m /\ b * m <= product_bound.
Proof.
  intros Lb Ub Lm Um.
  assert (P : product_bound == base_bound * scaled_bound)
    by (vm_compute; reflexivity).
  assert (B0 : 0 <= base_bound) by (vm_compute; discriminate).
  assert (S0 : 0 <= scaled_bound) by (vm_compute; discriminate).
  rewrite P. split; nra.
Qed.

Lemma gap_defined self base_draw h :
  (session_gap_min self <= base_draw <= session_gap_max self)%Z ->
  (- 2 ^ 63 <= base_draw <= 2 ^ 63)%Z ->
  - hint_bound <= h -> h <= hint_bound ->
  exists g, _calculate_session_gap self base_draw (Fin h) = Ok g.
Proof.
  intros Hw Hb Lh Uh. rewrite gap_scaled.
  destruct (scaled_defined self h Lh Uh) as (m & -> & Lm & Um).
  unfold clamped_gap, Py.randint.
  destruct (Z.leb_spec (session_gap_min self) base_draw); [|lia].
  destruct (Z.leb_spec base_draw (session_gap_max self)); [|lia].
  cbn [andb bind].
  destruct (round_symmetric_between base_bound (inject_Z base_draw))
    as (b & Eb & Lb & Ub);
    [vm_compute; reflexivity | vm_compute; reflexivity | | |].
  { unfold base_bound. rewrite <- inject_Z_opp, <- Zle_Qle. lia. }
  { unfold base_bound. rewrite <- Zle_Qle. lia. }
  unfold of_int. rewrite Eb. cbn [bind fmul].
  destruct (product_bounded b m Lb Ub Lm Um) as [Lp Up].
  destruct (round_symmetric_between product_bound (b * m))
    as (z & -> & _ & _);
    [vm_compute; reflexivity | vm_compute; reflexivity | exact Lp | exact Up |].
  cbn [to_int bind]. eexists. reflexivity.
Qed.

End GapTheorem.

(** X16. The range and the order of the gaps.  Whenever the gap is
    computed its value lies in 30..300.  It is computed for every hint
    of magnitude at most [2 ^ 900] and every base draw of the window of
    magnitude at most [2 ^ 63].  For a fixed history and base draw, the
    value does not decrease when the hint grows, as long as the base
    draw or the smaller hint is not negative and the gap is computed for
    both hints. *)
Theorem session_gap_range_and_monotone :
  forall (self : SmartHarvester) (base_draw : Z),
    (forall hint g,
        _calculate_session_gap self base_draw hint = Ok g -> 30 <= g <= 300) /\
    (forall h,
        session_gap_min self <= base_draw <= session_gap_max self ->
        - 2 ^ 63 <= base_draw <= 2 ^ 63 ->
        (- hint_bound <= h)%Q -> (h <= hint_bound)%Q ->
        exists g, _calculate_session_gap self base_draw (Fin h) = Ok g /\
                  30 <= g <= 300) /\
    (forall h1 h2 g1 g2,
        0 <= base_draw \/ fle (Fin 0) h1 = true ->
        fle h1 h2 = true ->
        _calculate_session_gap self base_draw h1 = Ok g1 ->
        _calculate_session_gap self base_draw h2 = Ok g2 ->
        g1 <= g2).
Proof.
  intros self base_draw. split; [|split].
  - intros hint g. apply gap_in_range.
  - intros h Hw Hb L U.
    destruct (gap_defined self base_draw h Hw Hb L U) as (g & E).
    exists g. split; [exact E | exact (gap_in_range _ _ _ _ E)].
  - intros h1 h2 g1 g2. apply gap_monotone.
Qed.

Lemma session_gap_range_and_monotone_witness :
  let self := harvester_with_rates [] in
  _calculate_session_gap self 40 (Fin 1) = Ok 40 /\
  _calculate_session_gap self 40 (Fin (5 # 2)) = Ok 100 /\
  40 <= 100 /\
  (exists g, _calculate_session_gap self 40 (Fin (5 # 2)) = Ok g /\
             30 <= g <= 300).
Proof.
  intros self.
  assert (E1 : _calculate_session_gap self 40 (Fin 1) = Ok 40)
    by (vm_compute; reflexivity).
  assert (E2 : _calculate_session_gap self 40 (Fin (5 # 2)) = Ok 100)
    by (vm_compute; reflexivity).
  destruct (session_gap_range_and_monotone self 40) as (_ & D & M).
  split; [exact E1|]. split; [exact E2|]. split.
  - apply (M (Fin 1) (Fin (5 # 2)) 40 100);
      [left; lia | vm_compute; reflexivity | exact E1 | exact E2].
  - apply D; [simpl; lia | lia | vm_compute; discriminate
              | vm_compute; discriminate].
Defined.

(** With a window of negative seconds and negative hints the gap is not
    monotone: the condition on the signs cannot be dropped. *)
Example gap_decreases_for_negative_base_and_hint :
  let self := mkSmartHarvester [] [] HarvestStats_default (- 100) (- 100)
                (lit (8 # 10)) 20 in
  _calculate_session_gap self (- 100) (Fin (- 2)) = Ok 200 /\
  _calculate_session_gap self (- 100) (Fin (- 1)) = Ok 100.
Proof. vm_compute. split; reflexivity. Qed.

(** C4, where the code leaves the claim.  The comment of the code and
    the test of the gap give the range 30..300 for every gap, and the
    claim gives it for every base draw and every hint.  With the gap
    window of the command line set to the single value [10 ^ 400], the
    base draw is that value and its conversion to a double raises
    [OverflowError]: no gap is returned, and [main] ends with exit code 1
    after the first session. *)
Theorem session_gap_raises_on_overflow :
  (let self := mkSmartHarvester [] [] HarvestStats_default (10 ^ 400)
                 (10 ^ 400) (lit (8 # 10)) 20 in
   _calculate_session_gap self (10 ^ 400) (lit 1) =
     Raise (OverflowError "int too large to convert to float") /\
   ~ (exists g, _calculate_session_gap self (10 ^ 400) (lit 1) = Ok g /\
                30 <= g <= 300)) /\
  fst (main (10 ^ 400) (10 ^ 400) 300 NoFile
         [env_with_base (10 ^ 400) (videos_numbered 0 2);
          env_with_base (10 ^ 400) (videos_numbered 2 2)] sample_final) = 1.
Proof.
  split.
  - intros self.
    assert (E : _calculate_session_gap self (10 ^ 400) (lit 1) =
                Raise (OverflowError "int too large to convert to float"))
      by (vm_compute; reflexivity).
    split; [exact E|]. intros (g & G & _). rewrite E in G. discriminate G.
  - vm_compute. reflexivity.
Qed.

(** ** The stable sort *)

Section SortFacts.
Context {A : Type} (key : A -> Z).

Lemma insert_perm x l : Permutation (Py.insert key x l) (x :: l).
Proof.
  induction l as [|y l IH]; simpl.
  - apply Permutation_refl.
  - destruct (key x <=? key y).
    + apply Permutation_refl.
    + eapply Permutation_trans; [apply perm_skip, IH | apply perm_swap].
Qed.

Lemma sorted_perm l : Permutation (Py.sorted key l) l.
Proof.
  induction l as [|x l IH]; simpl.
  - apply Permutation_refl.
  - eapply Permutation_trans; [apply insert_perm | now apply perm_skip].
Qed.

Lemma sorted_length l : List.length (Py.sorted key l) = List.length l.
Proof. apply Permutation_length, sorted_perm. Qed.

Lemma insert_sorted x l :
  StronglySorted (key_le key) l -> StronglySorted (key_le key) (Py.insert key x l).
Proof.
  induction l as [|y l IH]; simpl; intros H.
  - constructor; [constructor | constructor].
  - inversion H as [|? ? Hl Hy]; subst.
    destruct (Z.leb_spec (key x) (key y)) as [L|L].
    + constructor; [exact H|]. constructor; [exact L|].
      eapply Forall_impl; [|exact Hy]. unfold key_le. intros z Hz. lia.
    + constructor; [now apply IH|].
      apply (Permutation_Forall (Permutation_sym (insert_perm x l))).
      constructor; [unfold key_le; lia | exact Hy].
Qed.

Lemma sorted_sorted l : StronglySorted (key_le key) (Py.sorted key l).
Proof.
  induction l as [|x l IH]; simpl; [constructor | now apply insert_sorted].
Qed.

(** Stability: items with the same key keep their order. *)
Lemma insert_stable k x l :
  filter (fun y => key y =? k) (Py.insert key x l) =
  filter (fun y => key y =? k) (x :: l).
Proof.
  induction l as [|y l IH]; simpl.
  - reflexivity.
  - destruct (Z.leb_spec (key x) (key y)) as [L|L]; [reflexivity|].
    simpl. rewrite IH. simpl.
    destruct (Z.eqb_spec (key y) k) as [Ey|Ny],
             (Z.eqb_spec (key x) k) as [Ex|Nx]; try reflexivity.
    lia.
Qed.

Lemma sorted_stable k l :
  filter (fun y => key y =? k) (Py.sorted key l) =
  filter (fun y => key y =? k) l.
Proof.
  induction l as [|x l IH]; simpl; [reflexivity|].
  rewrite insert_stable. simpl. now rewrite IH.
Qed.

(** Around any position of a sorted list: smaller keys before, larger
    keys after. *)
Lemma sorted_split l k x :
  nth_error (Py.sorted key l) k = Some x ->
  exists before after,
    Py.sorted key l = before ++ x :: after /\
    List.length before = k /\
    Forall (fun y => key y <= key x) before /\
    Forall (fun y => key x <= key y) after.
Proof.
  intros H. pose proof (sorted_sorted l) as S.
  destruct (nth_error_split _ _ H) as (before & after & E & L).
  exists before, after. rewrite E in S |- *.
  split; [reflexivity|]. split; [exact L|].
  clear E H L. induction before as [|b before IH]; simpl in S.
  - split; [constructor|]. now inversion S.
  - inversion S as [|? ? Hs Hb]; subst.
    destruct (IH Hs) as [I1 I2]. split; [|exact I2].
    constructor; [|exact I1].
    rewrite Forall_forall in Hb. apply Hb, in_elt.
Qed.

End SortFacts.

Lemma insert_map {A B : Type} (f : A -> B) (key : B -> Z) x l :
  Py.insert key (f x) (map f l) =
  map f (Py.insert (fun a => key (f a)) x l).
Proof.
  induction l as [|y l IH]; simpl; [reflexivity|].
  destruct (key (f x) <=? key (f y)); simpl; [reflexivity | now rewrite IH].
Qed.

Lemma sorted_map {A B : Type} (f : A -> B) (key : B -> Z) l :
  Py.sorted key (map f l) = map f (Py.sorted (fun a => key (f a)) l).
Proof.
  induction l as [|x l IH]; simpl; [reflexivity|].
  now rewrite IH, insert_map.
Qed.

(** ** The continuation planner *)

Section PlannerFacts.

Lemma fresh_ids_In ids : forall seen x,
  In x (seen ++ fresh_ids seen ids) <-> In x (seen ++ ids).
Proof.
  induction ids as [|i ids IH]; intros seen x; simpl.
  - tauto.
  - destruct (in_dec string_dec i seen) as [Hin|Hout].
    + rewrite IH, !in_app_iff. simpl.
      split; [tauto|]. intros [H|[<-|H]]; tauto.
    + specialize (IH (seen ++ [i]) x).
      rewrite <- app_assoc in IH. simpl in IH.
      rewrite IH, !in_app_iff. simpl. tauto.
Qed.

Lemma group_add_keys vs : forall groups,
  keys (fold_left group_add vs groups) =
  keys groups ++ fresh_ids (keys groups) (map date vs).
Proof.
  induction vs as [|v vs IH]; intros groups; cbn [fold_left map fresh_ids].
  - now rewrite app_nil_r.
  - rewrite IH.
    destruct (in_dec string_dec (date v) (keys groups)) as [I|N].
    + assert (E : keys (group_add groups v) = keys groups).
      { unfold group_add.
        destruct (get groups (date v)); now apply keys_set_old. }
      now rewrite E.
    + assert (E : keys (group_add groups v) = keys groups ++ [date v]).
      { unfold group_add. pose proof N as G. apply get_None_iff in G.
        rewrite G. now apply keys_set_new. }
      rewrite E, <- app_assoc. reflexivity.
Qed.

Lemma dated_filter self :
  filter (fun v => PyStr.truthy (date v) && negb (String.eqb (date v) ""))
    (values (all_videos self)) = dated self.
Proof.
  unfold dated. apply filter_ext. intros v.
  now destruct (date v).
Qed.

(** The keys of the groups are the buckets of the dated items. *)
Lemma date_groups_keys self key :
  In key (keys (fold_left group_add (dated self) [])) ->
  exists v, In v (dated self) /\ date v = key.
Proof.
  rewrite group_add_keys. cbn [keys map app]. intros H.
  apply (fresh_ids_In (map date (dated self)) [] key) in H.
  cbn [app] in H. apply in_map_iff in H. destruct H as (v & E & I).
  now exists v.
Qed.

Lemma map_result_Ok {A B : Type} (f : A -> result B) (g : A -> B) l :
  (forall x, In x l -> f x = Ok (g x)) ->
  Py.map_result f l = Ok (map g l).
Proof.
  induction l as [|x l IH]; intros H; cbn [Py.map_result map];
    [reflexivity|].
  rewrite (H x) by now left. cbn [bind].
  rewrite IH by (intros y Hy; apply H; now right). reflexivity.
Qed.

(** The first item whose image raises decides the error. *)
Lemma map_result_Raise {A B : Type} (f : A -> result B) l :
  (exists x, In x l /\ exists e, f x = Raise e) ->
  exists e, Py.map_result f l = Raise e.
Proof.
  induction l as [|x l IH]; intros (y & I & e & E); [contradiction|].
  cbn [Py.map_result]. destruct (f x) as [b|e'] eqn:F;
    [|now exists e'].
  cbn [bind]. destruct I as [->|I]; [congruence|].
  destruct IH as (e'' & ->); [now exists y; split; [|exists e]|].
  now exists e''.
Qed.

Lemma combine_map {A B : Type} (g : A -> B) (l : list A) :
  combine l (map g l) = map (fun x => (x, g x)) l.
Proof. induction l as [|x l IH]; simpl; [reflexivity | now rewrite IH]. Qed.

Lemma sorted_by_Ok {A : Type} (key : A -> result Z) (k : A -> Z) l :
  (forall x, In x l -> key x = Ok (k x)) ->
  Py.sorted_by key l = Ok (Py.sorted k l).
Proof.
  intros H. unfold Py.sorted_by. rewrite (map_result_Ok key k l H).
  cbn [bind]. f_equal. rewrite combine_map.
  rewrite (sorted_map (fun x => (x, k x)) snd). cbn [snd].
  rewrite map_map. cbn [fst]. apply map_id.
Qed.

Lemma sorted_by_Raise {A : Type} (key : A -> result Z) l :
  (exists x, In x l /\ exists e, key x = Raise e) ->
  exists e, Py.sorted_by key l = Raise e.
Proof.
  intros H. unfold Py.sorted_by.
  destruct (map_result_Raise key l H) as (e & ->). now exists e.
Qed.

Lemma has_priority_Ok bucket :
  has_priority bucket = true ->
  _parse_date_to_priority bucket = Ok (priority bucket).
Proof.
  unfold has_priority, priority.
  destruct (_parse_date_to_priority bucket); [reflexivity | discriminate].
Qed.

Lemma has_priority_Raise bucket :
  has_priority bucket = false ->
  exists e, _parse_date_to_priority bucket = Raise e.
Proof.
  unfold has_priority.
  destruct (_parse_date_to_priority bucket) as [p|e];
    [discriminate | now exists e].
Qed.

Lemma priorities_defined_In self v :
  priorities_defined self = true -> In v (dated self) ->
  _parse_date_to_priority (date v) = Ok (age_rank v).
Proof.
  unfold priorities_defined. intros H I.
  apply has_priority_Ok. exact (proj1 (forallb_forall _ _) H v I).
Qed.

Lemma priorities_undefined self :
  priorities_defined self = false ->
  exists v, In v (dated self) /\
            exists e, _parse_date_to_priority (date v) = Raise e.
Proof.
  unfold priorities_defined. intros H.
  destruct (forallb (fun v => has_priority (date v)) (dated self)) eqn:F;
    [discriminate|].
  assert (X : exists v, In v (dated self) /\ has_priority (date v) = false).
  { clear H. induction (dated self) as [|v l IH]; [discriminate|].
    cbn [forallb] in F. destruct (has_priority (date v)) eqn:P.
    - destruct (IH F) as (w & I & W). exists w. split; [now right | exact W].
    - exists v. split; [now left | exact P]. }
  destruct X as (v & I & P). exists v. split; [exact I|].
  now apply has_priority_Raise.
Qed.

(** The analysis of a corpus that is not empty, when every bucket has a
    priority. *)
Lemma analysis_defined self :
  all_videos self <> [] -> priorities_defined self = true ->
  let date_groups := fold_left group_add (dated self) [] in
  _analyze_collection_gaps self =
    Ok [("total_videos", AInt (len (all_videos self)));
        ("date_ranges", AInt (len date_groups));
        ("most_recent_dates",
         AStrList (firstn 3 (Py.sorted priority (keys date_groups))));
        ("largest_date_groups",
         AGroups (firstn 3
                    (Py.sorted_reverse
                       (fun x => Z.of_nat (List.length (snd x)))
                       (items date_groups))))].
Proof.
  intros Hne Hp. cbv zeta. unfold _analyze_collection_gaps.
  destruct (all_videos self) as [|entry rest] eqn:E; [contradiction|].
  rewrite <- E. rewrite dated_filter.
  rewrite (sorted_by_Ok _parse_date_to_priority priority); [reflexivity|].
  intros key Hk. destruct (date_groups_keys self key Hk) as (v & I & <-).
  exact (priorities_defined_In self v Hp I).
Qed.

(** The analysis raises when a bucket of the corpus has no priority. *)
Lemma analysis_undefined self :
  priorities_defined self = false ->
  exists e, _analyze_collection_gaps self = Raise e.
Proof.
  intros Hp. destruct (priorities_undefined self Hp) as (v & I & e & Ev).
  unfold _analyze_collection_gaps.
  destruct (all_videos self) as [|entry rest] eqn:E.
  { unfold dated in I. rewrite E in I. contradiction. }
  rewrite <- E. rewrite dated_filter.
  destruct (sorted_by_Raise _parse_date_to_priority
              (keys (fold_left group_add (dated self) []))) as (e' & ->);
    [|now exists e'].
  exists (date v). split; [|now exists e].
  rewrite group_add_keys. cbn [keys map app].
  apply (fresh_ids_In (map date (dated self)) [] (date v)).
  cbn [app]. now apply in_map.
Qed.

Lemma dated_nonempty self : dated self <> [] -> all_videos self <> [].
Proof. intros H E. apply H. unfold dated. now rewrite E. Qed.

Lemma analysis_Ok self :
  priorities_defined self = true ->
  exists analysis, _analyze_collection_gaps self = Ok analysis.
Proof.
  intros Hp. destruct (all_videos self) as [|entry rest] eqn:E.
  - unfold _analyze_collection_gaps. rewrite E. eexists. reflexivity.
  - eexists. apply analysis_defined; [rewrite E; discriminate | exact Hp].
Qed.

End PlannerFacts.

Section Planner.

Lemma plan_with_dated self session_num offset_draw :
  2 <= session_num -> dated self <> [] -> priorities_defined self = true ->
  exists anchor,
    nth_error (ranked self) (List.length (dated self) / 2) = Some anchor /\
    _calculate_advanced_continuation_point self session_num offset_draw =
    Ok (video_anchor_point session_num anchor).
Proof.
  intros Hn Hd Hp.
  set (k := (List.length (dated self) / 2)%nat).
  assert (Hlen : (0 < List.length (dated self))%nat).
  { destruct (dated self); [contradiction | simpl; lia]. }
  assert (Hk : (k < List.length (ranked self))%nat).
  { unfold ranked. rewrite sorted_length. unfold k.
    apply Nat.Div0.div_lt_upper_bound. lia. }
  destruct (nth_error (ranked self) k) as [anchor|] eqn:E;
    [|apply nth_error_None in E; lia].
  exists anchor. split; [reflexivity|].
  unfold _calculate_advanced_continuation_point.
  destruct (Z.eqb_spec session_num 0); [lia|].
  destruct (analysis_Ok self Hp) as (analysis & ->). cbn [bind].
  destruct (Z.eqb_spec session_num 1); [lia|].
  destruct (Z.leb_spec 2 session_num); [|lia].
  fold (dated self).
  set (pair := fun vid : VideoData => (vid, age_rank vid)).
  rewrite (map_result_Ok _ pair (dated self)).
  2:{ intros v I. rewrite (priorities_defined_In self v Hp I). reflexivity. }
  cbn [bind].
  assert (Es : Py.sorted snd (map pair (dated self)) = map pair (ranked self))
    by apply (sorted_map pair snd).
  assert (Ei : Z.to_nat (Z.min (Z.of_nat (List.length (map pair (ranked self))) / 2)
                               (Z.of_nat (List.length (map pair (ranked self))) - 1))
               = k).
  { rewrite length_map. unfold ranked. rewrite sorted_length.
    assert (Z.of_nat (List.length (dated self)) / 2 = Z.of_nat k).
    { unfold k. now rewrite Nat2Z.inj_div. }
    assert (Z.of_nat k <= Z.of_nat (List.length (dated self)) - 1).
    { unfold ranked in Hk. rewrite sorted_length in Hk. lia. }
    lia. }
  destruct (map pair (dated self)) as [|first pairs] eqn:P.
  { apply map_eq_nil in P. contradiction. }
  rewrite Es, Ei.
  rewrite (nth_error_nth _ _ first (map_nth_error pair _ _ E)).
  reflexivity.
Qed.

(** From the second session on the planner raises when a bucket of the
    corpus has no priority. *)
Lemma plan_undefined self session_num offset_draw :
  session_num <> 0 -> priorities_defined self = false ->
  exists e,
    _calculate_advanced_continuation_point self session_num offset_draw =
      Raise e.
Proof.
  intros Hn Hp. unfold _calculate_advanced_continuation_point.
  destruct (Z.eqb_spec session_num 0); [contradiction|].
  destruct (analysis_undefined self Hp) as (e & ->). now exists e.
Qed.

(** X18. From the third session on, when some item of the corpus has an
    age bucket and every bucket of the corpus has a priority, the plan is a
    video anchor with offset [min (session_num * 12, 50)].  The anchor is
    the item in the middle of the ranking of the dated items by age
    priority (position [len / 2] of [len] items, equal priorities in the
    order of the corpus): as many items as that position are ranked
    before it, none of them older, and none of the items ranked after it
    is more recent.  The target bucket is the bucket of the anchor and
    the age filter is on.  When some bucket has no priority, the planner
    raises. *)
Theorem continuation_video_anchor :
  forall (self : SmartHarvester) (session_num offset_draw : Z),
    2 <= session_num -> dated self <> [] ->
    (priorities_defined self = true ->
     exists anchor before after point,
       _calculate_advanced_continuation_point self session_num offset_draw =
         Ok point /\
       strategy point = "video_id_anchor" /\
       scroll_offset point = Z.min (session_num * 12) 50 /\
       anchor_video_id point = Some (video_id anchor) /\
       target_date_range point = Some (date anchor) /\
       date_filter_active point = true /\
       expected_scroll_depth point = scroll_offset point + 15 /\
       ranked self = before ++ anchor :: after /\
       List.length before = (List.length (dated self) / 2)%nat /\
       Forall (fun v => age_rank v <= age_rank anchor) before /\
       Forall (fun v => age_rank anchor <= age_rank v) after /\
       Permutation (ranked self) (dated self) /\
       (forall k, filter (fun v => age_rank v =? k) (ranked self) =
                  filter (fun v => age_rank v =? k) (dated self))) /\
    (priorities_defined self = false ->
     exists e,
       _calculate_advanced_continuation_point self session_num offset_draw =
         Raise e).
Proof.
  intros self n draw Hn Hd. split.
  - intros Hp.
    destruct (plan_with_dated self n draw Hn Hd Hp) as (anchor & E & P).
    destruct (sorted_split age_rank (dated self) _ anchor E)
      as (before & after & S & L & B & A).
    exists anchor, before, after, (video_anchor_point n anchor).
    repeat split; try assumption; try reflexivity.
    + apply sorted_perm.
    + intros k. apply sorted_stable.
  - intros Hp. apply plan_undefined; [lia | exact Hp].
Qed.

Lemma continuation_video_anchor_witness :
  let self := harvester_with [dated_video "a" "5 months ago";
                         dated_video "b" "3 years ago";
                         dated_video "c" "";
                         dated_video "d" "2 days ago";
                         dated_video "e" "1 hour ago"] in
  (exists point,
     _calculate_advanced_continuation_point self 5 0 = Ok point /\
     scroll_offset point = 50 /\
     anchor_video_id point = Some "a" /\
     target_date_range point = Some "5 months ago") /\
  map video_id (dated self) = ["a"; "b"; "d"; "e"] /\
  map video_id (ranked self) = ["e"; "d"; "a"; "b"].
Proof.
  intros self.
  destruct (continuation_video_anchor self 5 0) as (H & _).
  - lia.
  - vm_compute. discriminate.
  - destruct H as (anchor & before & after & point & E & _ & O & _);
      [vm_compute; reflexivity|].
    split; [|split; vm_compute; reflexivity].
    exists point. split; [exact E|].
    assert (E' : _calculate_advanced_continuation_point self 5 0 =
                 Ok (video_anchor_point 5 (dated_video "a" "5 months ago")))
      by (vm_compute; reflexivity).
    rewrite E' in E. injection E as <-. repeat split.
Defined.

(** C5, where the code leaves the claim.  The corpus holds one item,
    whose age bucket is 4301 nines and [ years ago].  The claim gives a
    video anchor on that item for the third session; the analysis of the
    corpus, and with it the planner, raises the [ValueError] of [int]. *)
Theorem plan_raises_on_over_limit_bucket :
  dated over_limit_harvester = [dated_video "a" over_limit_bucket] /\
  _analyze_collection_gaps over_limit_harvester =
    Raise (PyStr.int_limit_error 4301) /\
  _calculate_advanced_continuation_point over_limit_harvester 2 0 =
    Raise (PyStr.int_limit_error 4301) /\
  ~ (exists point,
       _calculate_advanced_continuation_point over_limit_harvester 2 0 =
         Ok point /\
       strategy point = "video_id_anchor").
Proof.
  assert (A : _analyze_collection_gaps over_limit_harvester =
              Raise (PyStr.int_limit_error 4301)).
  { vm_compute. reflexivity. }
  assert (P : _calculate_advanced_continuation_point over_limit_harvester 2 0 =
              Raise (PyStr.int_limit_error 4301)).
  { unfold _calculate_advanced_continuation_point.
    change (2 =? 0) with false. cbv iota. rewrite A. reflexivity. }
  split; [reflexivity|]. split; [exact A|]. split; [exact P|].
  intros (point & E & _). rewrite P in E. discriminate E.
Qed.

End Planner.

Section PlannerFallback.

Lemma filter_nil_weaker {A : Type} (p q : A -> bool) (l : list A) :
  (forall x, q x = true -> p x = true) ->
  filter p l = [] -> filter q l = [].
Proof.
  intros Hpq. induction l as [|x l IH]; simpl; [reflexivity|].
  destruct (p x) eqn:Px; [discriminate|]. intros H.
  destruct (q x) eqn:Qx; [|now apply IH].
  apply Hpq in Qx. congruence.
Qed.

Lemma analysis_empty self :
  all_videos self = [] ->
  _analyze_collection_gaps self =
  Ok [("strategy", AStr "fresh_start");
      ("reasoning", AStr "No existing videos")].
Proof. intros E. unfold _analyze_collection_gaps. now rewrite E. Qed.

Lemma analysis_without_dated self :
  all_videos self <> [] -> dated self = [] ->
  exists analysis,
    _analyze_collection_gaps self = Ok analysis /\
    PyDict.get analysis "most_recent_dates" = Some (AStrList []).
Proof.
  intros Hne Hd. unfold _analyze_collection_gaps.
  destruct (all_videos self) as [|entry rest] eqn:E; [contradiction|].
  rewrite <- E.
  rewrite (filter_nil_weaker (fun vid => PyStr.truthy (date vid))).
  - eexists. split; reflexivity.
  - intros x H. now apply andb_true_iff in H.
  - exact Hd.
Qed.

Lemma plan_without_dated self session_num offset_draw :
  2 <= session_num -> all_videos self <> [] -> dated self = [] ->
  _calculate_advanced_continuation_point self session_num offset_draw =
  Ok (deep_scroll_point session_num).
Proof.
  intros Hn Hne Hd. unfold _calculate_advanced_continuation_point.
  destruct (Z.eqb_spec session_num 0); [lia|].
  destruct (Z.eqb_spec session_num 1); [lia|].
  destruct (Z.leb_spec 2 session_num); [|lia].
  destruct (analysis_without_dated self Hne Hd) as (analysis & -> & G).
  cbn [bind]. fold (dated self). rewrite Hd. cbn [Py.map_result bind].
  unfold getitem. now rewrite G.
Qed.

Lemma plan_empty_corpus self session_num offset_draw :
  2 <= session_num -> all_videos self = [] ->
  _calculate_advanced_continuation_point self session_num offset_draw =
  Raise (KeyError "most_recent_dates").
Proof.
  intros Hn He. unfold _calculate_advanced_continuation_point.
  destruct (Z.eqb_spec session_num 0); [lia|].
  destruct (Z.eqb_spec session_num 1); [lia|].
  destruct (Z.leb_spec 2 session_num); [|lia].
  rewrite (analysis_empty self He), He. reflexivity.
Qed.

Lemma dated_priorities self : dated self = [] -> priorities_defined self = true.
Proof. intros H. unfold priorities_defined. now rewrite H. Qed.

(** The four outcomes of the planner from the third session on. *)
Lemma plan_cases self session_num offset_draw :
  2 <= session_num ->
  (exists anchor,
      priorities_defined self = true /\
      _calculate_advanced_continuation_point self session_num offset_draw =
      Ok (video_anchor_point session_num anchor)) \/
  _calculate_advanced_continuation_point self session_num offset_draw =
    Ok (deep_scroll_point session_num) \/
  (all_videos self = [] /\
   _calculate_advanced_continuation_point self session_num offset_draw =
     Raise (KeyError "most_recent_dates")) \/
  (priorities_defined self = false /\
   exists e,
     _calculate_advanced_continuation_point self session_num offset_draw =
       Raise e).
Proof.
  intros Hn.
  destruct (dated self) as [|v l] eqn:D.
  - destruct (all_videos self) as [|e l] eqn:E.
    + right. right. left. split; [reflexivity|]. now apply plan_empty_corpus.
    + right. left. apply plan_without_dated; [exact Hn | | exact D].
      rewrite E. discriminate.
  - destruct (priorities_defined self) eqn:Hp.
    + left. destruct (plan_with_dated self session_num offset_draw Hn)
        as (anchor & _ & P); [rewrite D; discriminate | exact Hp |].
      now exists anchor.
    + right. right. right. split; [reflexivity|].
      apply plan_undefined; [lia | exact Hp].
Qed.

(** C6, as the code has it.  From the third session on, when the corpus is
    not empty and none of its items has an age bucket, the plan is a deep
    scroll with offset [session_num * 10], without anchor and without
    target bucket, whatever the history of sessions holds.  From the third
    session on the planner never answers with a date anchor. *)
Theorem continuation_deep_scroll :
  forall (self : SmartHarvester) (session_num offset_draw : Z),
    2 <= session_num ->
    (all_videos self <> [] -> dated self = [] ->
     exists point,
       _calculate_advanced_continuation_point self session_num offset_draw =
         Ok point /\
       strategy point = "deep_scroll" /\
       scroll_offset point = session_num * 10 /\
       anchor_video_id point = None /\
       target_date_range point = None /\
       date_filter_active point = false /\
       expected_scroll_depth point = scroll_offset point + 25) /\
    (forall point,
        _calculate_advanced_continuation_point self session_num offset_draw =
          Ok point ->
        strategy point <> "date_anchor").
Proof.
  intros self n draw Hn. split.
  - intros Hne Hd. exists (deep_scroll_point n).
    rewrite (plan_without_dated self n draw Hn Hne Hd). now repeat split.
  - intros point E.
    destruct (plan_cases self n draw Hn)
      as [(anchor & _ & P)|[P|[[_ P]|(_ & e & P)]]];
      rewrite P in E; inversion E; discriminate.
Qed.

Lemma continuation_deep_scroll_witness :
  exists point,
    _calculate_advanced_continuation_point harvester_with_recorded_bucket 2 0 =
      Ok point /\
    strategy point = "deep_scroll" /\ scroll_offset point = 20.
Proof.
  destruct (continuation_deep_scroll harvester_with_recorded_bucket 2 0)
    as (H & _); [lia|].
  destruct H as (point & E & S & O & _).
  - discriminate.
  - reflexivity.
  - exists point. repeat split; assumption.
Defined.

(** No item of the corpus has an age bucket and the history has recorded
    one, yet the plan for the third session is a deep scroll, not a date
    anchor. *)
Lemma date_anchor_counterexample :
  let self := harvester_with_recorded_bucket in
  dated self = [] /\
  history_has_bucket self /\
  _calculate_advanced_continuation_point self 2 0 = Ok (deep_scroll_point 2) /\
  ~ (exists point,
        _calculate_advanced_continuation_point self 2 0 = Ok point /\
        strategy point = "date_anchor" /\
        scroll_offset point = 2 * 8 /\
        target_date_range point = Some "3 years ago").
Proof.
  intros self.
  assert (E : _calculate_advanced_continuation_point self 2 0 =
              Ok (deep_scroll_point 2)) by reflexivity.
  split; [reflexivity|]. split; [|split; [exact E|]].
  - unfold history_has_bucket, self, harvester_with_recorded_bucket.
    cbn [sessions]. eexists. eexists. eexists.
    split; [left; reflexivity|]. split; reflexivity.
  - intros (point & P & S & _). rewrite E in P. injection P as <-.
    discriminate.
Qed.

(** C10.  On an empty corpus the analysis is a record with the fields
    [strategy] and [reasoning] only, the planner raises [KeyError] on
    [most_recent_dates] for every session from the third on, and so it
    returns a plan for such a session only when the corpus is not empty. *)
Theorem plan_raises_on_empty_corpus :
  forall (self : SmartHarvester) (session_num offset_draw : Z),
    2 <= session_num ->
    (all_videos self = [] ->
     exists analysis,
       _analyze_collection_gaps self = Ok analysis /\
       keys analysis = ["strategy"; "reasoning"] /\
       PyDict.get analysis "most_recent_dates" = None /\
       _calculate_advanced_continuation_point self session_num offset_draw =
         Raise (KeyError "most_recent_dates")) /\
    (forall point,
        _calculate_advanced_continuation_point self session_num offset_draw =
          Ok point ->
        all_videos self <> []).
Proof.
  intros self n draw Hn. split.
  - intros He. eexists. split; [apply (analysis_empty self He)|].
    split; [reflexivity|]. split; [reflexivity|].
    now apply plan_empty_corpus.
  - intros point E He.
    rewrite (plan_empty_corpus self n draw Hn He) in E. discriminate.
Qed.

Lemma plan_raises_on_empty_corpus_witness :
  _calculate_advanced_continuation_point (harvester_with []) 2 0 =
    Raise (KeyError "most_recent_dates") /\
  all_videos (harvester_with [undated_video "1"]) <> [].
Proof.
  split.
  - destruct (plan_raises_on_empty_corpus (harvester_with []) 2 0) as (H & _);
      [lia|].
    destruct H as (analysis & _ & _ & _ & P); [reflexivity | exact P].
  - destruct (plan_raises_on_empty_corpus
                (harvester_with [undated_video "1"]) 2 0) as (_ & H); [lia|].
    apply (H (deep_scroll_point 2)). reflexivity.
Defined.

End PlannerFallback.

(** ** Timestamps *)

Section DatetimeFacts.
Import Digits Datetime.
Local Open Scope string_scope.

Lemma digit_code n :
  nat_of_ascii (digit_of_Z n) = (48 + Z.to_nat (n mod 10))%nat.
Proof.
  unfold digit_of_Z. apply nat_ascii_embedding.
  pose proof (Z.mod_pos_bound n 10 eq_refl). lia.
Qed.

Lemma digit_is_digit n : is_digit (digit_of_Z n) = true.
Proof.
  unfold is_digit. rewrite digit_code.
  pose proof (Z.mod_pos_bound n 10 eq_refl).
  apply andb_true_iff. split; apply Nat.leb_le; lia.
Qed.

Lemma digit_value n : Z_of_digit (digit_of_Z n) = n mod 10.
Proof.
  unfold Z_of_digit. rewrite digit_code.
  pose proof (Z.mod_pos_bound n 10 eq_refl). lia.
Qed.

Lemma parse_from_append acc a b :
  parse_from acc (a ++ b) =
  match parse_from acc a with
  | Some acc' => parse_from acc' b
  | None => None
  end.
Proof.
  revert acc. induction a as [|c a IH]; intros acc; simpl; [reflexivity|].
  destruct (is_digit c); [apply IH | reflexivity].
Qed.

Lemma parse_from_pad k : forall acc n,
  0 <= n ->
  parse_from acc (pad k n) = Some (acc * 10 ^ Z.of_nat k + n mod 10 ^ Z.of_nat k).
Proof.
  induction k as [|k IH]; intros acc n Hn.
  - simpl. f_equal. rewrite Z.mod_1_r. lia.
  - cbn [pad]. rewrite parse_from_append, IH by (apply Z.div_pos; lia).
    cbn [parse_from]. rewrite digit_is_digit, digit_value. f_equal.
    rewrite Nat2Z.inj_succ, Z.pow_succ_r by lia.
    set (p := 10 ^ Z.of_nat k).
    assert (Hp : 0 < p) by (apply Z.pow_pos_nonneg; lia).
    rewrite Z.rem_mul_r by lia.
    lia.
Qed.

Lemma pad_length k n : String.length (pad k n) = k.
Proof.
  revert n. induction k as [|k IH]; intros n; [reflexivity|].
  cbn [pad]. rewrite length_append, IH. simpl. lia.
Qed.

Lemma pad_not_empty k n : pad (S k) n <> "".
Proof.
  intros E. pose proof (pad_length (S k) n) as L. rewrite E in L. discriminate.
Qed.

Lemma parse_pad k n :
  0 <= n < 10 ^ Z.of_nat (S k) -> parse (pad (S k) n) = Some n.
Proof.
  intros Hn. unfold parse.
  destruct (pad (S k) n) eqn:E; [now apply pad_not_empty in E|].
  rewrite <- E, parse_from_pad by lia. f_equal.
  rewrite Z.mod_small; lia.
Qed.

Lemma substring_skip a b len :
  substring (String.length a) len (a ++ b) = substring 0 len b.
Proof. induction a as [|c a IH]; simpl; [reflexivity | exact IH]. Qed.

Lemma substring_0_all a : substring 0 (String.length a) a = a.
Proof. induction a as [|c a IH]; simpl; [reflexivity | now rewrite IH]. Qed.

(** A field of [w] digits at the head of a text. *)
Lemma field_prefix a rest :
  field (a ++ rest) 0 (String.length a) = parse a.
Proof.
  unfold field. now rewrite substring_0_length, Nat.eqb_refl.
Qed.

Lemma field_head w n rest :
  0 <= n < 10 ^ Z.of_nat (S w) ->
  field (pad (S w) n ++ rest) 0 (S w) = Some n.
Proof.
  intros Hn. pose proof (field_prefix (pad (S w) n) rest) as F.
  rewrite pad_length in F. rewrite F. now apply parse_pad.
Qed.

(** Reading at an offset skips a prefix of that length. *)
Lemma substring_offset pre s pos len :
  substring (String.length pre + pos) len (pre ++ s) = substring pos len s.
Proof. induction pre as [|c pre IH]; simpl; [reflexivity | exact IH]. Qed.

Lemma field_skip pre s pos len :
  field (pre ++ s) (String.length pre + pos) len = field s pos len.
Proof. unfold field. now rewrite substring_offset. Qed.

Lemma expect_skip c pre s pos :
  expect c (pre ++ s) (String.length pre + pos) = expect c s pos.
Proof. unfold expect. now rewrite substring_offset. Qed.

End DatetimeFacts.

Section DatetimeRoundTrip.
Import Digits Datetime.
Local Open Scope string_scope.

Lemma two_digits n :
  0 <= n <= 99 -> ((0 * 10 + (n / 10) mod 10) * 10 + n mod 10) = n.
Proof. intros H. Z.div_mod_to_equations. lia. Qed.

Lemma four_digits n :
  0 <= n <= 9999 ->
  ((((0 * 10 + (n / 10 / 10 / 10) mod 10) * 10 + (n / 10 / 10) mod 10) * 10 +
    (n / 10) mod 10) * 10 + n mod 10) = n.
Proof. intros H. Z.div_mod_to_equations. lia. Qed.

Lemma six_digits n :
  0 <= n <= 999999 ->
  ((((((0 * 10 + (n / 10 / 10 / 10 / 10 / 10) mod 10) * 10 +
       (n / 10 / 10 / 10 / 10) mod 10) * 10 +
      (n / 10 / 10 / 10) mod 10) * 10 + (n / 10 / 10) mod 10) * 10 +
    (n / 10) mod 10) * 10 + n mod 10) = n.
Proof. intros H. Z.div_mod_to_equations. lia. Qed.

Lemma valid_ranges t :
  valid t ->
  0 <= year t <= 9999 /\ 0 <= month t <= 99 /\ 0 <= day t <= 99 /\
  0 <= hour t <= 99 /\ 0 <= minute t <= 99 /\ 0 <= second t <= 99 /\
  0 <= microsecond t <= 999999.
Proof.
  unfold valid, validb, in_range. intros V.
  repeat match goal with
         | H : _ && _ = true |- _ => apply andb_true_iff in H; destruct H
         | H : (_ <=? _) = true |- _ => apply Z.leb_le in H
         end.
  assert (days_in_month (year t) (month t) <= 31).
  { unfold days_in_month.
    repeat match goal with |- context [if ?b then _ else _] => destruct b end;
      lia. }
  lia.
Qed.

Ltac read_digits :=
  unfold field, expect, parse;
  cbn [substring String.length Nat.eqb String.eqb Ascii.eqb Bool.eqb
       parse_from obind andb];
  rewrite ?digit_is_digit, ?digit_value;
  cbn [obind].

(** [fromisoformat] reads back what [isoformat] writes. *)
Lemma fromisoformat_isoformat t :
  valid t -> fromisoformat (isoformat t) = Ok t.
Proof.
  intros V. pose proof V as Vb. unfold valid in Vb.
  destruct (valid_ranges t V) as (Hy & Hmo & Hd & Hh & Hmi & Hs & Hus).
  destruct t as [y mo d h mi se us].
  cbn [year month day hour minute second microsecond] in *.
  unfold fromisoformat, fromisoformat_opt, isoformat.
  cbn [year month day hour minute second microsecond].
  destruct (Z.eqb_spec us 0) as [->|Hne].
  - cbn [pad append]. read_digits.
    rewrite (four_digits y), !two_digits by lia.
    now rewrite Vb.
  - cbn [pad append]. read_digits.
    rewrite (four_digits y), (six_digits us), !two_digits by lia.
    now rewrite Vb.
Qed.

End DatetimeRoundTrip.

(** ** The invariant of the harvester *)

Section Invariant.

Variable P : SmartHarvester -> Prop.

Lemma preserves_ret {A : Type} (a : A) : preserves P (ret a).
Proof. intros self H. exact H. Qed.

Lemma preserves_lift {A : Type} (r : result A) : preserves P (lift r).
Proof. intros self H. exact H. Qed.

Lemma preserves_raise {A : Type} (e : exn) : preserves P (raise_ (A := A) e).
Proof. intros self H. exact H. Qed.

Lemma preserves_read {A : Type} (f : SmartHarvester -> A) : preserves P (read f).
Proof. intros self H. exact H. Qed.

Lemma preserves_update f :
  (forall self, P self -> P (f self)) -> preserves P (update f).
Proof. intros Hf self H. now apply Hf. Qed.

Lemma preserves_bind {A B : Type} (m : method A) (k : A -> method B) :
  preserves P m -> (forall a, preserves P (k a)) -> preserves P (mbind m k).
Proof.
  intros Hm Hk self H. unfold mbind. specialize (Hm self H).
  destruct (m self) as [[a|e] self']; simpl in *; [now apply Hk | exact Hm].
Qed.

Lemma preserves_try {A : Type} (m : method A) (h : exn -> method A) :
  preserves P m -> (forall e, preserves P (h e)) -> preserves P (mtry m h).
Proof.
  intros Hm Hh self H. unfold mtry. specialize (Hm self H).
  destruct (m self) as [[a|e] self']; simpl in *; [exact Hm | now apply Hh].
Qed.

Lemma preserves_for {A : Type} (xs : list A) (body : A -> method unit) :
  (forall x, preserves P (body x)) -> preserves P (mfor xs body).
Proof.
  intros Hb. induction xs as [|x xs IH]; cbn [mfor].
  - apply preserves_ret.
  - apply preserves_bind; [apply Hb | intros _; exact IH].
Qed.

End Invariant.

Section InvariantOfTheHarvester.

Lemma preserves_set_stats f : preserves well_formed (set_stats f).
Proof. apply preserves_update. intros self H. exact H. Qed.

Lemma fromisoformat_valid s t : Datetime.fromisoformat s = Ok t -> Datetime.valid t.
Proof.
  unfold Datetime.fromisoformat.
  destruct (Datetime.fromisoformat_opt s) as [t'|] eqn:E; [|discriminate].
  intros H. injection H as <-.
  unfold Datetime.fromisoformat_opt, Datetime.obind in E.
  repeat match type of E with
         | match ?x with _ => _ end = _ =>
             lazymatch x with
             | Datetime.validb _ => fail
             | _ => destruct x; [|discriminate]
             end
         end.
  destruct (Datetime.validb _) eqn:V; [|discriminate].
  injection E as <-. exact V.
Qed.

Lemma load_session_valid data x :
  load_session data = Ok x -> Datetime.valid (timestamp x).
Proof.
  unfold load_session. intros H.
  repeat match type of H with
         | bind ?r _ = _ => destruct r eqn:?; [cbn [bind] in H | discriminate]
         end.
  injection H as <-. cbn [timestamp].
  match goal with
  | H : bind (Json.getitem data "timestamp") _ = Ok _ |- _ =>
      destruct (Json.getitem data "timestamp"); [cbn [bind] in H | discriminate];
      destruct (Json.to_str _); [cbn [bind] in H | discriminate];
      now apply fromisoformat_valid in H
  end.
Qed.

Lemma load_preserves file : preserves well_formed (_load_harvest_history file).
Proof.
  unfold _load_harvest_history. apply preserves_try; [|intros; apply preserves_ret].
  unfold load_body. destruct file as [|e|data].
  - apply preserves_ret.
  - apply preserves_raise.
  - unfold when_present.
    apply preserves_bind; [|intros _; apply preserves_bind; [|intros _]].
    + destruct (PyDict.get data "harvest_metadata"); [|apply preserves_ret].
      unfold load_metadata.
      repeat (apply preserves_bind;
              [first [apply preserves_lift | apply preserves_set_stats]
              | intros ?]).
      apply preserves_set_stats.
    + destruct (PyDict.get data "all_videos"); [|apply preserves_ret].
      unfold load_videos. apply preserves_bind; [apply preserves_lift|].
      intros entries. apply preserves_for. intros entry.
      apply preserves_bind; [apply preserves_lift|]. intros video.
      apply preserves_update. intros self [W V]. split; [|exact V].
      cbn [set_all_videos all_videos]. now apply wf_set.
    + destruct (PyDict.get data "sessions"); [|apply preserves_ret].
      unfold load_sessions. apply preserves_bind; [apply preserves_lift|].
      intros entries. apply preserves_for. intros session_data.
      intros self H. unfold mbind, lift.
      destruct (load_session session_data) as [x|e] eqn:E; [|exact H].
      destruct H as [W V]. split; [exact W|].
      cbn [update snd set_sessions sessions]. apply Forall_app. split; [exact V|].
      constructor; [|constructor]. exact (load_session_valid _ _ E).
Qed.

(** Whatever the file holds, the constructor returns a harvester whose
    corpus is a dictionary and whose sessions carry dates. *)
Lemma init_well_formed file : well_formed (snd (SmartHarvester_init file)).
Proof.
  unfold SmartHarvester_init.
  pose proof (load_preserves file
    (mkSmartHarvester [] [] HarvestStats_default 30 120 (lit (8 # 10)) 20)) as H.
  destruct (_load_harvest_history file _) as [[u|e] self]; cbn [snd] in *;
    apply H; (split; [constructor | constructor]).
Qed.

(** A session keeps the invariant when the clock gives a date. *)
Lemma session_preserves config env :
  Datetime.valid (finished_at env) ->
  preserves well_formed (run_harvest_session config env).
Proof.
  intros Hv. unfold run_harvest_session.
  apply preserves_try; [|intros; apply preserves_ret].
  apply preserves_bind; [|intros; apply preserves_ret].
  unfold session_body.
  apply preserves_bind; [apply preserves_lift|]. intros videos.
  apply preserves_bind.
  - destruct videos as [|v videos]; [apply preserves_ret|].
    intros self H.
    assert (G : well_formed
                  (set_all_videos self
                     (merged (merge_videos (all_videos self) (v :: videos))))).
    { destruct H as [W V]. split; [|exact V].
      cbn [set_all_videos all_videos]. now apply merge_videos_wf. }
    unfold mbind, read, update, lift, ret.
    destruct (bind _ _); exact G.
  - intros metrics. apply preserves_bind; [|intros; apply preserves_ret].
    apply preserves_update. intros self [W V]. split; [exact W|].
    cbn [set_sessions sessions]. apply Forall_app. split; [exact V|].
    constructor; [exact Hv | constructor].
Qed.

End InvariantOfTheHarvester.

(** ** Loading what was saved *)

Section RoundTrip.

Lemma load_video_asdict v : load_video (asdict_video v) = Ok v.
Proof. destruct v. reflexivity. Qed.

Lemma load_continuation_asdict c :
  load_continuation (asdict_continuation c) = Ok (Some c).
Proof.
  destruct c as [s r o t a e f g]. destruct t, a; reflexivity.
Qed.

Lemma load_session_dict x :
  Datetime.valid (timestamp x) -> load_session (session_dict x) = Ok x.
Proof.
  intros V. destruct x as [i t n sr ct tf sc cp].
  cbn [timestamp] in V.
  unfold load_session, session_dict.
  cbn [session_id timestamp videos_found success_rate completion_time
       target_filter total_score continuation_point].
  destruct cp as [c|].
  - cbn [app Json.get PyDict.get String.eqb Ascii.eqb Bool.eqb bind].
    rewrite load_continuation_asdict.
    cbn [bind Json.getitem PyDict.getitem PyDict.get String.eqb Ascii.eqb
         Bool.eqb Json.to_str Json.to_int Json.to_num].
    rewrite (fromisoformat_isoformat t V). reflexivity.
  - cbn [app Json.get PyDict.get String.eqb Ascii.eqb Bool.eqb bind
         load_continuation Json.truthy
         Json.getitem PyDict.getitem Json.to_str Json.to_int Json.to_num].
    rewrite (fromisoformat_isoformat t V). reflexivity.
Qed.

Lemma fold_set_fresh {V : Type} (entries : list (string * V)) :
  forall acc,
    wf (acc ++ entries) ->
    fold_left (fun d e => PyDict.set d (fst e) (snd e)) entries acc =
    acc ++ entries.
Proof.
  induction entries as [|[k v] entries IH]; intros acc W; simpl.
  - now rewrite app_nil_r.
  - assert (Hk : ~ In k (keys acc)).
    { unfold wf, keys in W. rewrite map_app in W. simpl in W.
      apply NoDup_remove_2 in W. intros C. apply W.
      apply in_or_app. now left. }
    rewrite (set_new acc k v Hk), IH.
    + now rewrite <- app_assoc.
    + now rewrite <- app_assoc.
Qed.

Lemma videos_dict_wf all :
  wf all -> videos_dict all = map encode_video all.
Proof.
  intros W. unfold videos_dict, items.
  assert (G : forall acc,
             wf (acc ++ map encode_video all) ->
             fold_left (fun videos_data entry =>
                          PyDict.set videos_data (fst entry)
                            (asdict_video (snd entry))) all acc =
             acc ++ map encode_video all).
  { intros acc Wa.
    rewrite <- (fold_set_fresh (map encode_video all) acc Wa).
    clear. revert acc. induction all as [|e all IH]; intros acc; simpl.
    - reflexivity.
    - apply IH. }
  apply (G []). simpl. unfold wf, keys in *.
  rewrite map_map. exact W.
Qed.

Lemma load_videos_loop all : forall self,
  mfor (map encode_video all)
    (fun entry =>
       video <~ lift (load_video (snd entry)) ;;
       update (fun self =>
         set_all_videos self (PyDict.set (all_videos self) (fst entry) video)))
    self =
  (Ok tt,
   set_all_videos self
     (fold_left (fun d e => PyDict.set d (fst e) (snd e)) all (all_videos self))).
Proof.
  induction all as [|[k v] all IH]; intros self.
  - destruct self. reflexivity.
  - cbn [map mfor]. unfold mbind at 1. unfold mbind at 1.
    unfold lift, encode_video. cbn [fst snd].
    rewrite load_video_asdict. unfold update at 1.
    rewrite IH. reflexivity.
Qed.

Lemma load_sessions_loop xs : forall self,
  Forall (fun x => Datetime.valid (timestamp x)) xs ->
  mfor (map session_dict xs)
    (fun session_data =>
       session <~ lift (load_session session_data) ;;
       update (fun self => set_sessions self (sessions self ++ [session])))
    self =
  (Ok tt, set_sessions self (sessions self ++ xs)).
Proof.
  induction xs as [|x xs IH]; intros self V.
  - destruct self. cbn [map mfor ret set_sessions sessions].
    now rewrite app_nil_r.
  - inversion V as [|? ? Vx Vxs]; subst.
    cbn [map mfor]. unfold mbind at 1. unfold mbind at 1.
    unfold lift. rewrite (load_session_dict x Vx). unfold update at 1.
    rewrite (IH _ Vxs). cbn [set_sessions sessions all_videos harvest_stats
      session_gap_min session_gap_max duplicate_threshold early_check_count].
    now rewrite <- app_assoc.
Qed.

Lemma load_saved self now :
  wf (all_videos self) ->
  Forall (fun x => Datetime.valid (timestamp x)) (sessions self) ->
  load_body (Document (harvest_data self now)) fresh_harvester =
  (Ok tt, reloaded self now).
Proof.
  intros W V. unfold load_body, harvest_data.
  unfold when_present.
  cbn [PyDict.get String.eqb Ascii.eqb Bool.eqb].
  unfold mbind at 1.
  replace (load_metadata _ fresh_harvester)
    with (Ok tt,
          set_harvest_stats fresh_harvester
            (harvest_stats (reloaded self now))) by reflexivity.
  unfold mbind at 1. unfold load_videos.
  unfold mbind at 1. unfold lift at 1. cbn [Json.items].
  rewrite (videos_dict_wf _ W), load_videos_loop.
  cbn [all_videos set_harvest_stats fresh_harvester].
  rewrite (fold_set_fresh (all_videos self) []) by exact W.
  unfold load_sessions. unfold mbind at 1. unfold lift at 1.
  cbn [Json.iterate]. rewrite load_sessions_loop by exact V.
  reflexivity.
Qed.

End RoundTrip.

(** C9.  The document written for a harvester (one that keeps the
    invariant of the constructor and of the sessions: its corpus is a
    dictionary and its timestamps are dates) loads without any exception
    into a harvester with the same corpus, entry for entry and field for
    field, and the same sessions in the same order with their continuation
    points; saving that harvester again writes the same [all_videos] and
    the same [sessions] into the new document. *)
Theorem load_save_round_trip :
  forall (self : SmartHarvester) (now now' : datetime),
    well_formed self ->
    let doc := harvest_data self now in
    let loaded := snd (SmartHarvester_init (Document doc)) in
    load_body (Document doc) fresh_harvester = (Ok tt, loaded) /\
    all_videos loaded = all_videos self /\
    sessions loaded = sessions self /\
    snd (_save_harvest_results loaded now' Written) =
      Document (harvest_data loaded now') /\
    PyDict.get (harvest_data loaded now') "all_videos" =
      PyDict.get doc "all_videos" /\
    PyDict.get (harvest_data loaded now') "sessions" =
      PyDict.get doc "sessions".
Proof.
  intros self now now' [W V] doc loaded.
  assert (E : loaded = reloaded self now).
  { unfold loaded, SmartHarvester_init, _load_harvest_history, mtry.
    fold fresh_harvester. unfold doc. now rewrite (load_saved self now W V). }
  rewrite E. split; [exact (load_saved self now W V)|].
  repeat split.
Qed.

Lemma load_save_round_trip_witness :
  let now := mkDatetime 2025 1 2 3 5 0 0 in
  let loaded :=
    snd (SmartHarvester_init (Document (harvest_data sample_harvester now))) in
  all_videos loaded = all_videos sample_harvester /\
  sessions loaded = sessions sample_harvester.
Proof.
  intros now loaded.
  destruct (load_save_round_trip sample_harvester now now)
    as (_ & A & S & _).
  - split.
    + unfold wf. simpl. repeat constructor; simpl; intuition discriminate.
    + repeat constructor.
  - split; [exact A | exact S].
Defined.

(** ** Failures of the harvest file *)

Section FileFailures.


Lemma save_never_raises self now w :
  fst (_save_harvest_results self now w) = Ok tt.
Proof. destruct w; reflexivity. Qed.

Lemma load_never_raises file self :
  fst (_load_harvest_history file self) = Ok tt.
Proof.
  unfold _load_harvest_history, mtry.
  destruct (load_body file self) as [[u|e] self']; [now destruct u | reflexivity].
Qed.

Lemma init_never_raises file :
  exists self, SmartHarvester_init file = (Ok self, self).
Proof.
  unfold SmartHarvester_init.
  pose proof (load_never_raises file
    (mkSmartHarvester [] [] HarvestStats_default 30 120 (lit (8 # 10)) 20)) as H.
  destruct (_load_harvest_history file _) as [[u|e] self]; simpl in H.
  - now exists self.
  - discriminate.
Qed.












End FileFailures.


(** * Further properties of the harvester *)

(** ** Rounding, continued *)

Section RoundingFacts.
Local Open Scope Q_scope.

(** Equal rationals round to the same double. *)
Lemma round_ext q1 q2 : q1 == q2 -> round q1 = round q2.
Proof.
  intros E.
  assert (L : q1 <= q2) by (rewrite E; apply Qle_refl).
  assert (G : q2 <= q1) by (rewrite E; apply Qle_refl).
  unfold round.
  rewrite <- (Qcompare_comp _ _ E 0 0 (Qeq_refl 0)).
  destruct (q1 ?= 0) eqn:C; [reflexivity | |].
  - (* negative *)
    unfold round_pos.
    assert (V : round_val (- q1) = round_val (- q2)).
    { unfold round_val.
      assert (B : binade (- q1) = binade (- q2)).
      { apply Qlt_alt in C.
        apply Z.le_antisymm; apply binade_mono; lra. }
      rewrite B. f_equal. f_equal.
      apply Z.le_antisymm; apply rne_mono; rewrite E; apply Qle_refl. }
    now rewrite V.
  - unfold round_pos.
    assert (V : round_val q1 = round_val q2).
    { unfold round_val.
      assert (B : binade q1 = binade q2).
      { apply Qgt_alt in C.
        apply Z.le_antisymm; apply binade_mono; lra. }
      rewrite B. f_equal. f_equal.
      apply Z.le_antisymm; apply rne_mono; rewrite E; apply Qle_refl. }
    now rewrite V.
Qed.

(** The ratio of a part to the whole is a double between 0 and 1. *)
Lemma part_of_whole (p n : Z) :
  (0 <= p <= n)%Z -> (0 < n)%Z ->
  exists x, int_truediv p n = Ok (Fin x) /\ 0 <= x /\ x <= 1 /\
            (p = 0%Z -> x = 0) /\ (p = n -> x = 1).
Proof.
  intros Hp Hn.
  assert (H0 : 0 <= inject_Z p / inject_Z n).
  { change 0 with (0 # 1). apply ratio_ge; lia. }
  assert (H1 : inject_Z p / inject_Z n <= 1).
  { change 1 with (1 # 1). apply ratio_le; lia. }
  destruct (round_between 0 1 _ 0 1 H0 H1 eq_refl eq_refl) as (x & Ex & L & U).
  exists x. unfold int_truediv.
  destruct (Z.eqb_spec n 0) as [E|_]; [lia|]. rewrite Ex.
  split; [reflexivity|]. split; [exact L|]. split; [exact U|]. split.
  - intros ->.
    assert (R : round (inject_Z 0 / inject_Z n) = round 0).
    { apply round_ext. unfold Qdiv. change (inject_Z 0) with 0. ring. }
    rewrite R in Ex. now injection Ex.
  - intros Epn. subst p.
    assert (R : round (inject_Z n / inject_Z n) = round 1).
    { apply round_ext. field. intros E.
      unfold Qeq in E. simpl in E. lia. }
    rewrite R in Ex. now injection Ex.
Qed.

(** A share of the whole, as a percentage. *)
Lemma percentage (p n : Z) :
  (0 <= p <= n)%Z -> (0 < n)%Z ->
  exists r,
    (ratio <- PyNum.truediv (PInt p) (PInt n) ;; PyNum.mul ratio (PInt 100)) =
      Ok (PFloat (Fin r)) /\
    0 <= r /\ r <= 100 /\ (p = 0%Z -> r = 0) /\ (p = n -> r = 100).
Proof.
  intros Hp Hn.
  destruct (part_of_whole p n Hp Hn) as (x & Ex & L & U & Z0 & Z1).
  cbn [PyNum.truediv]. rewrite Ex. cbn [bind PyNum.mul PyNum.to_float].
  change (of_int 100) with (Ok (Fin 100)). cbn [bind fmul].
  assert (H0 : 0 <= x * 100) by nra.
  assert (H1 : x * 100 <= 100) by nra.
  destruct (round_between 0 100 _ 0 100 H0 H1 eq_refl eq_refl)
    as (r & Er & Lr & Ur).
  exists r. rewrite Er. split; [reflexivity|].
  split; [exact Lr|]. split; [exact Ur|]. split.
  - intros E. rewrite (Z0 E) in Er. now injection Er.
  - intros E. rewrite (Z1 E) in Er. now injection Er.
Qed.

End RoundingFacts.

(** ** The merge of a batch, continued *)

Lemma merge_video_counts st video :
  0 <= new_videos st -> 0 <= duplicate_videos st ->
  0 <= new_videos (merge_video st video) /\
  0 <= duplicate_videos (merge_video st video).
Proof.
  intros N D. unfold merge_video.
  destruct (negb (mem (video_id video) (merged st))); simpl; lia.
Qed.

Lemma fold_merge_nonneg videos : forall st,
  0 <= new_videos st -> 0 <= duplicate_videos st ->
  0 <= new_videos (fold_left merge_video videos st) /\
  0 <= duplicate_videos (fold_left merge_video videos st).
Proof.
  induction videos as [|v vs IH]; intros st N D; simpl.
  - now split.
  - destruct (merge_video_counts st v N D) as [N' D']. now apply IH.
Qed.

(** X1. Every video of a batch is counted once, as new or as a duplicate;
    the corpus grows by the number of new videos, which is the number of
    identities of the batch that the corpus did not have; so the share of
    new content that the session logs for a batch that is not empty never
    divides by zero. *)
Theorem merge_counts_every_video :
  forall (all : dict VideoData) (videos : list VideoData),
    let st := merge_videos all videos in
    new_videos st + duplicate_videos st = Z.of_nat (List.length videos) /\
    0 <= new_videos st /\ 0 <= duplicate_videos st /\
    new_videos st =
      Z.of_nat (List.length (fresh_ids (keys all) (map video_id videos))) /\
    len (merged st) = len all + new_videos st /\
    (videos <> [] -> new_videos st + duplicate_videos st <> 0).
Proof.
  intros all videos st.
  destruct (fold_merge_counts videos (mkMergeState all 0 0)) as [N S].
  destruct (fold_merge_nonneg videos (mkMergeState all 0 0)) as [N0 D0];
    [simpl; lia | simpl; lia |].
  fold (merge_videos all videos) in N, S, N0, D0. fold st in N, S, N0, D0.
  cbn [new_videos duplicate_videos merged] in N, S.
  assert (T : new_videos st + duplicate_videos st =
              Z.of_nat (List.length videos)) by lia.
  split; [exact T|]. split; [exact N0|]. split; [exact D0|].
  split; [lia|]. split.
  - assert (K : keys (merged st) =
                keys all ++ fresh_ids (keys all) (map video_id videos)).
    { unfold st, merge_videos. now rewrite fold_merge_keys. }
    rewrite !len_length, K, length_app. lia.
  - intros Hne. rewrite T. destruct videos; [contradiction | simpl; lia].
Qed.

(** ** One session *)

Section OneSession.

Lemma session_without_scrape config env self e :
  scraped env = Raise e ->
  run_harvest_session config env self = (Ok None, self).
Proof.
  intros E.
  unfold run_harvest_session, mtry, mbind, session_body, mbind, lift.
  now rewrite E.
Qed.

Lemma session_with_scrape config env self videos :
  scraped env = Ok videos ->
  exists session,
    run_harvest_session config env self =
      (Ok (Some session), after_session self videos session) /\
    session_id session =
      ("harvest_" ++ Datetime.strftime_compact (started_at env))%string /\
    timestamp session = finished_at env /\
    videos_found session = Z.of_nat (List.length videos) /\
    completion_time session = PFloat (elapsed env) /\
    target_filter session = config_target_filter config /\
    continuation_point session = Some (continuation config) /\
    total_score session =
      match videos with [] => 0 | _ => scraper_score env end.
Proof.
  intros E.
  unfold run_harvest_session, mtry, session_body.
  unfold mbind at 1. unfold mbind at 1. unfold lift at 1. rewrite E.
  destruct videos as [|v videos].
  - eexists. split; [reflexivity|]. now repeat split.
  - destruct (percentage (proper_titles (v :: videos))
                (Z.of_nat (List.length (v :: videos)))) as (r & Er & _).
    { unfold proper_titles. split; [lia|].
      apply Nat2Z.inj_le, filter_length_le. }
    { simpl List.length. lia. }
    unfold proper_titles in Er.
    unfold mbind at 1. unfold mbind at 1. unfold read at 1.
    unfold mbind at 1. unfold update at 1.
    unfold mbind at 1. unfold lift at 1. rewrite Er.
    eexists. split; [reflexivity|]. now repeat split.
Qed.

(** X3. A session with a configuration that [_generate_session_config]
    made never raises.  When the scraper raises, the session
    returns [None] and the harvester is as before.  When the scraper
    returns, also with no video at all, the session is recorded at the end
    of the history, the videos are merged into the corpus, and nothing
    else of the harvester changes; the record has the identity of the
    start time, the number of scraped videos, the elapsed time, the plan
    of the configuration and, when the batch is empty, the score 0. *)
Theorem harvest_session_outcome :
  forall (self : SmartHarvester) (session_num offset_draw scroll_draw : Z)
         (config : session_config) (env : session_env),
    _generate_session_config self session_num offset_draw scroll_draw =
      Ok config ->
    (exists answer self',
       run_harvest_session config env self = (Ok answer, self')) /\
    (forall e, scraped env = Raise e ->
       run_harvest_session config env self = (Ok None, self)) /\
    (forall videos, scraped env = Ok videos ->
       exists session,
         run_harvest_session config env self =
           (Ok (Some session), after_session self videos session) /\
         session_id session =
           ("harvest_" ++ Datetime.strftime_compact (started_at env))%string /\
         timestamp session = finished_at env /\
         videos_found session = Z.of_nat (List.length videos) /\
         completion_time session = PFloat (elapsed env) /\
         target_filter session = config_target_filter config /\
         continuation_point session = Some (continuation config) /\
         total_score session =
           match videos with [] => 0 | _ => scraper_score env end).
Proof.
  intros self session_num offset_draw scroll_draw config env _.
  split; [|split].
  - destruct (scraped env) as [videos|e] eqn:E.
    + destruct (session_with_scrape config env self videos E)
        as (session & R & _).
      rewrite R. now eexists; eexists.
    + rewrite (session_without_scrape config env self e E).
      now eexists; eexists.
  - intros e E. exact (session_without_scrape config env self e E).
  - intros videos E. exact (session_with_scrape config env self videos E).
Qed.

Lemma harvest_session_outcome_witness :
  exists session,
    run_harvest_session sample_config (sample_env [] Written) fresh_harvester =
      (Ok (Some session), after_session fresh_harvester [] session) /\
    videos_found session = 0 /\ total_score session = 0.
Proof.
  destruct (harvest_session_outcome fresh_harvester 0 12 20 sample_config
              (sample_env [] Written)) as (_ & _ & H);
    [vm_compute; reflexivity|].
  destruct (H [] eq_refl) as (session & R & _ & _ & F & _ & _ & _ & T).
  exists session. split; [exact R|]. split; [exact F | exact T].
Defined.

(** X4. The success rate that a session records, for a configuration
    that [_generate_session_config] made, is the integer 0 for an empty
    batch and otherwise a double between 0 and 100: 100 when every title
    of the batch was extracted and 0 when none was. *)
Theorem session_success_rate :
  forall (self self' : SmartHarvester)
         (session_num offset_draw scroll_draw : Z)
         (config : session_config) (env : session_env)
         (session : HarvestSession),
    _generate_session_config self session_num offset_draw scroll_draw =
      Ok config ->
    run_harvest_session config env self = (Ok (Some session), self') ->
    match scraped_videos env with
    | [] => success_rate session = PInt 0
    | videos =>
        exists r,
          success_rate session = PFloat (Fin r) /\
          (0 <= r)%Q /\ (r <= 100)%Q /\
          (proper_titles videos = Z.of_nat (List.length videos) -> r = 100%Q) /\
          (proper_titles videos = 0 -> r = 0%Q)
    end.
Proof.
  intros self self' session_num offset_draw scroll_draw config env session _.
  unfold run_harvest_session, mtry, session_body, scraped_videos.
  unfold mbind at 1. unfold mbind at 1. unfold lift at 1.
  destruct (scraped env) as [videos|e]; [|discriminate].
  destruct videos as [|v videos].
  - intros H. inversion H. reflexivity.
  - destruct (percentage (proper_titles (v :: videos))
                (Z.of_nat (List.length (v :: videos)))) as (r & Er & L & U & P0 & P1).
    { unfold proper_titles. split; [lia|].
      apply Nat2Z.inj_le, filter_length_le. }
    { simpl List.length. lia. }
    unfold proper_titles in Er.
    unfold mbind at 1. unfold mbind at 1. unfold read at 1.
    unfold mbind at 1. unfold update at 1.
    unfold mbind at 1. unfold lift at 1. rewrite Er.
    intros H. inversion H. exists r. cbn [success_rate fst].
    split; [reflexivity|]. now repeat split.
Qed.

Lemma session_success_rate_witness :
  exists session self',
    run_harvest_session sample_config
      (sample_env (videos_numbered 0 2) Written) fresh_harvester =
      (Ok (Some session), self') /\
    exists r, success_rate session = PFloat (Fin r) /\ r = 100%Q.
Proof.
  destruct (run_harvest_session sample_config
              (sample_env (videos_numbered 0 2) Written) fresh_harvester)
    as [[[session|]|e] self'] eqn:E; try (vm_compute in E; discriminate).
  exists session, self'. split; [reflexivity|].
  assert (C : _generate_session_config fresh_harvester 0 12 20 =
              Ok sample_config) by (vm_compute; reflexivity).
  pose proof (session_success_rate _ _ 0 12 20 _ _ _ C E) as H.
  cbn [scraped_videos sample_env scraped videos_numbered seq map] in H.
  destruct H as (r & S & _ & _ & P & _).
  exists r. split; [exact S|]. apply P. reflexivity.
Defined.

End OneSession.

(** ** The plan and the configuration of a session *)

Section Configuration.

Lemma randint_in lo hi draw :
  lo <= draw <= hi -> Py.randint lo hi draw = Ok draw.
Proof.
  intros [L U]. unfold Py.randint.
  destruct (Z.leb_spec lo draw); [|lia].
  destruct (Z.leb_spec draw hi); [reflexivity | lia].
Qed.

Lemma randint_out lo hi draw :
  ~ lo <= draw <= hi -> Py.randint lo hi draw = Raise empty_range.
Proof.
  intros H. unfold Py.randint.
  destruct (Z.leb_spec lo draw); [|reflexivity].
  destruct (Z.leb_spec draw hi); [lia | reflexivity].
Qed.

Lemma plan_first self offset_draw :
  _calculate_advanced_continuation_point self 0 offset_draw =
  Ok fresh_start_point.
Proof. reflexivity. Qed.

Lemma plan_second self offset_draw :
  priorities_defined self = true ->
  _calculate_advanced_continuation_point self 1 offset_draw =
  if (10 <=? offset_draw) && (offset_draw <=? 15)
  then Ok (scroll_offset_point offset_draw)
  else Raise empty_range.
Proof.
  intros Hp. unfold _calculate_advanced_continuation_point, Py.randint.
  cbn [Z.eqb]. destruct (analysis_Ok self Hp) as (analysis & ->).
  cbn [bind]. now destruct ((10 <=? offset_draw) && (offset_draw <=? 15)).
Qed.

(** A plan after the first session needs the priority of every bucket. *)
Lemma plan_needs_priorities self session_num offset_draw point :
  session_num <> 0 ->
  _calculate_advanced_continuation_point self session_num offset_draw =
    Ok point ->
  priorities_defined self = true.
Proof.
  intros Hn E. destruct (priorities_defined self) eqn:Hp; [reflexivity|].
  destruct (plan_undefined self session_num offset_draw Hn Hp) as (e & R).
  rewrite R in E. discriminate.
Qed.

(** The plans of the planner, session by session. *)
Lemma plan_shapes self session_num offset_draw point :
  0 <= session_num ->
  _calculate_advanced_continuation_point self session_num offset_draw =
    Ok point ->
  (session_num = 0 /\ point = fresh_start_point) \/
  (session_num = 1 /\ 10 <= offset_draw <= 15 /\
   point = scroll_offset_point offset_draw) \/
  (2 <= session_num /\ all_videos self <> [] /\
   ((exists anchor, In anchor (dated self) /\
                    point = video_anchor_point session_num anchor) \/
    (dated self = [] /\ point = deep_scroll_point session_num))).
Proof.
  intros Hn E.
  destruct (Z.eq_dec session_num 0) as [->|N0].
  - left. rewrite plan_first in E. injection E as <-. now split.
  - pose proof (plan_needs_priorities self _ _ _ N0 E) as Hp.
    destruct (Z.eq_dec session_num 1) as [->|N1].
    + right. left. rewrite (plan_second self _ Hp) in E.
      destruct (Z.leb_spec 10 offset_draw), (Z.leb_spec offset_draw 15);
        cbn [andb] in E; try discriminate.
      injection E as <-. split; [reflexivity|]. split; [lia | reflexivity].
    + right. right. assert (H2 : 2 <= session_num) by lia.
      split; [exact H2|].
      destruct (all_videos self) as [|entry l] eqn:A.
      * rewrite (plan_empty_corpus self _ _ H2 A) in E. discriminate.
      * split; [discriminate|].
        destruct (dated self) as [|v vs] eqn:D.
        -- right. split; [reflexivity|].
           rewrite (plan_without_dated self _ _ H2) in E;
             [now injection E | rewrite A; discriminate | exact D].
        -- left.
           destruct (plan_with_dated self session_num offset_draw H2)
             as (anchor & Nth & P); [rewrite D; discriminate | exact Hp |].
           rewrite P in E. injection E as <-. exists anchor.
           split; [|reflexivity].
           apply nth_error_In in Nth. unfold ranked in Nth.
           rewrite <- D.
           eapply Permutation_in; [apply sorted_perm | exact Nth].
Qed.

(** The configuration for a plan. *)
Lemma config_for_plan self session_num offset_draw scroll_draw point :
  0 <= session_num ->
  _calculate_advanced_continuation_point self session_num offset_draw =
    Ok point ->
  _generate_session_config self session_num offset_draw scroll_draw =
  (count <- Py.randint (fst (scroll_band session_num))
              (snd (scroll_band session_num)) scroll_draw ;;
   Ok (mkSessionConfig (Py.str count)
         ("harvest_batch_" ++ Py.str (session_num + 1))%string
         (if 2 <=? session_num then Fin (5 # 2)
          else match last_session (sessions self) with
               | Some s => if PyNum.lt (success_rate s) (PInt 50)
                           then Fin 2 else Fin 1
               | None => Fin 1
               end)
         point
         (if session_num <? 2 then "quality" else "coverage"))).
Proof.
  intros Hn E. unfold _generate_session_config. rewrite E. cbn [bind].
  change (lit (5 # 2)) with (Fin (5 # 2)).
  change (lit 2) with (Fin 2). change (lit 1) with (Fin 1).
  destruct (plan_shapes self session_num offset_draw point Hn E)
    as [[-> ->]|[(-> & _ & ->)|(H2 & _ & [(anchor & _ & ->)|[_ ->]])]];
    try reflexivity;
    unfold scroll_band;
    (destruct (Z.eqb_spec session_num 0); [lia|]);
    (destruct (Z.eqb_spec session_num 1); [lia|]); reflexivity.
Qed.

(** X5. For the session with index [session_num], counted from 0, the
    configuration exists exactly when the plan exists and the draw of the
    scroll count is in the range of that session: 18..22 for the first
    session, 16..20 for the second and 12..16 for every later one (the
    range 15..20 of the source is never used).  The configuration holds
    the plan, the draw in decimal, the batch name and a gap multiplier:
    2.5 from the third session on, before that 2.0 when the last recorded
    session had a success rate below 50 and 1.0 otherwise. *)
Theorem session_config_spec :
  forall (self : SmartHarvester) (session_num offset_draw scroll_draw : Z),
    0 <= session_num ->
    let plan :=
      _calculate_advanced_continuation_point self session_num offset_draw in
    let config :=
      _generate_session_config self session_num offset_draw scroll_draw in
    let lo := fst (scroll_band session_num) in
    let hi := snd (scroll_band session_num) in
    (forall e, plan = Raise e -> config = Raise e) /\
    (forall point, plan = Ok point ->
       (~ lo <= scroll_draw <= hi -> config = Raise empty_range) /\
       (lo <= scroll_draw <= hi ->
        exists c,
          config = Ok c /\
          continuation c = point /\
          scroll_count c = Py.str scroll_draw /\
          config_target_filter c =
            ("harvest_batch_" ++ Py.str (session_num + 1))%string /\
          session_priority c =
            (if session_num <? 2 then "quality" else "coverage") /\
          (2 <= session_num -> config_gap_multiplier c = Fin (5 # 2)) /\
          (session_num < 2 -> sessions self = [] ->
           config_gap_multiplier c = Fin 1) /\
          (forall pre s, session_num < 2 -> sessions self = pre ++ [s] ->
           config_gap_multiplier c =
             if PyNum.lt (success_rate s) (PInt 50) then Fin 2 else Fin 1))).
Proof.
  intros self n od sd Hn plan config lo hi. split.
  - intros e E. unfold config, _generate_session_config.
    fold plan. now rewrite E.
  - intros point E. unfold config.
    rewrite (config_for_plan self n od sd point Hn E). fold lo hi. split.
    + intros H. now rewrite randint_out.
    + intros H. rewrite randint_in by exact H. cbn [bind].
      eexists. split; [reflexivity|].
      cbn [continuation scroll_count config_target_filter session_priority
           config_gap_multiplier].
      repeat (split; [reflexivity|]). split; [|split].
      * intros H2. destruct (Z.leb_spec 2 n); [reflexivity | lia].
      * intros H2 S. destruct (Z.leb_spec 2 n); [lia|]. now rewrite S.
      * intros pre s H2 S. destruct (Z.leb_spec 2 n); [lia|]. rewrite S.
        assert (L : last_session (pre ++ [s]) = Some s).
        { unfold last_session. destruct pre as [|x pre]; [reflexivity|].
          cbn [app]. f_equal. apply last_last. }
        now rewrite L.
Qed.

Lemma session_config_spec_witness :
  exists c,
    _generate_session_config sample_harvester 2 0 14 = Ok c /\
    scroll_count c = "14" /\ config_gap_multiplier c = Fin (5 # 2) /\
    _generate_session_config sample_harvester 2 0 18 = Raise empty_range.
Proof.
  destruct (session_config_spec sample_harvester 2 0 14) as [_ H]; [lia|].
  destruct (H (video_anchor_point 2 (dated_video "a" "3 years ago")))
    as [_ H']; [reflexivity|].
  destruct H' as (c & E & _ & S & _ & _ & G & _);
    [unfold scroll_band; simpl; lia|].
  exists c. split; [exact E|]. split; [exact S|]. split; [apply G; lia|].
  destruct (session_config_spec sample_harvester 2 0 18) as [_ K]; [lia|].
  destruct (K (video_anchor_point 2 (dated_video "a" "3 years ago")))
    as [K' _]; [reflexivity|].
  apply K'. unfold scroll_band. simpl. lia.
Defined.

(** X6. The planner answers for the first session always.  After the
    first session it answers exactly when every age bucket of the corpus
    has a priority (no bucket makes [_parse_date_to_priority] raise) and,
    for the second session, its draw is in 10..15, for a later session,
    the corpus is not empty.  Every plan skips a number of scrolls that
    is not negative and not beyond the expected depth, and skips none
    only in the first session; its strategy is one of four (never [date_anchor]); the
    date filter is on exactly when a target bucket is set, which is
    exactly when an anchor is set; and an anchor is the identity of a
    stored video with an age bucket, the bucket being the target. *)
Theorem plan_invariants :
  forall (self : SmartHarvester) (session_num offset_draw : Z),
    0 <= session_num ->
    let plan :=
      _calculate_advanced_continuation_point self session_num offset_draw in
    ((exists point, plan = Ok point) <->
     (session_num = 0 \/
      (priorities_defined self = true /\
       ((session_num = 1 /\ 10 <= offset_draw <= 15) \/
        (2 <= session_num /\ all_videos self <> []))))) /\
    (forall point, plan = Ok point ->
       0 <= scroll_offset point <= expected_scroll_depth point /\
       (scroll_offset point = 0 <-> session_num = 0) /\
       In (strategy point)
          ["fresh_start"; "scroll_offset"; "video_id_anchor"; "deep_scroll"] /\
       (date_filter_active point = true <-> target_date_range point <> None) /\
       (target_date_range point <> None <-> anchor_video_id point <> None) /\
       (anchor_video_id point <> None <->
        strategy point = "video_id_anchor") /\
       (forall id, anchor_video_id point = Some id ->
          exists v, In v (values (all_videos self)) /\ video_id v = id /\
                    date v <> "" /\ target_date_range point = Some (date v))).
Proof.
  intros self n d Hn plan. split.
  - split.
    + intros (point & E).
      destruct (Z.eq_dec n 0) as [Z0|N0]; [now left|]. right.
      split; [exact (plan_needs_priorities self n d point N0 E)|].
      destruct (plan_shapes self n d point Hn E)
        as [[-> _]|[(-> & R & _)|(H2 & A & _)]]; auto. contradiction.
    + intros [->|[Hp [(-> & R)|(H2 & A)]]].
      * eexists. apply plan_first.
      * eexists. unfold plan. rewrite (plan_second self d Hp).
        destruct (Z.leb_spec 10 d); [|lia].
        destruct (Z.leb_spec d 15); [reflexivity | lia].
      * destruct (dated self) as [|v vs] eqn:D.
        -- eexists. now apply plan_without_dated.
        -- destruct (plan_with_dated self n d H2) as (anchor & _ & P);
             [rewrite D; discriminate | exact Hp |].
           eexists. exact P.
  - intros point E.
    destruct (plan_shapes self n d point Hn E)
      as [[-> ->]|[(-> & R & ->)|(H2 & A & [(anchor & I & ->)|[_ ->]])]];
      cbn [fresh_start_point scroll_offset_point video_anchor_point
           deep_scroll_point scroll_offset expected_scroll_depth strategy
           date_filter_active target_date_range anchor_video_id].
    + split; [lia|]. split; [tauto|]. split; [simpl; tauto|].
      repeat split; try congruence; discriminate.
    + split; [lia|]. split; [lia|]. split; [simpl; tauto|].
      repeat split; try congruence; discriminate.
    + split; [lia|]. split; [lia|]. split; [simpl; tauto|].
      repeat split; try congruence; try discriminate.
      intros id Eid. injection Eid as <-. exists anchor.
      unfold dated in I. apply filter_In in I. destruct I as [I T].
      split; [exact I|]. split; [reflexivity|]. split; [|reflexivity].
      intros C. rewrite C in T. discriminate.
    + split; [lia|]. split; [lia|]. split; [simpl; tauto|].
      repeat split; try congruence; discriminate.
Qed.

Lemma plan_invariants_witness :
  exists point,
    _calculate_advanced_continuation_point sample_harvester 3 0 = Ok point /\
    anchor_video_id point = Some "a" /\ scroll_offset point = 36.
Proof.
  destruct (plan_invariants sample_harvester 3 0) as [D I]; [lia|].
  destruct D as [_ D].
  destruct D as (point & E).
  { right. split; [reflexivity|]. right. split; [lia | discriminate]. }
  exists point. split; [exact E|].
  destruct (I point E) as (_ & _ & _ & _ & _ & _ & A).
  vm_compute in E. injection E as <-. split; reflexivity.
Defined.

End Configuration.

(** ** The pause after a session *)

Section Pause.
Local Open Scope Q_scope.

Lemma Qtrunc_Z k : Qtrunc (inject_Z k) = k.
Proof. unfold Qtrunc, inject_Z. cbn [Qnum Qden]. apply Z.quot_1_r. Qed.

(** A lower bound of the gap: when the base draw is at least [c] and the
    product of [c] and the multiplier is at least the integer [k], the
    gap is at least [k], clamped. *)
Lemma clamped_gap_at_least self base_draw m (c k : Z) :
  (session_gap_min self <= base_draw <= session_gap_max self)%Z ->
  (0 <= c <= base_draw)%Z -> (base_draw <= 2 ^ 63)%Z ->
  round (inject_Z c) = Fin (inject_Z c) ->
  round (inject_Z k) = Fin (inject_Z k) ->
  0 <= m -> m <= 32 ->
  inject_Z k <= inject_Z c * m ->
  exists gap,
    clamped_gap self base_draw (Fin m) = Ok gap /\
    (Z.min (Z.max k 30) 300 <= gap <= 300)%Z.
Proof.
  intros Hw Hc Hb Rc Rk M0 M1 Hk.
  unfold clamped_gap. rewrite randint_in by exact Hw. cbn [bind].
  destruct (round_between (inject_Z c) (inject_Z (2 ^ 63)) (inject_Z base_draw)
              (inject_Z c) (inject_Z (2 ^ 63)))
    as (b & Eb & Lb & Ub);
    [rewrite <- Zle_Qle; lia | rewrite <- Zle_Qle; lia | exact Rc
     | vm_compute; reflexivity |].
  unfold of_int. rewrite Eb. cbn [bind fmul].
  assert (C0 : 0 <= inject_Z c).
  { change 0 with (inject_Z 0). rewrite <- Zle_Qle. lia. }
  assert (P1 : inject_Z k <= b * m) by nra.
  assert (T : inject_Z (2 ^ 63) * 32 == inject_Z (2 ^ 68))
    by (vm_compute; reflexivity).
  assert (P2 : b * m <= inject_Z (2 ^ 68)) by (rewrite <- T; nra).
  destruct (round_between (inject_Z k) (inject_Z (2 ^ 68)) (b * m)
              (inject_Z k) (inject_Z (2 ^ 68)))
    as (z & Ez & Lz & Uz);
    [exact P1 | exact P2 | exact Rk | vm_compute; reflexivity |].
  rewrite Ez. cbn [to_int bind]. eexists. split; [reflexivity|].
  pose proof (Qtrunc_mono _ _ Lz) as Q. rewrite Qtrunc_Z in Q. lia.
Qed.

Lemma config_hint_late self session_num offset_draw scroll_draw config :
  (2 <= session_num)%Z ->
  _generate_session_config self session_num offset_draw scroll_draw =
    Ok config ->
  config_gap_multiplier config = Fin (5 # 2).
Proof.
  intros H2 E. unfold _generate_session_config in E.
  destruct (_calculate_advanced_continuation_point _ _ _) as [point|e];
    [|discriminate].
  cbn [bind] in E.
  destruct (if String.eqb (strategy point) "fresh_start" then _ else _)
    as [count|e]; [|discriminate].
  cbn [bind] in E. injection E as <-. cbn [config_gap_multiplier].
  destruct (Z.leb_spec 2 session_num); [reflexivity | lia].
Qed.

(** X7. From the third session of a run on, the multiplier 2.5 of the
    configuration meets the multiplier 2.5 that the gap applies once two
    sessions are recorded: for a base draw of 30 seconds or more the
    pause is at least 187 seconds, it is the maximum of 300 seconds for a
    base draw of 48 or more, and it is 300 seconds for every base draw
    when the success rate has just dropped by more than 10 points. *)
Theorem pause_from_third_session :
  forall (self later : SmartHarvester)
         (session_num offset_draw scroll_draw base_draw : Z)
         (config : session_config),
    (2 <= session_num)%Z ->
    _generate_session_config self session_num offset_draw scroll_draw =
      Ok config ->
    (2 <= List.length (sessions later))%nat ->
    (session_gap_min later <= base_draw <= session_gap_max later)%Z ->
    (30 <= base_draw <= 2 ^ 63)%Z ->
    exists gap,
      _calculate_session_gap later base_draw (config_gap_multiplier config) =
        Ok gap /\
      (187 <= gap <= 300)%Z /\
      ((48 <= base_draw)%Z -> gap = 300%Z) /\
      (forall pre s0 s1,
          sessions later = pre ++ [s0; s1] -> degradation s0 s1 = true ->
          gap = 300%Z).
Proof.
  intros self later n od sd base config H2 E L Hw Hb.
  rewrite (config_hint_late self n od sd config H2 E).
  destruct (two_last _ L) as (pre & s0 & s1 & S).
  rewrite (gap_two_sessions later base _ pre s0 s1 S).
  assert (R30 : round (inject_Z 30) = Fin (inject_Z 30))
    by (vm_compute; reflexivity).
  assert (R48 : round (inject_Z 48) = Fin (inject_Z 48))
    by (vm_compute; reflexivity).
  assert (R187 : round (inject_Z 187) = Fin (inject_Z 187))
    by (vm_compute; reflexivity).
  assert (R300 : round (inject_Z 300) = Fin (inject_Z 300))
    by (vm_compute; reflexivity).
  assert (A0 : 0 <= 25 # 4) by (vm_compute; discriminate).
  assert (A1 : 25 # 4 <= 32) by (vm_compute; discriminate).
  assert (B0 : 0 <= 75 # 4) by (vm_compute; discriminate).
  assert (B1 : 75 # 4 <= 32) by (vm_compute; discriminate).
  assert (P1 : inject_Z 300 <= inject_Z 30 * (75 # 4))
    by (vm_compute; discriminate).
  assert (P2 : inject_Z 187 <= inject_Z 30 * (25 # 4))
    by (vm_compute; discriminate).
  assert (P3 : inject_Z 300 <= inject_Z 48 * (25 # 4))
    by (vm_compute; discriminate).
  assert (C30 : (0 <= 30 <= base)%Z) by lia.
  assert (U : (base <= 2 ^ 63)%Z) by lia.
  destruct (degradation s0 s1) eqn:D.
  - change (fmul (fmul (Fin (5 # 2)) (lit 3)) (lit (5 # 2)))
      with (Fin (75 # 4)).
    destruct (clamped_gap_at_least later base (75 # 4) 30 300
                Hw C30 U R30 R300 B0 B1 P1) as (gap & G & B).
    exists gap. split; [exact G|]. split; [lia|]. split; [lia|].
    intros; lia.
  - change (fmul (Fin (5 # 2)) (lit (5 # 2))) with (Fin (25 # 4)).
    destruct (clamped_gap_at_least later base (25 # 4) 30 187
                Hw C30 U R30 R187 A0 A1 P2) as (gap & G & B).
    exists gap. split; [exact G|]. split; [lia|]. split.
    + intros H48.
      assert (C48 : (0 <= 48 <= base)%Z) by lia.
      destruct (clamped_gap_at_least later base (25 # 4) 48 300
                  Hw C48 U R48 R300 A0 A1 P3) as (gap' & G' & B').
      rewrite G in G'. injection G' as <-. lia.
    + intros pre' t0 t1 S' D'. rewrite S in S'.
      assert (S2 : (pre ++ [s0]) ++ [s1] = (pre' ++ [t0]) ++ [t1])
        by (rewrite <- !app_assoc; exact S').
      apply app_inj_tail_iff in S2. destruct S2 as [S2 <-].
      apply app_inj_tail_iff in S2. destruct S2 as [_ <-].
      congruence.
Qed.

Lemma pause_from_third_session_witness :
  exists config gap,
    _generate_session_config sample_harvester 2 0 14 = Ok config /\
    _calculate_session_gap sample_harvester 50 (config_gap_multiplier config) =
      Ok gap /\
    gap = 300%Z.
Proof.
  destruct (_generate_session_config sample_harvester 2 0 14)
    as [config|e] eqn:E; [|vm_compute in E; discriminate].
  destruct (pause_from_third_session sample_harvester sample_harvester
              2 0 14 50 config) as (gap & G & _ & H & _);
    [lia | exact E | simpl; lia | simpl; lia | lia |].
  exists config, gap. split; [reflexivity|]. split; [exact G|].
  apply H. lia.
Defined.

End Pause.

(** ** A run of sessions *)

Section Run.

Lemma same_settings_refl self : same_settings self self.
Proof. now repeat split. Qed.

Lemma same_settings_trans a b c :
  same_settings a b -> same_settings b c -> same_settings a c.
Proof.
  intros (A1 & A2 & A3 & A4) (B1 & B2 & B3 & B4).
  repeat split; congruence.
Qed.

(** The update of the statistics touches the statistics only; when it
    does not raise the statistics are those of [stats_after]. *)
Lemma update_stats_effect session self :
  let r := update_stats session self in
  sessions (snd r) = sessions self /\
  all_videos (snd r) = all_videos self /\
  same_settings self (snd r) /\
  (fst r = Ok tt ->
   exists time,
     PyNum.add (total_time (harvest_stats self)) (completion_time session) =
       Ok time /\
     harvest_stats (snd r) =
       stats_after (harvest_stats self) (len (all_videos self)) time session).
Proof.
  unfold update_stats, set_stats, mbind, update, read.
  cbn [set_harvest_stats harvest_stats sessions all_videos total_time
       total_sessions total_videos unique_videos average_success_rate
       stats_total_score best_session_score last_harvest].
  destruct (PyNum.add _ _) as [time|e];
    cbn [fst snd set_harvest_stats harvest_stats sessions all_videos
         total_time total_sessions total_videos unique_videos
         average_success_rate stats_total_score best_session_score
         last_harvest].
  - split; [reflexivity|]. split; [reflexivity|].
    split; [now repeat split|].
    intros _. exists time. split; [reflexivity|].
    unfold stats_after. f_equal.
    destruct (Z.ltb_spec (best_session_score (harvest_stats self))
                (total_score session)); lia.
  - split; [reflexivity|]. split; [reflexivity|].
    split; [now repeat split|]. discriminate.
Qed.

Ltac no_pause :=
  exists []; rewrite app_nil_r;
  split; [reflexivity|]; split; [simpl; lia | constructor].

(** What one turn of the loop does. *)
Lemma run_iteration_effect num_sessions session_num env st :
  let r := run_iteration num_sessions session_num env st in
  let h := harvester st in
  let h' := harvester (snd r) in
  same_settings h h' /\
  (exists more,
     pauses (snd r) = pauses st ++ more /\
     (List.length more <= 1)%nat /\ Forall pause_in_range more) /\
  (all_videos h' = merged (merge_videos (all_videos h) (scraped_videos env)) \/
   (exists e, fst r = Raise e /\ all_videos h' = all_videos h)) /\
  ((sessions h' = sessions h /\
    successful_sessions (snd r) = successful_sessions st /\
    all_videos h' = all_videos h /\
    harvest_stats h' = harvest_stats h /\
    file (snd r) = file st) \/
   (exists session,
      record_of env session /\
      sessions h' = sessions h ++ [session] /\
      successful_sessions (snd r) = successful_sessions st + 1 /\
      all_videos h' =
        merged (merge_videos (all_videos h) (scraped_videos env)) /\
      (fst r = Ok tt ->
       (exists time,
          harvest_stats h' =
            stats_after (harvest_stats h) (len (all_videos h')) time session) /\
       file (snd r) =
         snd (_save_harvest_results h' (saved_at env) (write env))))).
Proof.
  cbv zeta. unfold run_iteration.
  destruct (_generate_session_config _ _ _ _) as [config|e].
  2:{ cbn [fst snd]. split; [apply same_settings_refl|]. split.
      - no_pause.
      - split; [right; exists e; now split|]. left. now repeat split. }
  destruct (scraped env) as [videos|e] eqn:S.
  - destruct (session_with_scrape config env (harvester st) videos S)
      as (session & R & _ & T & F & C & _ & _ & P).
    rewrite R.
    assert (SV : scraped_videos env = videos)
      by (unfold scraped_videos; now rewrite S).
    assert (Rec : record_of env session).
    { unfold record_of. rewrite SV. now repeat split. }
    pose proof (update_stats_effect session
                  (after_session (harvester st) videos session)) as U.
    cbv zeta in U.
    destruct (update_stats session _) as [[u|e] h2];
      cbn [fst snd] in U; destruct U as (Us & Ua & Uset & Ust).
    + assert (St : exists time,
                 harvest_stats h2 =
                   stats_after (harvest_stats (harvester st))
                     (len (all_videos
                             (after_session (harvester st) videos session)))
                     time session).
      { destruct Ust as (time & _ & ->); [now destruct u|].
        now exists time. }
      destruct (session_num <? num_sessions - 1).
      * destruct (_calculate_session_gap h2 _ _) as [gap|e] eqn:G.
        -- destruct (_calculate_advanced_continuation_point h2 _ _)
             as [point|e]; cbn [fst snd harvester pauses file
                                successful_sessions];
             (split; [exact Uset|]); split.
           ++ exists [gap]. split; [reflexivity|]. split; [simpl; lia|].
              constructor; [|constructor].
              unfold pause_in_range. now apply gap_in_range in G.
           ++ rewrite Ua, Us, SV. split; [now left|]. right.
              exists session. split; [exact Rec|].
              do 3 (split; [reflexivity|]).
              intros _. split; [exact St | reflexivity].
           ++ no_pause.
           ++ rewrite Ua, Us, SV. split; [now left|]. right.
              exists session. split; [exact Rec|].
              do 3 (split; [reflexivity|]).
              intros H. discriminate H.
        -- cbn [fst snd harvester pauses file successful_sessions].
           split; [exact Uset|]. split.
           ++ no_pause.
           ++ rewrite Ua, Us, SV. split; [now left|]. right.
              exists session. split; [exact Rec|].
              do 3 (split; [reflexivity|]).
              intros H. discriminate H.
      * cbn [fst snd harvester pauses file successful_sessions].
        split; [exact Uset|]. split.
        -- no_pause.
        -- rewrite Ua, Us, SV. split; [now left|]. right.
           exists session. split; [exact Rec|].
              do 3 (split; [reflexivity|]).
              intros _. split; [exact St | reflexivity].
    + cbn [fst snd harvester pauses file successful_sessions].
      split; [exact Uset|]. split.
      * no_pause.
      * rewrite Ua, Us, SV. split; [now left|]. right.
        exists session. split; [exact Rec|].
              do 3 (split; [reflexivity|]).
              intros H. discriminate H.
  - rewrite (session_without_scrape config env (harvester st) e S).
    assert (SV : scraped_videos env = [])
      by (unfold scraped_videos; now rewrite S).
    destruct (Py.randint 60 180 (recovery_draw env)) as [pause|e'] eqn:P;
      cbn [fst snd harvester pauses file successful_sessions];
      (split; [apply same_settings_refl|]); split.
    + exists [pause]. split; [reflexivity|]. split; [simpl; lia|].
      constructor; [|constructor]. apply randint_range in P.
      unfold pause_in_range. lia.
    + rewrite SV. split; [now left|]. left. now repeat split.
    + no_pause.
    + rewrite SV. split; [now left|]. left. now repeat split.
Qed.

Lemma stats_advance_nil stats : stats_advance stats [] stats.
Proof. unfold stats_advance. simpl. repeat split; lia. Qed.

Lemma stats_advance_cons old unique time session rest stats :
  stats_advance (stats_after old unique time session) rest stats ->
  stats_advance old (session :: rest) stats.
Proof.
  unfold stats_advance, stats_after.
  cbn [total_sessions total_videos stats_total_score best_session_score
       last_harvest map total fold_right fold_left List.length].
  intros (A & B & C & D & E). rewrite A, B, C, D, E.
  repeat split; try reflexivity; unfold total; lia.
Qed.

(** What the loop does: it starts the sessions of a prefix of [envs]. *)
Lemma run_loop_effect num_sessions target envs : forall session_num st,
  let r := run_loop num_sessions target session_num envs st in
  exists (k : nat) (new : list HarvestSession) (more : list Z),
    (k <= List.length envs)%nat /\
    (List.length more <= List.length envs)%nat /\
    progress st (snd r) (firstn k envs) new more /\
    (fst r = Ok tt ->
     stats_advance (harvest_stats (harvester st)) new
       (harvest_stats (harvester (snd r))) /\
     (new = [] ->
      harvest_stats (harvester (snd r)) = harvest_stats (harvester st)) /\
     (new <> [] ->
      unique_videos (harvest_stats (harvester (snd r))) =
        len (all_videos (harvester (snd r))))).
Proof.
  assert (Stay : forall st (l : list session_env),
             exists (k : nat) (new : list HarvestSession) (more : list Z),
               (k <= List.length l)%nat /\
               (List.length more <= List.length l)%nat /\
               progress st st (firstn k l) new more /\
               (stats_advance (harvest_stats (harvester st)) new
                  (harvest_stats (harvester st)) /\
                (new = [] -> harvest_stats (harvester st) =
                             harvest_stats (harvester st)) /\
                (new <> [] ->
                 unique_videos (harvest_stats (harvester st)) =
                   len (all_videos (harvester st))))).
  { intros st l. exists 0%nat, [], []. cbn [firstn List.length].
    split; [lia|]. split; [lia|]. split.
    - unfold progress. cbn [map List.length]. rewrite !app_nil_r.
      split; [apply same_settings_refl|]. split; [reflexivity|].
      split; [lia|]. split; [lia|]. split; [constructor|].
      split; [reflexivity|]. split; [reflexivity|].
      split; [reflexivity | constructor].
    - split; [apply stats_advance_nil|]. split; [reflexivity|].
      intros C. now contradiction C. }
  induction envs as [|env envs IH]; intros n st.
  - cbn [run_loop fst snd].
    destruct (Stay st []) as (k & new & more & A & B & C & D).
    exists k, new, more. auto.
  - cbn [run_loop].
    destruct (target <=? len (all_videos (harvester st))).
    + cbn [fst snd].
      destruct (Stay st (env :: envs)) as (k & new & more & A & B & C & D).
      exists k, new, more. auto.
    + pose proof (run_iteration_effect num_sessions n env st) as E.
      cbv zeta in E.
      destruct (run_iteration num_sessions n env st) as [[u|e] st1];
        cbn [fst snd] in E;
        destruct E as (Set1 & (more1 & P1 & L1 & F1) & All1 & Rec1).
      * (* the turn returns, the loop goes on *)
        specialize (IH (n + 1) st1). cbv zeta in IH.
        destruct (run_loop num_sessions target (n + 1) envs st1)
          as [r st2]; cbn [fst snd] in IH |- *.
        destruct IH as (k & new & more & Hk & Hm & Pr & St).
        destruct Pr as (Set2 & S2 & N2 & Ln & Fn & A2 & An & P2 & F2).
        assert (A1 : all_videos (harvester st1) =
                     merged (merge_videos (all_videos (harvester st))
                               (scraped_videos env))).
        { destruct All1 as [A|(e & C & _)]; [exact A | discriminate C]. }
        destruct Rec1 as [(S1 & N1 & A1' & H1 & _)
                         |(session & R & S1 & N1 & _ & H1)].
        -- exists (S k), new, (more1 ++ more).
           cbn [firstn List.length map].
           split; [lia|]. split; [rewrite length_app; lia|]. split.
           ++ unfold progress.
              split; [eapply same_settings_trans; eassumption|].
              split; [now rewrite S2, S1|]. split; [lia|].
              split; [cbn [List.length]; lia|]. split.
              { eapply Forall_impl; [|exact Fn].
                intros s (env' & I & R). exists env'. split; [now right|].
                exact R. }
              split; [rewrite A2, A1; reflexivity|].
              split; [intros C; now rewrite (An C)|].
              split; [now rewrite P2, P1, app_assoc|].
              apply Forall_app. now split.
           ++ intros Hr. destruct (St Hr) as (SA & SN & SU).
              rewrite <- H1. split; [exact SA|]. split; [exact SN|].
              exact SU.
        -- exists (S k), (session :: new), (more1 ++ more).
           cbn [firstn List.length map].
           split; [lia|]. split; [rewrite length_app; lia|]. split.
           ++ unfold progress.
              split; [eapply same_settings_trans; eassumption|].
              split; [now rewrite S2, S1, <- app_assoc|].
              split; [cbn [List.length]; lia|].
              split; [cbn [List.length]; lia|]. split.
              { constructor.
                - exists env. split; [now left | exact R].
                - eapply Forall_impl; [|exact Fn].
                  intros s (env' & I & R'). exists env'.
                  split; [now right | exact R']. }
              split; [rewrite A2, A1; reflexivity|].
              split; [discriminate|].
              split; [now rewrite P2, P1, app_assoc|].
              apply Forall_app. now split.
           ++ intros Hr. destruct (St Hr) as (SA & SN & SU).
              destruct H1 as ((time & H1) & _); [now destruct u|].
              rewrite H1 in SA, SN.
              split; [eapply stats_advance_cons; exact SA|].
              split; [discriminate|]. intros _.
              destruct new as [|s new].
              ** rewrite (An eq_refl). rewrite (SN eq_refl). reflexivity.
              ** apply SU. discriminate.
      * (* the turn raises, the loop ends *)
        cbn [fst snd].
        destruct Rec1 as [(S1 & N1 & A1' & H1 & _)
                         |(session & R & S1 & N1 & A1 & _)].
        -- exists 0%nat, [], more1. cbn [firstn List.length map].
           split; [lia|]. split; [lia|]. split; [|discriminate].
           unfold progress. split; [exact Set1|].
           split; [now rewrite S1, app_nil_r|].
           split; [cbn [List.length]; lia|]. split; [cbn [List.length]; lia|].
           split; [constructor|]. split; [exact A1'|].
           split; [intros _; exact A1'|]. split; [exact P1 | exact F1].
        -- exists 1%nat, [session], more1. cbn [firstn List.length map].
           split; [lia|]. split; [lia|]. split; [|discriminate].
           unfold progress. split; [exact Set1|].
           split; [exact S1|].
           split; [cbn [List.length]; lia|]. split; [cbn [List.length]; lia|].
           split.
           { constructor; [|constructor]. exists env. split; [now left|].
             exact R. }
           split; [exact A1|]. split; [discriminate|].
           split; [exact P1 | exact F1].
Qed.

(** What the end of a run adds to the loop: the time and the average in
    the statistics, and the last save. *)
Lemma run_smart_harvest_effect target envs fin self file0 :
  let l := run_loop (Z.of_nat (List.length envs)) target 0 envs
             (mkRunState self file0 0 []) in
  let r := run_smart_harvest target envs fin self file0 in
  let old := harvest_stats (harvester (snd l)) in
  let stats := harvest_stats (harvester (snd r)) in
  sessions (harvester (snd r)) = sessions (harvester (snd l)) /\
  all_videos (harvester (snd r)) = all_videos (harvester (snd l)) /\
  same_settings (harvester (snd l)) (harvester (snd r)) /\
  successful_sessions (snd r) = successful_sessions (snd l) /\
  pauses (snd r) = pauses (snd l) /\
  (fst r = Ok tt ->
   fst l = Ok tt /\
   file (snd r) =
     snd (_save_harvest_results (harvester (snd r)) (final_saved_at fin)
            (final_write fin)) /\
   total_sessions stats = total_sessions old /\
   total_videos stats = total_videos old /\
   unique_videos stats = unique_videos old /\
   stats_total_score stats = stats_total_score old /\
   best_session_score stats = best_session_score old /\
   last_harvest stats = last_harvest old /\
   total_time stats = PFloat (total_harvest_time fin) /\
   (successful_sessions (snd l) <= 0 ->
    average_success_rate stats = average_success_rate old) /\
   (0 < successful_sessions (snd l) ->
    average (map success_rate
               (Py.last_items (Z.to_nat (successful_sessions (snd l)))
                  (sessions (harvester (snd l))))) =
      Ok (average_success_rate stats))).
Proof.
  cbv zeta. unfold run_smart_harvest.
  destruct (run_loop _ _ _ _ _) as [[u|e] st]; cbn [fst snd].
  - destruct (Z.ltb_spec 0 (successful_sessions st)) as [P|P].
    + destruct (average _) as [avg|e] eqn:A;
        cbn [fst snd harvester sessions all_videos set_harvest_stats
             successful_sessions pauses file harvest_stats total_sessions
             total_videos unique_videos stats_total_score best_session_score
             last_harvest total_time average_success_rate].
      * do 2 (split; [reflexivity|]). split; [now repeat split|].
        do 2 (split; [reflexivity|]). intros _.
        split; [now destruct u|]. do 8 (split; [reflexivity|]).
        split; [lia|]. intros _. reflexivity.
      * do 2 (split; [reflexivity|]). split; [now repeat split|].
        do 2 (split; [reflexivity|]). discriminate.
    + cbn [fst snd harvester sessions all_videos set_harvest_stats
           successful_sessions pauses file harvest_stats total_sessions
           total_videos unique_videos stats_total_score best_session_score
           last_harvest total_time average_success_rate].
      do 2 (split; [reflexivity|]). split; [now repeat split|].
      do 2 (split; [reflexivity|]). intros _.
      split; [now destruct u|]. do 8 (split; [reflexivity|]).
      split; [reflexivity|]. lia.
  - do 2 (split; [reflexivity|]). split; [apply same_settings_refl|].
    do 2 (split; [reflexivity|]). discriminate.
Qed.

Lemma In_firstn {A : Type} (k : nat) (l : list A) x :
  In x (firstn k l) -> In x l.
Proof.
  intros H. rewrite <- (firstn_skipn k l). apply in_or_app. now left.
Qed.

Lemma last_items_app {A : Type} (l new : list A) :
  Py.last_items (List.length new) (l ++ new) = new.
Proof.
  unfold Py.last_items. rewrite length_app.
  replace (List.length l + List.length new - List.length new)%nat
    with (List.length l) by lia.
  rewrite skipn_app, skipn_all, Nat.sub_diag. reflexivity.
Qed.


(** X9. After a run, however it ends, the corpus is the merge, batch after
    batch, of what the sessions that were started scraped, into the
    corpus before the run.  So every video stored before the run is
    stored after it, unchanged, the corpus does not shrink, it stays a
    dictionary, and the settings of the harvester are as before. *)
Theorem run_corpus_is_merge_of_batches :
  forall (target : Z) (envs : list session_env) (fin : final_env)
         (self : SmartHarvester) (file0 : disk),
    let st := snd (run_smart_harvest target envs fin self file0) in
    (exists k,
       (k <= List.length envs)%nat /\
       all_videos (harvester st) =
         merge_sessions (all_videos self)
           (map scraped_videos (firstn k envs))) /\
    (forall id v,
        get (all_videos self) id = Some v ->
        get (all_videos (harvester st)) id = Some v) /\
    len (all_videos self) <= len (all_videos (harvester st)) /\
    (wf (all_videos self) -> wf (all_videos (harvester st))) /\
    same_settings self (harvester st).
Proof.
  intros target envs fin self file0 st.
  pose proof (run_smart_harvest_effect target envs fin self file0) as W.
  cbv zeta in W. fold st in W. destruct W as (_ & Wa & Wset & _).
  pose proof (run_loop_effect (Z.of_nat (List.length envs)) target envs 0
                (mkRunState self file0 0 [])) as L.
  cbv zeta in L. destruct L as (k & new & more & Hk & _ & Pr & _).
  destruct Pr as (Set1 & _ & _ & _ & _ & A & _).
  cbn [harvester] in A, Set1. rewrite Wa, A.
  split; [exists k; now split|]. split; [|split; [|split]].
  - intros id v G. now rewrite merge_sessions_get, G.
  - rewrite !len_length, merge_sessions_keys, length_app. lia.
  - intros Hwf. unfold wf. rewrite merge_sessions_keys.
    now apply fresh_ids_spec.
  - eapply same_settings_trans; eassumption.
Qed.

(** X10. After a run that returns, the statistics count the sessions that
    returned: their number, the videos they found, their scores and the
    best score add to what the statistics held; the number of stored
    videos is the size of the corpus once a session has returned; the
    total time is the time of this run alone, whatever was there before;
    and the average success rate is the mean of the rates of the new
    records. *)
Theorem run_statistics :
  forall (target : Z) (envs : list session_env) (fin : final_env)
         (self : SmartHarvester) (file0 : disk) (st : run_state),
    run_smart_harvest target envs fin self file0 = (Ok tt, st) ->
    exists new,
      sessions (harvester st) = sessions self ++ new /\
      stats_advance (harvest_stats self) new (harvest_stats (harvester st)) /\
      total_time (harvest_stats (harvester st)) =
        PFloat (total_harvest_time fin) /\
      (new = [] ->
       unique_videos (harvest_stats (harvester st)) =
         unique_videos (harvest_stats self) /\
       average_success_rate (harvest_stats (harvester st)) =
         average_success_rate (harvest_stats self)) /\
      (new <> [] ->
       unique_videos (harvest_stats (harvester st)) =
         len (all_videos (harvester st)) /\
       average (map success_rate new) =
         Ok (average_success_rate (harvest_stats (harvester st)))).
Proof.
  intros target envs fin self file0 st E.
  pose proof (run_smart_harvest_effect target envs fin self file0) as W.
  cbv zeta in W. rewrite E in W. cbn [fst snd] in W.
  destruct W as (Ws & Wa & _ & Wn & _ & W). specialize (W eq_refl).
  destruct W as (Lok & _ & T1 & T2 & T3 & T4 & T5 & T6 & T7 & A0 & A1).
  pose proof (run_loop_effect (Z.of_nat (List.length envs)) target envs 0
                (mkRunState self file0 0 [])) as L.
  cbv zeta in L. destruct L as (k & new & more & _ & _ & Pr & St).
  destruct (St Lok) as ((B1 & B2 & B3 & B4 & B5) & SN & SU).
  destruct Pr as (_ & S & N & _).
  cbn [harvester successful_sessions] in S, N, B1, B2, B3, B4, B5, SN, SU.
  exists new. split; [now rewrite Ws|]. split.
  - unfold stats_advance. rewrite T1, T2, T4, T5, T6.
    now repeat split.
  - split; [exact T7|]. split.
    + intros ->. cbn [List.length] in N. rewrite T3, (SN eq_refl).
      split; [reflexivity|]. rewrite A0 by lia. now rewrite (SN eq_refl).
    + intros Hne. rewrite T3, Wa. split; [now apply SU|].
      rewrite <- A1.
      * rewrite N, S. cbn [Z.add]. rewrite Nat2Z.id, last_items_app.
        reflexivity.
      * destruct new; [contradiction | cbn [List.length] in N; lia].
Qed.

Lemma run_statistics_witness :
  exists st,
    run_smart_harvest 300 [sample_env (videos_numbered 0 2) Written]
      sample_final fresh_harvester NoFile = (Ok tt, st) /\
    total_sessions (harvest_stats (harvester st)) = 1 /\
    total_videos (harvest_stats (harvester st)) = 2 /\
    unique_videos (harvest_stats (harvester st)) = 2.
Proof.
  destruct (run_smart_harvest 300 [sample_env (videos_numbered 0 2) Written]
              sample_final fresh_harvester NoFile) as [r st] eqn:E.
  assert (R : r = Ok tt) by (vm_compute in E; congruence).
  subst r. exists st. split; [reflexivity|].
  destruct (run_statistics _ _ _ _ _ _ E) as (new & S & (A & B & _) & _ & _ & U).
  assert (N : new = [List.last (sessions (harvester st)) sample_session]).
  { vm_compute in E. injection E as <-. cbn [harvester sessions] in S |- *.
    destruct new as [|s [|t new]]; try discriminate S.
    injection S as <-. reflexivity. }
  assert (St : st = snd (run_smart_harvest 300
                           [sample_env (videos_numbered 0 2) Written]
                           sample_final fresh_harvester NoFile))
    by now rewrite E.
  destruct U as [U _]; [rewrite N; discriminate|].
  rewrite A, B, U, N. rewrite St. vm_compute. repeat split.
Defined.

(** X11. Every pause of a run is between 30 and 300 seconds, and a run
    pauses at most once for each of its sessions. *)
Theorem run_pauses_in_range :
  forall (target : Z) (envs : list session_env) (fin : final_env)
         (self : SmartHarvester) (file0 : disk),
    let st := snd (run_smart_harvest target envs fin self file0) in
    Forall pause_in_range (pauses st) /\
    (List.length (pauses st) <= List.length envs)%nat.
Proof.
  intros target envs fin self file0 st.
  pose proof (run_smart_harvest_effect target envs fin self file0) as W.
  cbv zeta in W. fold st in W. destruct W as (_ & _ & _ & _ & Wp & _).
  pose proof (run_loop_effect (Z.of_nat (List.length envs)) target envs 0
                (mkRunState self file0 0 [])) as L.
  cbv zeta in L. destruct L as (k & new & more & _ & Lm & Pr & _).
  destruct Pr as (_ & _ & _ & _ & _ & _ & _ & P & F).
  cbn [pauses app] in P. rewrite Wp, P. now split.
Qed.

(** A run keeps the invariant of the harvester when the clock gives
    dates. *)
Lemma run_well_formed target envs fin self file0 :
  well_formed self ->
  Forall (fun env => Datetime.valid (finished_at env)) envs ->
  well_formed (harvester (snd (run_smart_harvest target envs fin self file0))).
Proof.
  intros [Hw Hv] Hc.
  pose proof (run_smart_harvest_effect target envs fin self file0) as W.
  cbv zeta in W. destruct W as (Ws & Wa & _).
  pose proof (run_loop_effect (Z.of_nat (List.length envs)) target envs 0
                (mkRunState self file0 0 [])) as L.
  cbv zeta in L. destruct L as (k & new & more & _ & _ & Pr & _).
  destruct Pr as (_ & S & _ & _ & Fn & A & _).
  cbn [harvester] in S, A. split.
  - rewrite Wa, A. unfold wf. rewrite merge_sessions_keys.
    now apply fresh_ids_spec.
  - rewrite Ws, S. apply Forall_app. split; [exact Hv|].
    eapply Forall_impl; [|exact Fn].
    intros s (env & I & R). apply In_firstn in I.
    destruct R as (_ & T & _). rewrite T.
    rewrite Forall_forall in Hc. now apply Hc.
Qed.

(** X12. When a run returns and its last write succeeds, the file holds the
    document of the harvester at the end of the run, and a harvester
    constructed from that file (a restart) has the same corpus, entry for
    entry, and the same history of sessions; its statistics are those of
    the run, with the number of sessions and of stored videos counted
    from the history and the corpus. *)
Theorem restart_resumes_from_saved_run :
  forall (target : Z) (envs : list session_env) (fin : final_env)
         (self : SmartHarvester) (file0 : disk) (st : run_state),
    well_formed self ->
    Forall (fun env => Datetime.valid (finished_at env)) envs ->
    final_write fin = Written ->
    run_smart_harvest target envs fin self file0 = (Ok tt, st) ->
    let restarted := snd (SmartHarvester_init (file st)) in
    file st = Document (harvest_data (harvester st) (final_saved_at fin)) /\
    fst (SmartHarvester_init (file st)) = Ok restarted /\
    all_videos restarted = all_videos (harvester st) /\
    sessions restarted = sessions (harvester st) /\
    harvest_stats restarted =
      mkHarvestStats
        (Z.of_nat (List.length (sessions (harvester st))))
        (total_videos (harvest_stats (harvester st)))
        (len (all_videos (harvester st)))
        (total_time (harvest_stats (harvester st)))
        (average_success_rate (harvest_stats (harvester st)))
        (stats_total_score (harvest_stats (harvester st)))
        (best_session_score (harvest_stats (harvester st)))
        (Datetime.isoformat (final_saved_at fin)).
Proof.
  intros target envs fin self file0 st Hwf Hc Hw E restarted.
  pose proof (run_well_formed target envs fin self file0 Hwf Hc) as [W V].
  pose proof (run_smart_harvest_effect target envs fin self file0) as X.
  cbv zeta in X. rewrite E in *. cbn [fst snd] in *.
  destruct X as (_ & _ & _ & _ & _ & X). specialize (X eq_refl).
  destruct X as (_ & F & _).
  rewrite Hw in F. cbn [_save_harvest_results save_body snd] in F.
  assert (R : SmartHarvester_init (file st) =
              (Ok (reloaded (harvester st) (final_saved_at fin)),
               reloaded (harvester st) (final_saved_at fin))).
  { rewrite F. unfold SmartHarvester_init, _load_harvest_history, mtry.
    fold fresh_harvester. now rewrite (load_saved _ _ W V). }
  unfold restarted. rewrite R. cbn [fst snd].
  split; [exact F|]. now repeat split.
Qed.

Lemma restart_resumes_from_saved_run_witness :
  let run :=
    run_smart_harvest 300 [sample_env (videos_numbered 0 2) Written]
      sample_final fresh_harvester NoFile in
  fst run = Ok tt /\
  keys (all_videos (snd (SmartHarvester_init (file (snd run))))) = ["0"; "1"] /\
  List.length (sessions (snd (SmartHarvester_init (file (snd run))))) = 1%nat.
Proof.
  intros run.
  assert (E : run = (Ok tt, snd run)) by (vm_compute; reflexivity).
  split; [now rewrite E|].
  destruct (restart_resumes_from_saved_run 300
              [sample_env (videos_numbered 0 2) Written] sample_final
              fresh_harvester NoFile (snd run)) as (_ & _ & A & S & _).
  - split; [constructor | constructor].
  - repeat constructor.
  - reflexivity.
  - exact E.
  - rewrite A, S. vm_compute. split; reflexivity.
Defined.

Lemma config_empty_corpus self session_num offset_draw scroll_draw :
  2 <= session_num -> all_videos self = [] ->
  _generate_session_config self session_num offset_draw scroll_draw =
    Raise (KeyError "most_recent_dates").
Proof.
  intros H2 He. unfold _generate_session_config.
  now rewrite (plan_empty_corpus self _ _ H2 He).
Qed.

Lemma iteration_empty_late num_sessions session_num env st :
  2 <= session_num -> all_videos (harvester st) = [] ->
  run_iteration num_sessions session_num env st =
    (Raise (KeyError "most_recent_dates"), st).
Proof.
  intros H2 He. unfold run_iteration.
  now rewrite (config_empty_corpus _ _ _ _ H2 He).
Qed.

(** A turn that scrapes nothing leaves an empty corpus empty. *)
Lemma iteration_keeps_empty num_sessions session_num env st :
  all_videos (harvester st) = [] -> scraped_videos env = [] ->
  all_videos (harvester (snd (run_iteration num_sessions session_num env st)))
    = [].
Proof.
  intros He Hs.
  pose proof (run_iteration_effect num_sessions session_num env st) as E.
  cbv zeta in E. destruct E as (_ & _ & [A|(e & _ & A)] & _).
  - now rewrite A, He, Hs.
  - now rewrite A.
Qed.

(** X13. A run of three sessions or more that starts with an empty corpus
    and whose first two sessions scrape nothing does not return: it
    raises (the planner has no plan for a third session on an empty
    corpus), and the corpus is empty when it does. *)
Theorem run_aborts_while_corpus_is_empty :
  forall (target : Z) (env0 env1 env2 : session_env)
         (rest : list session_env) (fin : final_env)
         (self : SmartHarvester) (file0 : disk),
    all_videos self = [] -> 0 < target ->
    scraped_videos env0 = [] -> scraped_videos env1 = [] ->
    exists e st,
      run_smart_harvest target (env0 :: env1 :: env2 :: rest) fin self file0 =
        (Raise e, st) /\
      all_videos (harvester st) = [].
Proof.
  intros target env0 env1 env2 rest fin self file0 He Ht S0 S1.
  unfold run_smart_harvest.
  set (N := Z.of_nat (List.length (env0 :: env1 :: env2 :: rest))).
  assert (T : forall st, all_videos (harvester st) = [] ->
              (target <=? len (all_videos (harvester st))) = false).
  { intros st E. rewrite E. apply Z.leb_gt. exact Ht. }
  cbn [run_loop]. rewrite T by exact He.
  pose proof (iteration_keeps_empty N 0 env0 (mkRunState self file0 0 [])
                He S0) as K0.
  destruct (run_iteration N 0 env0 _) as [[u0|e0] st1]; cbn [snd] in K0.
  - rewrite T by exact K0.
    pose proof (iteration_keeps_empty N (0 + 1) env1 st1 K0 S1) as K1.
    destruct (run_iteration N (0 + 1) env1 st1) as [[u1|e1] st2];
      cbn [snd] in K1.
    + rewrite T by exact K1.
      rewrite (iteration_empty_late N (0 + 1 + 1) env2 st2) by (lia || exact K1).
      now eexists; eexists.
    + now eexists; eexists.
  - now eexists; eexists.
Qed.

Lemma run_aborts_while_corpus_is_empty_witness :
  exists st,
    run_smart_harvest 300
      [empty_session_env; empty_session_env; empty_session_env]
      sample_final fresh_harvester NoFile =
      (Raise (KeyError "most_recent_dates"), st) /\
    List.length (sessions (harvester st)) = 2%nat /\
    fst (main 30 120 300 NoFile
           [empty_session_env; empty_session_env; empty_session_env]
           sample_final) = 1.
Proof.
  destruct (run_aborts_while_corpus_is_empty 300 empty_session_env
              empty_session_env empty_session_env [] sample_final
              fresh_harvester NoFile) as (e & st & E & _);
    try reflexivity.
  exists st.
  assert (C : fst (run_smart_harvest 300
                     [empty_session_env; empty_session_env;
                      empty_session_env]
                     sample_final fresh_harvester NoFile) =
              Raise (KeyError "most_recent_dates"))
    by (vm_compute; reflexivity).
  assert (D : List.length
                (sessions
                   (harvester
                      (snd (run_smart_harvest 300
                              [empty_session_env; empty_session_env;
                               empty_session_env]
                              sample_final fresh_harvester NoFile)))) =
              2%nat)
    by (vm_compute; reflexivity).
  rewrite E in C, D. cbn [fst snd] in C, D. injection C as ->.
  split; [exact E|]. split; [exact D|]. vm_compute. reflexivity.
Defined.

Lemma gap_window_empty self base_draw hint :
  session_gap_max self < session_gap_min self ->
  _calculate_session_gap self base_draw hint = Raise empty_range.
Proof.
  intros H. unfold _calculate_session_gap.
  rewrite randint_out by lia. reflexivity.
Qed.

Lemma update_stats_raises session self e :
  fst (update_stats session self) = Raise e ->
  PyNum.add (total_time (harvest_stats self)) (completion_time session) =
    Raise e.
Proof.
  unfold update_stats, set_stats, mbind, update, read.
  cbn [set_harvest_stats harvest_stats sessions all_videos total_time
       total_sessions total_videos unique_videos average_success_rate
       stats_total_score best_session_score last_harvest].
  destruct (PyNum.add _ _) as [time|e']; cbn [fst]; congruence.
Qed.

(** X14. With a gap window whose floor is above its ceiling (as after
    [--gap-min 200] alone), a run of two sessions or more does not
    survive a first session that returns: the run raises and nothing
    after the first session is started.  When the configuration of that
    session and the sum of the times are defined, the session is
    recorded and the error is the one of [random.randint] on an empty
    range. *)
Theorem run_aborts_on_empty_gap_window :
  forall (target : Z) (env0 env1 : session_env) (rest : list session_env)
         (fin : final_env) (self : SmartHarvester) (file0 : disk)
         (videos : list VideoData),
    session_gap_max self < session_gap_min self ->
    len (all_videos self) < target ->
    scraped env0 = Ok videos ->
    exists e st,
      run_smart_harvest target (env0 :: env1 :: rest) fin self file0 =
        (Raise e, st) /\
      (List.length (sessions (harvester st)) <=
       S (List.length (sessions self)))%nat /\
      (forall config time,
          _generate_session_config self 0 (offset_draw env0)
            (scroll_draw env0) = Ok config ->
          PyNum.add (total_time (harvest_stats self)) (PFloat (elapsed env0)) =
            Ok time ->
          e = empty_range /\
          List.length (sessions (harvester st)) =
            S (List.length (sessions self))).
Proof.
  intros target env0 env1 rest fin self file0 videos Hw Ht S.
  unfold run_smart_harvest.
  set (N := Z.of_nat (List.length (env0 :: env1 :: rest))).
  assert (HN : 0 < N - 1) by (unfold N; cbn [List.length]; lia).
  cbn [run_loop harvester].
  destruct (Z.leb_spec target (len (all_videos self))) as [C|_]; [lia|].
  unfold run_iteration. cbn [harvester file successful_sessions pauses].
  destruct (_generate_session_config self 0 _ _) as [config|e].
  2:{ exists e. eexists. split; [reflexivity|].
      cbn [harvester]. split; [lia|]. discriminate. }
  destruct (session_with_scrape config env0 self videos S)
    as (session & R & _ & _ & _ & CT & _).
  rewrite R.
  pose proof (update_stats_effect session (after_session self videos session))
    as U. cbv zeta in U.
  pose proof (update_stats_raises session
                (after_session self videos session)) as V.
  destruct (update_stats session _) as [[u|e] h2];
    cbn [fst snd] in U, V; destruct U as (Us & _ & Uset & _).
  - destruct (Z.ltb_spec 0 (N - 1)) as [_|C]; [|lia].
    rewrite gap_window_empty.
    + exists empty_range. eexists. split; [reflexivity|].
      cbn [harvester]. rewrite Us. cbn [after_session sessions].
      rewrite length_app. cbn [List.length].
      split; [lia|]. intros _ _ _ _. split; [reflexivity | lia].
    + destruct Uset as (A & B & _).
      cbn [after_session session_gap_min session_gap_max] in A, B. lia.
  - exists e. eexists. split; [reflexivity|].
    cbn [harvester]. rewrite Us. cbn [after_session sessions].
    rewrite length_app. cbn [List.length]. split; [lia|].
    intros c time _ A. specialize (V e eq_refl).
    cbn [after_session harvest_stats] in V. rewrite CT, A in V.
    discriminate V.
Qed.

Lemma run_aborts_on_empty_gap_window_witness :
  exists st,
    run_smart_harvest 300
      [sample_env (videos_numbered 0 2) Written;
       sample_env (videos_numbered 2 2) Written]
      sample_final (started_from NoFile 200 120) NoFile =
      (Raise empty_range, st) /\
    List.length (sessions (harvester st)) = 1%nat.
Proof.
  destruct (run_aborts_on_empty_gap_window 300
              (sample_env (videos_numbered 0 2) Written)
              (sample_env (videos_numbered 2 2) Written) [] sample_final
              (started_from NoFile 200 120) NoFile (videos_numbered 0 2))
    as (e & st & E & _ & H); [vm_compute; reflexivity.. |].
  destruct (_generate_session_config (started_from NoFile 200 120) 0
              (offset_draw (sample_env (videos_numbered 0 2) Written))
              (scroll_draw (sample_env (videos_numbered 0 2) Written)))
    as [config|e'] eqn:C; [|vm_compute in C; discriminate].
  destruct (H config (PFloat (Fin 60)) eq_refl) as [-> L];
    [vm_compute; reflexivity|].
  exists st. split; [exact E | exact L].
Defined.

End Run.

(** ** The duplicate guard, continued *)

Section GuardEdges.
Local Open Scope Q_scope.

Lemma filter_none {A : Type} (p : A -> bool) (l : list A) :
  (forall x, In x l -> p x = false) -> filter p l = [].
Proof.
  induction l as [|x l IH]; intros H; simpl; [reflexivity|].
  rewrite (H x) by now left. apply IH. intros y Hy. apply H. now right.
Qed.

(** X15. The duplicate guard raises in one case only: on an empty sample
    when the size of the early check is not positive, where the rate
    divides by zero.  With a positive size of the early check it answers
    for every sample, and its answer is to continue whenever no video of
    the sample is stored and the threshold is positive. *)
Theorem duplicate_guard_defined :
  forall (self : SmartHarvester) (videos : list VideoData),
    (videos = [] -> (early_check_count self <= 0)%Z ->
     _should_continue_session self videos = Raise ZeroDivisionError) /\
    (videos <> [] \/ (0 < early_check_count self)%Z ->
     exists answer, _should_continue_session self videos = Ok answer) /\
    ((0 < early_check_count self)%Z ->
     flt (Fin 0) (duplicate_threshold self) = true ->
     (forall v, In v videos -> mem (video_id v) (all_videos self) = false) ->
     _should_continue_session self videos = Ok true).
Proof.
  intros self videos.
  set (n := Z.of_nat (List.length videos)).
  set (d := Z.of_nat
              (List.length
                 (filter (fun video => mem (video_id video) (all_videos self))
                    videos))).
  assert (D : (0 <= d <= n)%Z).
  { unfold d, n. split; [lia|]. apply Nat2Z.inj_le, filter_length_le. }
  assert (G : (0 < n)%Z ->
              exists x, int_truediv d n = Ok (Fin x) /\ (d = 0%Z -> x = 0)).
  { intros Hn. destruct (part_of_whole d n D Hn) as (x & E & _ & _ & Z0 & _).
    now exists x. }
  split; [|split].
  - intros -> He. unfold _should_continue_session. cbn [List.length].
    destruct (Z.ltb_spec (Z.of_nat 0) (early_check_count self)); [lia|].
    reflexivity.
  - intros H. unfold _should_continue_session. fold n. fold d.
    destruct (Z.ltb_spec n (early_check_count self)) as [L|L];
      [now exists true|].
    assert (Hn : (0 < n)%Z).
    { destruct H as [H|H]; [|lia].
      unfold n. destruct videos; [contradiction | simpl; lia]. }
    destruct (G Hn) as (x & -> & _). cbn [bind].
    destruct (fge _ _); now eexists.
  - intros He Ht Hnew. unfold _should_continue_session. fold n. fold d.
    destruct (Z.ltb_spec n (early_check_count self)) as [L|L];
      [reflexivity|].
    assert (Hn : (0 < n)%Z) by lia.
    assert (D0 : d = 0%Z).
    { unfold d. now rewrite filter_none. }
    destruct (G Hn) as (x & -> & X0). rewrite (X0 D0). cbn [bind].
    destruct (duplicate_threshold self) as [t|[]|]; cbn [fge fle flt] in *;
      try discriminate; try reflexivity.
    destruct (Qle_bool t 0) eqn:E; [|reflexivity].
    apply negb_true_iff in Ht. apply Qle_bool_iff in E.
    destruct (Qle_bool t 0) eqn:E'; [discriminate|].
    exfalso. apply Qle_bool_iff in E. congruence.
Qed.

Lemma duplicate_guard_defined_witness :
  _should_continue_session fresh_harvester (videos_numbered 0 25) = Ok true /\
  _should_continue_session
    (mkSmartHarvester [] [] HarvestStats_default 30 120 (lit (8 # 10)) 0) [] =
    Raise ZeroDivisionError.
Proof.
  split.
  - destruct (duplicate_guard_defined fresh_harvester (videos_numbered 0 25))
      as (_ & _ & H).
    apply H; [reflexivity | reflexivity |]. intros v _. reflexivity.
  - destruct (duplicate_guard_defined
                (mkSmartHarvester [] [] HarvestStats_default 30 120
                   (lit (8 # 10)) 0) []) as (H & _).
    apply H; [reflexivity|]. simpl. lia.
Defined.

End GuardEdges.

(** ** The harvest file, continued *)

Section HarvestFile.

(** X17. In the document that a save writes, the metadata agree with the
    content: [unique_videos] is the number of entries of [all_videos],
    which are the entries of the corpus in its order, [total_sessions] is
    the number of entries of [sessions], one for each session of the
    history in its order, and the six fields repeated at the top level
    have the values of the metadata. *)
Theorem saved_document_counts :
  forall (self : SmartHarvester) (now : datetime),
    wf (all_videos self) ->
    let doc := harvest_data self now in
    exists metadata videos records,
      PyDict.get doc "harvest_metadata" = Some (JObj metadata) /\
      PyDict.get doc "all_videos" = Some (JObj videos) /\
      PyDict.get doc "sessions" = Some (JList records) /\
      videos = map encode_video (all_videos self) /\
      records = map session_dict (sessions self) /\
      PyDict.get metadata "unique_videos" =
        Some (JNum (PInt (Z.of_nat (List.length videos)))) /\
      PyDict.get metadata "total_sessions" =
        Some (JNum (PInt (Z.of_nat (List.length records)))) /\
      (forall key, In key mirrored_fields ->
                   PyDict.get doc key = PyDict.get metadata key) /\
      snd (_save_harvest_results self now Written) = Document doc.
Proof.
  intros self now W doc.
  assert (Sv : snd (_save_harvest_results self now Written) = Document doc)
    by reflexivity.
  revert Sv. generalize (snd (_save_harvest_results self now Written)).
  intros saved Sv.
  exists [("harvester_version", JStr "2.0");
          ("last_harvest", JStr (Datetime.isoformat now));
          ("total_sessions",
           JNum (PInt (Z.of_nat (List.length (sessions self)))));
          ("total_videos", JNum (PInt (total_videos (harvest_stats self))));
          ("unique_videos", JNum (PInt (len (all_videos self))));
          ("total_time", JNum (total_time (harvest_stats self)));
          ("average_success_rate",
           JNum (average_success_rate (harvest_stats self)));
          ("total_score", JNum (PInt (stats_total_score (harvest_stats self))));
          ("best_session_score",
           JNum (PInt (best_session_score (harvest_stats self))))],
         (map encode_video (all_videos self)),
         (map session_dict (sessions self)).
  split; [|split; [|split; [|split; [|split; [|split; [|split; [|split]]]]]]];
    try exact Sv; clear Sv;
    unfold doc, harvest_data; try rewrite (videos_dict_wf _ W);
    try reflexivity; try (now rewrite length_map).
  intros key [<-|[<-|[<-|[<-|[<-|[<-|[]]]]]]]; reflexivity.
Qed.

Lemma saved_document_counts_witness :
  let doc := harvest_data sample_harvester (mkDatetime 2025 1 2 3 5 0 0) in
  PyDict.get doc "unique_videos" = Some (JNum (PInt 2)) /\
  PyDict.get doc "total_sessions" = Some (JNum (PInt 2)).
Proof.
  intros doc.
  destruct (saved_document_counts sample_harvester
              (mkDatetime 2025 1 2 3 5 0 0))
    as (metadata & videos & records & _ & _ & _ & V & R & U & T & M & _).
  - unfold wf. simpl. repeat constructor; simpl; intuition discriminate.
  - fold doc in M. rewrite (M "unique_videos"), (M "total_sessions"), U, T, V, R.
    + split; reflexivity.
    + simpl. tauto.
    + simpl. tauto.
Defined.

End HarvestFile.

(** ** The analysis of the corpus *)

Section Analysis.

Lemma group_add_get vs : forall groups bucket,
  get (fold_left group_add vs groups) bucket =
  match get groups bucket with
  | Some group =>
      Some (group ++ filter (fun v => String.eqb (date v) bucket) vs)
  | None =>
      match filter (fun v => String.eqb (date v) bucket) vs with
      | [] => None
      | found => Some found
      end
  end.
Proof.
  induction vs as [|v vs IH]; intros groups bucket; cbn [fold_left filter].
  - destruct (get groups bucket); [now rewrite app_nil_r | reflexivity].
  - rewrite IH. unfold group_add.
    destruct (String.eqb_spec (date v) bucket) as [E|N].
    + rewrite E. destruct (get groups bucket) as [group|].
      * rewrite get_set_same. now rewrite <- app_assoc.
      * rewrite get_set_same. reflexivity.
    + destruct (get groups (date v)) as [group|];
        rewrite get_set_other by congruence; reflexivity.
Qed.

Lemma sorted_weaken {A : Type} (R R' : A -> A -> Prop) (l : list A) :
  (forall x y, R x y -> R' x y) -> StronglySorted R l -> StronglySorted R' l.
Proof.
  intros H S. induction S as [|x l S IH F]; constructor; [exact IH|].
  eapply Forall_impl; [|exact F]. intros y. apply H.
Qed.

Lemma sorted_firstn {A : Type} (R : A -> A -> Prop) (l : list A) : forall n,
  StronglySorted R l -> StronglySorted R (firstn n l).
Proof.
  induction l as [|x l IH]; intros n S.
  - rewrite firstn_nil. constructor.
  - destruct n as [|n]; [constructor|]. cbn [firstn].
    inversion S as [|? ? S' F]; subst. constructor; [now apply IH|].
    rewrite Forall_forall in *. intros y Hy. apply F.
    now apply In_firstn in Hy.
Qed.

Lemma sorted_across {A : Type} (R : A -> A -> Prop) (l : list A) : forall n x y,
  StronglySorted R l -> In x (firstn n l) -> In y (skipn n l) -> R x y.
Proof.
  induction l as [|a l IH]; intros n x y S Hx Hy.
  - rewrite firstn_nil in Hx. contradiction.
  - destruct n as [|n]; [contradiction|]. cbn [firstn skipn] in Hx, Hy.
    inversion S as [|? ? S' F]; subst. destruct Hx as [<-|Hx].
    + rewrite Forall_forall in F. apply F.
      rewrite <- (firstn_skipn n l). apply in_or_app. now right.
    + now apply (IH n).
Qed.

Lemma In_get {V : Type} (d : dict V) k v :
  wf d -> In (k, v) d -> get d k = Some v.
Proof.
  unfold wf. induction d as [|[k' v'] d IH]; intros W H; [contradiction|].
  cbn [keys map fst] in W. inversion W as [|? ? N W']; subst.
  cbn [get]. destruct H as [E|H].
  - injection E as -> ->. now rewrite String.eqb_refl.
  - destruct (String.eqb_spec k k') as [->|_]; [|now apply IH].
    exfalso. apply N. change k' with (fst (k', v)). now apply in_map.
Qed.

(** X19. For a corpus that is not empty the analysis raises when some
    age bucket of the corpus has no priority, and otherwise has four
    fields.  [total_videos] is the size of the corpus and [date_ranges]
    the number of its age buckets.  [most_recent_dates] holds the three
    buckets of the lowest age priority (all of them when there are
    fewer), in ascending priority: no bucket left out has a lower
    priority.  [largest_date_groups] holds the three largest groups (all
    of them when there are fewer), the largest first, each with its
    bucket and the videos of that bucket in the order of the corpus: no
    group left out is larger. *)
Theorem collection_analysis_spec :
  forall self : SmartHarvester,
    all_videos self <> [] ->
    (priorities_defined self = false ->
     exists e, _analyze_collection_gaps self = Raise e) /\
    (priorities_defined self = true ->
     exists recent largest,
      _analyze_collection_gaps self =
        Ok [("total_videos", AInt (len (all_videos self)));
            ("date_ranges", AInt (Z.of_nat (List.length (buckets self))));
            ("most_recent_dates", AStrList recent);
            ("largest_date_groups", AGroups largest)] /\
      NoDup (buckets self) /\
      (forall b, In b (buckets self) <-> bucket_videos self b <> []) /\
      List.length recent = Nat.min 3 (List.length (buckets self)) /\
      (forall b, In b recent -> In b (buckets self)) /\
      StronglySorted (key_le priority) recent /\
      (forall b b',
          In b recent -> In b' (buckets self) -> ~ In b' recent ->
          priority b <= priority b') /\
      List.length largest = Nat.min 3 (List.length (buckets self)) /\
      (forall b g,
          In (b, g) largest ->
          In b (buckets self) /\ g = bucket_videos self b) /\
      StronglySorted larger_first largest /\
      (forall b g b',
          In (b, g) largest -> In b' (buckets self) ->
          ~ In b' (map fst largest) ->
          (List.length (bucket_videos self b') <= List.length g)%nat)).
Proof.
  intros self Hne. split; [apply analysis_undefined|]. intros Hp.
  set (groups := fold_left group_add (dated self) []).
  set (size := fun x : string * list VideoData =>
                 Z.of_nat (List.length (snd x))).
  assert (K : keys groups = buckets self).
  { unfold groups. now rewrite group_add_keys. }
  assert (G : forall b,
             get groups b =
             match bucket_videos self b with [] => None | g => Some g end).
  { intros b. unfold groups. now rewrite group_add_get. }
  assert (ND : NoDup (buckets self)).
  { destruct (fresh_ids_spec (map date (dated self)) [] (NoDup_nil _))
      as [H _]. exact H. }
  assert (W : wf groups) by (unfold wf; now rewrite K).
  assert (M : forall b, In b (buckets self) <-> bucket_videos self b <> []).
  { intros b. rewrite <- K. split.
    - intros I C. apply mem_true_iff in I. unfold mem in I.
      rewrite G, C in I. discriminate.
    - intros C. apply mem_true_iff. unfold mem. rewrite G.
      destruct (bucket_videos self b); [contradiction | reflexivity]. }
  set (by_age := Py.sorted priority (keys groups)).
  set (by_size := Py.sorted_reverse size (items groups)).
  exists (firstn 3 by_age), (firstn 3 by_size).
  assert (Pa : Permutation by_age (buckets self)).
  { unfold by_age. rewrite K. apply sorted_perm. }
  assert (Ps : Permutation by_size groups).
  { unfold by_size, Py.sorted_reverse, items. apply sorted_perm. }
  assert (Sa : StronglySorted (key_le priority) by_age)
    by apply sorted_sorted.
  assert (Ss : StronglySorted larger_first by_size).
  { unfold by_size, Py.sorted_reverse.
    pose proof (sorted_sorted (fun x => - size x) (items groups)) as S.
    eapply sorted_weaken; [|exact S].
    intros x y. unfold key_le, larger_first, size. lia. }
  assert (Lg : List.length groups = List.length (buckets self)).
  { rewrite <- K. unfold keys. now rewrite length_map. }
  assert (Ig : forall b g, In (b, g) groups ->
                           In b (buckets self) /\ g = bucket_videos self b).
  { intros b g I. pose proof (In_get groups b g W I) as E.
    rewrite G in E. split.
    - apply M. intros C. rewrite C in E. discriminate.
    - destruct (bucket_videos self b); [discriminate | now injection E]. }
  split.
  { rewrite (analysis_defined self Hne Hp). fold groups. fold by_age.
    rewrite (len_length groups), K. reflexivity. }
  split; [exact ND|]. split; [exact M|]. split.
  { rewrite length_firstn, (Permutation_length Pa). reflexivity. }
  split.
  { intros b I. apply In_firstn in I.
    eapply Permutation_in; [exact Pa | exact I]. }
  split; [now apply sorted_firstn|]. split.
  { intros b b' I I' N'.
    apply (sorted_across _ by_age 3 b b' Sa I).
    assert (I2 : In b' by_age)
      by (eapply Permutation_in; [apply Permutation_sym, Pa | exact I']).
    rewrite <- (firstn_skipn 3 by_age) in I2.
    apply in_app_or in I2. destruct I2; [contradiction | assumption]. }
  split.
  { rewrite length_firstn, (Permutation_length Ps), Lg. reflexivity. }
  split.
  { intros b g I. apply In_firstn in I. apply Ig.
    eapply Permutation_in; [exact Ps | exact I]. }
  split; [now apply sorted_firstn|].
  intros b g b' I I' N'.
  assert (I2 : In (b', bucket_videos self b') by_size).
  { eapply Permutation_in; [apply Permutation_sym, Ps|].
    pose proof I' as C. rewrite <- K in C. apply mem_true_iff in C.
    unfold mem in C. destruct (get groups b') as [g'|] eqn:E; [|discriminate].
    assert (I3 : In (b', g') groups).
    { clear - E. induction groups as [|[k v] d IH]; [discriminate|].
      cbn [get] in E. destruct (String.eqb_spec b' k) as [->|_].
      - injection E as ->. now left.
      - right. now apply IH. }
    destruct (Ig b' g' I3) as [_ <-]. exact I3. }
  rewrite <- (firstn_skipn 3 by_size) in I2. apply in_app_or in I2.
  destruct I2 as [I2|I2].
  - exfalso. apply N'. change b' with (fst (b', bucket_videos self b')).
    now apply in_map.
  - exact (sorted_across _ by_size 3 _ _ Ss I I2).
Qed.

Lemma collection_analysis_spec_witness :
  exists analysis,
    _analyze_collection_gaps sample_harvester = Ok analysis /\
    PyDict.get analysis "most_recent_dates" =
      Some (AStrList ["3 years ago"]) /\
    PyDict.get analysis "date_ranges" = Some (AInt 1).
Proof.
  destruct (collection_analysis_spec sample_harvester) as [_ H];
    [discriminate|].
  destruct H as (recent & largest & E & _); [vm_compute; reflexivity|].
  eexists. split; [exact E|].
  pose proof E as C. vm_compute in C. injection C as R L.
  rewrite <- R. split; reflexivity.
Defined.

End Analysis.

(** ** The scripts that call the harvester *)

Section Scripts.






Import TestContinuation.




Lemma check_configs_empty harvester draws :
  all_videos harvester = [] ->
  check_configs harvester draws [0; 1; 2] <> Passed.
Proof.
  intros He. cbn [check_configs]. unfold call, assert_.
  destruct (_generate_session_config harvester 0 _ _) as [c0|e];
    [|discriminate].
  cbn [Z.eqb].
  destruct (String.eqb (strategy (continuation c0)) "fresh_start");
    [|discriminate].
  destruct (_generate_session_config harvester 1 _ _) as [c1|e];
    [|discriminate].
  destruct (String.eqb (strategy (continuation c1)) "scroll_offset");
    [|discriminate].
  rewrite (config_empty_corpus harvester 2) by (lia || exact He).
  discriminate.
Qed.

(** X20. The test script fails on an empty store: when the constructor
    finds no stored video, [test_session_config_generation] does not
    pass and [main] of [test_continuation.py] returns 1, whatever the
    random draws are: the configuration of the third session raises. *)
Theorem continuation_tests_fail_on_empty_store :
  forall (file : disk) (d : draws),
    all_videos (snd (SmartHarvester_init file)) = [] ->
    test_session_config_generation file (config_draws d) <> Passed /\
    main file d = 1.
Proof.
  intros file d He.
  assert (C : test_session_config_generation file (config_draws d) <> Passed).
  { unfold test_session_config_generation. now apply check_configs_empty. }
  split; [exact C|].
  unfold main, run_tests, then_.
  destruct (test_continuation_point_calculation file (point_draw d));
    try reflexivity.
  destruct (test_session_config_generation file (config_draws d));
    try reflexivity.
  now contradiction C.
Qed.

Lemma continuation_tests_fail_on_empty_store_witness :
  main NoFile (sample_test_draws 30 120) = 1 /\
  test_session_config_generation NoFile sample_config_draws =
    Raised (KeyError "most_recent_dates").
Proof.
  split.
  - apply (continuation_tests_fail_on_empty_store NoFile
             (sample_test_draws 30 120)).
    reflexivity.
  - vm_compute. reflexivity.
Defined.








End Scripts.

(** ** The identity of a video *)

Section VideoIdentity.
Local Open Scope string_scope.
Import Re.

(** A [cls+] before a rest that always matches takes the whole run. *)
Lemma plus_maximal cls s gs k r :
  (forall s' gs', k s' gs' <> None) ->
  plus cls s gs k = Some r ->
  exists run rest,
    s = run ++ rest /\ run <> "" /\ all_in cls run = true /\
    stops cls rest /\ k rest gs = Some r.
Proof.
  intros K. revert r. induction s as [|c s IH]; intros r H; simpl in H.
  - discriminate.
  - destruct (cls c) eqn:Hc; [|discriminate].
    destruct (plus cls s gs k) as [r'|] eqn:Hp.
    + injection H as <-.
      destruct (IH r' eq_refl) as (run & rest & -> & _ & Hall & Hs & Hk).
      exists (String c run), rest. simpl. rewrite Hc, Hall.
      repeat split; [discriminate | exact Hs | exact Hk].
    + exists (String c ""), s. simpl. rewrite Hc.
      repeat split; [discriminate | | exact H].
      destruct s as [|c' s']; [exact I|]. simpl in Hp |- *.
      destruct (cls c'); [|reflexivity].
      destruct (plus cls s' gs k); [discriminate|].
      now apply K in Hp.
Qed.

Lemma match_id_after prefix s gs :
  match_ (id_after prefix) s = Some gs ->
  exists run rest,
    s = prefix ++ run ++ rest /\ gs = [run] /\ run <> "" /\
    all_in PyStr.is_digit run = true /\ stops PyStr.is_digit rest.
Proof.
  unfold match_, id_after. cbn [exec].
  destruct (PyStr.startswith prefix s) eqn:P; [|discriminate].
  destruct (startswith_inv _ _ P) as [t ->]. rewrite drop_append.
  intros H. apply plus_maximal in H; [|discriminate].
  destruct H as (run & rest & -> & Hne & Hall & Hs & Hk).
  exists run, rest. rewrite consumed_append in Hk.
  injection Hk as <-. now repeat split.
Qed.

Lemma search_id_after prefix s gs :
  search (id_after prefix) s = Some gs ->
  exists pre run rest,
    s = pre ++ prefix ++ run ++ rest /\ gs = [run] /\ run <> "" /\
    all_in PyStr.is_digit run = true /\ stops PyStr.is_digit rest.
Proof.
  induction s as [|c s IH]; cbn [search].
  - destruct (match_ (id_after prefix) "") as [g|] eqn:M; [|discriminate].
    intros H. injection H as <-. exists "". now apply match_id_after.
  - destruct (match_ (id_after prefix) (String c s)) as [g|] eqn:M.
    + intros H. injection H as <-. exists "". now apply match_id_after.
    + intros H.
      destruct (IH H) as (pre & run & rest & -> & R).
      now exists (String c pre), run, rest.
Qed.

Lemma first_long_match_sound patterns url id :
  first_long_match patterns url = Some id ->
  exists pattern,
    In pattern patterns /\ search pattern url = Some [id] /\
    (10 < String.length id)%nat.
Proof.
  induction patterns as [|p ps IH]; cbn [first_long_match]; [discriminate|].
  intros H.
  assert (Later : first_long_match ps url = Some id ->
                  exists pattern,
                    In pattern (p :: ps) /\ search pattern url = Some [id] /\
                    (10 < String.length id)%nat).
  { intros H'. destruct (IH H') as (q & Hq & R). exists q.
    split; [now right | exact R]. }
  destruct (search p url) as [[|g [|g' gs]]|] eqn:S; try now apply Later.
  destruct (Nat.ltb_spec 10 (String.length g)) as [L|L]; [|now apply Later].
  injection H as <-. exists p. split; [now left|]. now split.
Qed.

Lemma search_skip_char r c s :
  match_ r (String c s) = None -> search r (String c s) = search r s.
Proof. intros H. cbn [search]. now rewrite H. Qed.

Lemma all_in_not_empty cls s :
  (0 < String.length s)%nat -> all_in cls s = true ->
  plus cls s [] (fun s' gs' => Some (gs' ++ [consumed s s'])%list) = Some [s].
Proof.
  intros L A.
  rewrite <- (append_nil_r s) at 1.
  rewrite (plus_greedy cls s "" [] _ [s]); try reflexivity.
  - intros ->. simpl in L. lia.
  - exact A.
  - cbn [app]. unfold consumed. cbn [String.length].
    rewrite Nat.sub_0_r. now rewrite substring_0_all.
Qed.

(** X23. An identity that [extract_video_id_from_url] returns is a run of
    more than ten decimal digits of the address; the run stands directly
    after [v=] or [videos/] and is not followed by a further digit.  An
    empty address has no identity. *)
Theorem extracted_id_is_a_digit_run :
  forall url id : string,
    extract_video_id_from_url url = Some id ->
    (10 < String.length id)%nat /\
    all_in PyStr.is_digit id = true /\
    url <> "" /\
    exists pre marker post,
      In marker id_markers /\ url = pre ++ marker ++ id ++ post /\
      stops PyStr.is_digit post.
Proof.
  intros url id H. unfold extract_video_id_from_url in H.
  destruct url as [|c url']; [discriminate|]. cbn [PyStr.truthy negb] in H.
  set (url := String c url') in *.
  destruct (first_long_match_sound _ _ _ H) as (p & Hp & S & L).
  assert (M : exists lead marker,
             In marker id_markers /\ p = id_after (lead ++ marker)).
  { unfold id_patterns in Hp. unfold id_markers.
    destruct Hp as [<-|[<-|[<-|[<-|[<-|[]]]]]].
    - exists "watch/?", "v=". split; [now left | reflexivity].
    - exists "/watch?", "v=". split; [now left | reflexivity].
    - exists "", "videos/". split; [right; now left | reflexivity].
    - exists "/", "videos/". split; [right; now left | reflexivity].
    - exists "", "v=". split; [now left | reflexivity]. }
  destruct M as (lead & marker & Hm & ->).
  destruct (search_id_after _ _ _ S)
    as (pre & run & rest & E & G & _ & Hall & Hs).
  injection G as <-.
  split; [exact L|]. split; [exact Hall|]. split; [discriminate|].
  exists (pre ++ lead), marker, rest.
  split; [exact Hm|]. split; [|exact Hs].
  rewrite E. now rewrite !append_assoc.
Qed.

Lemma extracted_id_is_a_digit_run_witness :
  (10 < String.length "1234567890123456")%nat /\
  extract_video_id_from_url
    "https://www.facebook.com/DRAGAMAMA/videos/1234567890123456/" =
    Some "1234567890123456" /\
  extract_video_id_from_url
    "https://www.facebook.com/DRAGAMAMA/videos/1234567890/" = None.
Proof.
  assert (E : extract_video_id_from_url
                "https://www.facebook.com/DRAGAMAMA/videos/1234567890123456/" =
              Some "1234567890123456") by (vm_compute; reflexivity).
  destruct (extracted_id_is_a_digit_run _ _ E) as (L & _).
  split; [exact L|]. split; [exact E|]. vm_compute. reflexivity.
Defined.

Lemma watch_url_id id :
  all_in PyStr.is_digit id = true -> (10 < String.length id)%nat ->
  extract_video_id_from_url (watch_url id) = Some id.
Proof.
  intros A L. unfold extract_video_id_from_url, watch_url.
  cbn [append PyStr.truthy negb id_patterns first_long_match].
  assert (S : search (id_after "watch/?v=")
                ("https://www.facebook.com/watch/?v=" ++ id) = Some [id]).
  { cbn [append].
    do 25 (rewrite search_skip_char by reflexivity).
    assert (M : match_ (id_after "watch/?v=")
                  ("watch/?v=" ++ id) = Some [id]).
    { unfold match_, id_after. cbn [exec].
      rewrite startswith_append, drop_append.
      apply all_in_not_empty; [lia | exact A]. }
    cbn [append] in M.
    destruct id as [|c id']; [simpl in L; lia|].
    cbn [search]. now rewrite M. }
  cbn [append] in S. rewrite S.
  destruct (Nat.ltb_spec 10 (String.length id)); [reflexivity | lia].
Qed.

(** X24. The address under which the scraper stores a video leads back to
    the video: for a run of more than ten digits, the identity of
    [https://www.facebook.com/watch/?v=] followed by the run is the run,
    and a link with that address is kept under it. *)
Theorem watch_url_round_trip :
  forall (id : string) (link : page_link),
    all_in PyStr.is_digit id = true -> (10 < String.length id)%nat ->
    link_href link = Ok (Some (watch_url id)) ->
    extract_video_id_from_url (watch_url id) = Some id /\
    link_video_id link = Some id.
Proof.
  intros id link A L H.
  pose proof (watch_url_id id A L) as E.
  split; [exact E|].
  unfold link_video_id. rewrite H, E.
  assert (W : str_in "watch" (watch_url id) = true) by reflexivity.
  rewrite W.
  assert (T : PyStr.truthy (watch_url id) = true) by reflexivity.
  rewrite T. cbn [andb orb].
  destruct id as [|c id']; [simpl in L; lia|]. cbn [PyStr.truthy andb].
  destruct (Nat.ltb_spec 10 (String.length (String c id')));
    [reflexivity | lia].
Qed.

Lemma watch_url_round_trip_witness :
  extract_video_id_from_url (watch_url "1234567890123456") =
    Some "1234567890123456" /\
  link_video_id (link_to (watch_url "1234567890123456")) =
    Some "1234567890123456".
Proof.
  apply (watch_url_round_trip "1234567890123456"
           (link_to (watch_url "1234567890123456")));
    [reflexivity | simpl; lia | reflexivity].
Defined.

End VideoIdentity.

(** ** The loop that collects the videos of a page *)

Section Collection.

Lemma extract_id_shape url id :
  extract_video_id_from_url url = Some id ->
  all_in PyStr.is_digit id = true /\ (10 < String.length id)%nat.
Proof.
  unfold extract_video_id_from_url.
  destruct (negb (PyStr.truthy url)); [discriminate|]. intros H.
  destruct (first_long_match_sound _ _ _ H) as (p & Hp & S & L).
  split; [|exact L].
  assert (M : exists prefix, p = id_after prefix).
  { unfold id_patterns in Hp.
    destruct Hp as [<-|[<-|[<-|[<-|[<-|[]]]]]]; eexists; reflexivity. }
  destruct M as (prefix & ->).
  destruct (search_id_after _ _ _ S) as (pre & run & rest & _ & G & _ & A & _).
  injection G as <-. exact A.
Qed.

Lemma link_id_shape link id :
  link_video_id link = Some id ->
  all_in PyStr.is_digit id = true /\ (10 < String.length id)%nat.
Proof.
  unfold link_video_id. destruct (link_href link) as [attribute|e];
    [|discriminate].
  destruct (_ && _); [|discriminate].
  destruct (extract_video_id_from_url _) as [video_id|] eqn:E;
    [|discriminate].
  destruct (_ && _); [|discriminate].
  intros H. injection H as <-. now apply extract_id_shape in E.
Qed.

Lemma video_links_In links link id :
  In (link, id) (video_links links) ->
  In link links /\ link_video_id link = Some id.
Proof.
  induction links as [|l links IH]; cbn [video_links]; [intros []|].
  destruct (link_video_id l) as [video_id|] eqn:E.
  - intros [H|H].
    + injection H as <- <-. split; [now left | exact E].
    + destruct (IH H) as [I L]. split; [now right | exact L].
  - intros H. destruct (IH H) as [I L]. split; [now right | exact L].
Qed.

Lemma video_links_length links :
  (List.length (video_links links) <= List.length links)%nat.
Proof.
  induction links as [|l links IH]; cbn [video_links List.length]; [lia|].
  destruct (link_video_id l); cbn [List.length]; lia.
Qed.

Lemma fresh_ids_shorter ids : forall seen,
  (List.length (fresh_ids seen ids) <= List.length ids)%nat.
Proof.
  induction ids as [|i ids IH]; intros seen; cbn [fresh_ids List.length];
    [lia|].
  destruct (in_dec string_dec i seen); cbn [List.length].
  - specialize (IH seen). lia.
  - specialize (IH (seen ++ [i])). lia.
Qed.

(** The dictionary of the links: its keys are the identities in the
    order of their first link, and every entry is a link of the list. *)
Lemma by_id_fold (links : list (page_link * string)) :
  forall by_id : dict page_link,
    let by_id' :=
      fold_left
        (fun by_id entry =>
           if negb (mem (snd entry) by_id)
           then PyDict.set by_id (snd entry) (fst entry)
           else by_id)
        links by_id in
    wf by_id ->
    wf by_id' /\
    keys by_id' = keys by_id ++ fresh_ids (keys by_id) (map snd links) /\
    (forall id link, In (id, link) by_id' ->
                     In (id, link) by_id \/ In (link, id) links).
Proof.
  induction links as [|[link id] links IH]; intros by_id; cbv zeta;
    cbn [fold_left map fresh_ids fst snd]; intros W.
  - rewrite app_nil_r. split; [exact W|]. split; [reflexivity|]. tauto.
  - destruct (mem id by_id) eqn:M; cbn [negb].
    + apply mem_true_iff in M.
      destruct (in_dec string_dec id (keys by_id)) as [_|N];
        [|contradiction].
      destruct (IH by_id W) as (W' & K & I).
      split; [exact W'|]. split; [exact K|].
      intros id' link' H. destruct (I id' link' H); [now left|].
      right. now right.
    + apply mem_false_iff in M.
      destruct (in_dec string_dec id (keys by_id)) as [Y|_];
        [contradiction|].
      destruct (IH (PyDict.set by_id id link) (wf_set_new _ _ _ W M))
        as (W' & K & I).
      split; [exact W'|]. split.
      * rewrite K, keys_set_new by exact M. now rewrite <- app_assoc.
      * intros id' link' H. destruct (I id' link' H) as [H'|H'].
        -- rewrite set_new in H' by exact M.
           apply in_app_iff in H'. destruct H' as [H'|[H'|[]]].
           ++ now left.
           ++ injection H' as <- <-. right. now left.
        -- right. now right.
Qed.

Lemma page_entries_spec links :
  NoDup (map fst (page_entries links)) /\
  map fst (page_entries links) = fresh_ids [] (page_ids links) /\
  (forall e, In e (page_entries links) ->
     exists link, snd e = link /\ In link links /\
                  link_video_id link = Some (fst e)) /\
  (List.length (page_entries links) <= List.length links)%nat.
Proof.
  unfold page_entries, videos_by_id, items, page_ids.
  destruct (by_id_fold (video_links links) [] (NoDup_nil _)) as (W & K & I).
  cbn [keys map app] in K.
  split; [exact W|]. split; [exact K|]. split.
  - intros [id link] H. destruct (I id link H) as [[]|H'].
    exists link. split; [reflexivity|]. now apply video_links_In.
  - rewrite <- (length_map fst). unfold keys in K. rewrite K.
    pose proof (fresh_ids_shorter (map snd (video_links links)) []).
    pose proof (video_links_length links).
    rewrite length_map in *. lia.
Qed.

Lemma existsb_not_in id (ids : list string) :
  ~ In id ids -> existsb (String.eqb id) ids = false.
Proof.
  intros H. destruct (existsb (String.eqb id) ids) eqn:E; [|reflexivity].
  apply existsb_exists in E. destruct E as (x & Hx & E).
  apply String.eqb_eq in E. subst x. contradiction.
Qed.

(** One turn of the loop on an identity that has not been processed. *)
Lemma process_link_new date_filter duplicate_checker st e :
  ~ In (fst e) (processed_ids st) ->
  process_link date_filter duplicate_checker st e =
    if passes date_filter e then
      let st' :=
        mkScrapeState (processed_ids st ++ [fst e])
          (videos_data st ++ [video_of e])
          (scored date_filter e
             (ScoringSystem.award_points (title_points e) (scoring st))) in
      match duplicate_checker with
      | Some check =>
          if due (videos_data st')
          then go_on <- check (videos_data st') ;; Ok (go_on, st')
          else Ok (true, st')
      | None => Ok (true, st')
      end
    else Ok (true, mkScrapeState (processed_ids st ++ [fst e])
                     (videos_data st)
                     (ScoringSystem.award_points (title_points e) (scoring st))).
Proof.
  intros N. unfold process_link. rewrite (existsb_not_in _ _ N).
  unfold passes, filter_applies, filter_on, scored, filter_applies, filter_on,
    due, video_of, watch_url, title_points.
  destruct date_filter as [wanted|]; cbn [andb negb].
  - destruct (PyStr.truthy wanted &&
              PyStr.truthy (eng_date (link_engagement (snd e)))) eqn:F;
      cbn [andb negb]; [|reflexivity].
    destruct (str_in wanted (eng_date (link_engagement (snd e))));
      reflexivity.
  - reflexivity.
Qed.

Lemma process_links_effect date_filter duplicate_checker entries :
  forall st st',
    NoDup (map fst entries) ->
    (forall e, In e entries -> ~ In (fst e) (processed_ids st)) ->
    process_links date_filter duplicate_checker entries st = Ok st' ->
    exists seen unseen,
      entries = seen ++ unseen /\
      processed_ids st' = processed_ids st ++ map fst seen /\
      videos_data st' =
        videos_data st ++ map video_of (filter (passes date_filter) seen) /\
      scoring st' =
        fold_left (fun sc e => scored_entry date_filter e sc) seen
          (scoring st) /\
      (unseen = [] \/
       exists check,
         duplicate_checker = Some check /\
         due (videos_data st') = true /\
         check (videos_data st') = Ok false).
Proof.
  induction entries as [|e entries IH]; intros st st' D F H.
  - injection H as <-. exists [], []. cbn [filter map app fold_left].
    rewrite !app_nil_r. repeat split. now left.
  - cbn [process_links] in H.
    rewrite process_link_new in H by (apply F; now left).
    cbn [map] in D. apply NoDup_cons_iff in D. destruct D as [De D].
    assert (F' : forall processed,
               processed = processed_ids st ++ [fst e] ->
               forall e', In e' entries -> ~ In (fst e') processed).
    { intros processed -> e' He' Hin. apply in_app_iff in Hin.
      destruct Hin as [Hin|[Hin|[]]].
      - apply (F e'); [now right | exact Hin].
      - apply De. rewrite Hin. now apply in_map. }
    assert (Go : forall st1,
               processed_ids st1 = processed_ids st ++ [fst e] ->
               videos_data st1 =
                 videos_data st ++
                 map video_of (filter (passes date_filter) [e]) ->
               scoring st1 = scored_entry date_filter e (scoring st) ->
               process_links date_filter duplicate_checker entries st1 =
                 Ok st' ->
               exists seen unseen,
                 e :: entries = seen ++ unseen /\
                 processed_ids st' = processed_ids st ++ map fst seen /\
                 videos_data st' =
                   videos_data st ++
                   map video_of (filter (passes date_filter) seen) /\
                 scoring st' =
                   fold_left (fun sc e => scored_entry date_filter e sc) seen
                     (scoring st) /\
                 (unseen = [] \/
                  exists check,
                    duplicate_checker = Some check /\
                    due (videos_data st') = true /\
                    check (videos_data st') = Ok false)).
    { intros st1 P1 V1 S1 H'.
      destruct (IH st1 st' D) as (seen & unseen & E & Pr & V & S & R);
        [rewrite P1; exact (F' _ eq_refl) | exact H' |].
      exists (e :: seen), unseen. rewrite E. split; [reflexivity|].
      split; [|split; [|split]].
      - rewrite Pr, P1. cbn [map]. now rewrite <- app_assoc.
      - rewrite V, V1. change (e :: seen) with ([e] ++ seen).
        now rewrite filter_app, map_app, <- app_assoc.
      - rewrite S, S1. reflexivity.
      - exact R. }
    assert (Stop : forall st1 check,
               duplicate_checker = Some check ->
               processed_ids st1 = processed_ids st ++ [fst e] ->
               videos_data st1 =
                 videos_data st ++
                 map video_of (filter (passes date_filter) [e]) ->
               scoring st1 = scored_entry date_filter e (scoring st) ->
               due (videos_data st1) = true ->
               check (videos_data st1) = Ok false ->
               exists seen unseen,
                 e :: entries = seen ++ unseen /\
                 processed_ids st1 = processed_ids st ++ map fst seen /\
                 videos_data st1 =
                   videos_data st ++
                   map video_of (filter (passes date_filter) seen) /\
                 scoring st1 =
                   fold_left (fun sc e => scored_entry date_filter e sc) seen
                     (scoring st) /\
                 (unseen = [] \/
                  exists check,
                    duplicate_checker = Some check /\
                    due (videos_data st1) = true /\
                    check (videos_data st1) = Ok false)).
    { intros st1 check C P1 V1 S1 Du St.
      exists [e], entries. split; [reflexivity|]. split; [exact P1|].
      split; [exact V1|]. split; [exact S1|].
      right. exists check. now repeat split. }
    unfold scored_entry in Go, Stop. cbn [filter] in Go, Stop.
    destruct (passes date_filter e) eqn:P.
    + cbv zeta in H, Go, Stop.
      set (st1 := mkScrapeState (processed_ids st ++ [fst e])
                    (videos_data st ++ [video_of e])
                    (scored date_filter e
                       (ScoringSystem.award_points (title_points e)
                          (scoring st)))) in *.
      destruct duplicate_checker as [check|];
        [|now apply (Go st1)].
      destruct (due (videos_data st1)) eqn:Du; [|now apply (Go st1)].
      destruct (check (videos_data st1)) as [[|]|err] eqn:C;
        cbn [bind fst snd] in H; [now apply (Go st1) | | discriminate].
      injection H as <-. now apply (Stop st1 check).
    + cbn [bind fst snd] in H. cbv zeta in Go.
      apply (Go (mkScrapeState (processed_ids st ++ [fst e]) (videos_data st)
                   (ScoringSystem.award_points (title_points e)
                      (scoring st)))); try reflexivity; try exact H.
      cbn [videos_data map]. now rewrite app_nil_r.
Qed.

(** The loop ends without an error when the checker does. *)
Lemma process_links_defined date_filter duplicate_checker entries :
  (forall check videos,
     duplicate_checker = Some check -> due videos = true ->
     exists answer, check videos = Ok answer) ->
  forall st,
    NoDup (map fst entries) ->
    (forall e, In e entries -> ~ In (fst e) (processed_ids st)) ->
    exists st', process_links date_filter duplicate_checker entries st = Ok st'.
Proof.
  intros K. induction entries as [|e entries IH]; intros st D F.
  - now exists st.
  - cbn [process_links].
    rewrite process_link_new by (apply F; now left).
    cbn [map] in D. apply NoDup_cons_iff in D. destruct D as [De D].
    assert (F' : forall processed,
               processed = processed_ids st ++ [fst e] ->
               forall e', In e' entries -> ~ In (fst e') processed).
    { intros processed -> e' He' Hin. apply in_app_iff in Hin.
      destruct Hin as [Hin|[Hin|[]]].
      - apply (F e'); [now right | exact Hin].
      - apply De. rewrite Hin. now apply in_map. }
    destruct (passes date_filter e).
    + cbv zeta.
      set (st1 := mkScrapeState (processed_ids st ++ [fst e])
                    (videos_data st ++ [video_of e])
                    (scored date_filter e
             (ScoringSystem.award_points (title_points e) (scoring st)))).
      destruct duplicate_checker as [check|];
        [|exact (IH st1 D (F' _ eq_refl))].
      destruct (due (videos_data st1)) eqn:Du;
        [|exact (IH st1 D (F' _ eq_refl))].
      destruct (K check (videos_data st1) eq_refl Du) as ([|] & ->);
        cbn [bind fst snd].
      * exact (IH st1 D (F' _ eq_refl)).
      * now exists st1.
    + cbn [bind fst snd].
      exact (IH (mkScrapeState (processed_ids st ++ [fst e])
                   (videos_data st)
                     (ScoringSystem.award_points (title_points e) (scoring st))) D (F' _ eq_refl)).
Qed.

Lemma collect_effect links date_filter duplicate_checker sc st :
  collect_videos links date_filter duplicate_checker sc = Ok st ->
  exists seen unseen,
    page_entries links = seen ++ unseen /\
    processed_ids st = map fst seen /\
    videos_data st = map video_of (filter (passes date_filter) seen) /\
    scoring st =
      fold_left (fun sc e => scored_entry date_filter e sc) seen
        (ScoringSystem.award_points
           (Z.of_nat (List.length (page_entries links)) * 5) sc) /\
    (unseen = [] \/
     exists check,
       duplicate_checker = Some check /\
       due (videos_data st) = true /\ check (videos_data st) = Ok false).
Proof.
  unfold collect_videos. cbv zeta. fold (page_entries links).
  intros H.
  destruct (page_entries_spec links) as (D & _).
  apply process_links_effect in H; [|exact D | intros e _ []].
  destruct H as (seen & unseen & E & Pr & V & S & R).
  exists seen, unseen. split; [exact E|]. split; [exact Pr|].
  split; [exact V|]. split; [|exact R].
  rewrite S. cbn [scoring]. f_equal.
  change (len (videos_by_id (video_links links)))
    with (Z.of_nat (List.length (page_entries links))).
  destruct (Z.ltb_spec 0 (Z.of_nat (List.length (page_entries links))))
    as [L|L]; [reflexivity|].
  assert (Z0 : Z.of_nat (List.length (page_entries links)) = 0) by lia.
  rewrite Z0. unfold ScoringSystem.award_points. cbn [Z.mul].
  rewrite !Z.add_0_r. now destruct sc.
Qed.

(** The same, for the collected videos only. *)
Lemma collect_taken links date_filter duplicate_checker sc st :
  collect_videos links date_filter duplicate_checker sc = Ok st ->
  exists taken rest,
    filter (passes date_filter) (page_entries links) = taken ++ rest /\
    videos_data st = map video_of taken /\
    (rest = [] \/
     exists check,
       duplicate_checker = Some check /\
       due (videos_data st) = true /\ check (videos_data st) = Ok false).
Proof.
  intros H.
  destruct (collect_effect _ _ _ _ _ H) as (seen & unseen & E & _ & V & _ & R).
  exists (filter (passes date_filter) seen),
    (filter (passes date_filter) unseen).
  split; [now rewrite E, filter_app|]. split; [exact V|].
  destruct R as [->|R]; [now left | now right].
Qed.

Lemma collect_defined links date_filter duplicate_checker sc :
  (forall check videos,
     duplicate_checker = Some check -> due videos = true ->
     exists answer, check videos = Ok answer) ->
  exists st, collect_videos links date_filter duplicate_checker sc = Ok st.
Proof.
  intros K. unfold collect_videos. cbv zeta. fold (page_entries links).
  destruct (page_entries_spec links) as (D & _).
  apply process_links_defined; [exact K | exact D | intros e _ []].
Qed.

(** A selection of entries with distinct keys has distinct keys. *)
Lemma filter_keeps_distinct_keys {V : Type} (keep : string * V -> bool) :
  forall entries : list (string * V),
    NoDup (map fst entries) -> NoDup (map fst (filter keep entries)).
Proof.
  intros entries. induction entries as [|entry rest IH]; intros D.
  - constructor.
  - cbn [map] in D. inversion D as [|k ks Fresh D']; subst.
    cbn [filter]. destruct (keep entry); [|exact (IH D')].
    cbn [map]. constructor; [|exact (IH D')].
    intros I. apply Fresh. apply in_map_iff in I.
    destruct I as (other & <- & I). apply filter_In in I.
    apply in_map. exact (proj1 I).
Qed.

Lemma video_of_id taken : map video_id (map video_of taken) = map fst taken.
Proof. rewrite map_map. reflexivity. Qed.

(** X25. The videos that the loop collects have pairwise different
    identities, and each of them comes from a link of the page: its
    identity is the one of the link, its title and its date are those
    found at the link, and its address is the watch address of the
    identity, from which the identity can be extracted again. *)
Theorem collected_videos_are_distinct_links :
  forall (links : list page_link) (date_filter : option string)
         (duplicate_checker : checker) (sc : ScoringSystem.state)
         (st : scrape_state),
    collect_videos links date_filter duplicate_checker sc = Ok st ->
    NoDup (map video_id (videos_data st)) /\
    (List.length (videos_data st) <= List.length links)%nat /\
    Forall
      (fun v =>
         url v = watch_url (video_id v) /\
         extract_video_id_from_url (url v) = Some (video_id v) /\
         exists link,
           In link links /\ link_video_id link = Some (video_id v) /\
           title v = fst (link_title link (video_id v)) /\
           date v = eng_date (link_engagement link) /\
           likes v = eng_likes (link_engagement link))
      (videos_data st).
Proof.
  intros links date_filter duplicate_checker sc st H.
  destruct (collect_taken _ _ _ _ _ H) as (taken & rest & E & V & _).
  destruct (page_entries_spec links) as (D & _ & I & L).
  assert (Sub : forall e, In e taken -> In e (page_entries links)).
  { intros e He.
    assert (In e (filter (passes date_filter) (page_entries links))).
    { rewrite E. apply in_app_iff. now left. }
    apply filter_In in H0. tauto. }
  rewrite V. split; [|split].
  - rewrite video_of_id.
    pose proof (filter_keeps_distinct_keys (passes date_filter) _ D) as N.
    rewrite E, map_app in N. now apply NoDup_app_remove_r in N.
  - rewrite length_map.
    assert (List.length taken <=
            List.length (filter (passes date_filter) (page_entries links)))%nat.
    { rewrite E, length_app. lia. }
    pose proof (filter_length_le (passes date_filter) (page_entries links)).
    lia.
  - apply Forall_forall. intros v Hv. apply in_map_iff in Hv.
    destruct Hv as (e & <- & He).
    destruct (I e (Sub e He)) as (link & El & Il & Id).
    destruct (link_id_shape _ _ Id) as [A Lid].
    cbn [video_of url video_id title date likes].
    split; [reflexivity|].
    split; [now apply watch_url_id|].
    exists link. rewrite El. now repeat split.
Qed.

Lemma collected_videos_are_distinct_links_witness :
  exists st,
    collect_videos (sample_page 3 ++ sample_page 2) None None no_score =
      Ok st /\
    List.length (videos_data st) = 3%nat /\
    NoDup (map video_id (videos_data st)).
Proof.
  destruct (collect_videos (sample_page 3 ++ sample_page 2) None None
              no_score) as [st|e] eqn:E; [|vm_compute in E; discriminate].
  exists st. split; [reflexivity|]. split.
  - vm_compute in E. injection E as <-. reflexivity.
  - now destruct (collected_videos_are_distinct_links _ _ _ _ _ E).
Defined.

Lemma process_link_empty_filter duplicate_checker st e :
  process_link (Some "") duplicate_checker st e =
  process_link None duplicate_checker st e.
Proof. reflexivity. Qed.

Lemma process_links_empty_filter duplicate_checker entries : forall st,
  process_links (Some "") duplicate_checker entries st =
  process_links None duplicate_checker entries st.
Proof.
  induction entries as [|e entries IH]; intros st; cbn [process_links];
    [reflexivity|].
  rewrite process_link_empty_filter.
  destruct (process_link None duplicate_checker st e) as [[go_on st1]|err];
    cbn [bind fst snd]; [|reflexivity].
  destruct go_on; [apply IH | reflexivity].
Qed.

(** X26. The date filter: with a filter that is not empty, every collected
    video shows no date at all or a date that contains the filter; an
    empty filter is no filter. *)
Theorem date_filter_keeps_matching_or_undated :
  forall (links : list page_link) (wanted : string)
         (duplicate_checker : checker) (sc : ScoringSystem.state),
    collect_videos links (Some "") duplicate_checker sc =
      collect_videos links None duplicate_checker sc /\
    (forall st,
       wanted <> "" ->
       collect_videos links (Some wanted) duplicate_checker sc = Ok st ->
       Forall (fun v => date v = "" \/ str_in wanted (date v) = true)
         (videos_data st)).
Proof.
  intros links wanted duplicate_checker sc. split.
  - unfold collect_videos. cbv zeta. apply process_links_empty_filter.
  - intros st Hw H.
    destruct (collect_taken _ _ _ _ _ H) as (taken & rest & E & V & _).
    rewrite V. apply Forall_forall. intros v Hv. apply in_map_iff in Hv.
    destruct Hv as (e & <- & He).
    assert (P : passes (Some wanted) e = true).
    { assert (I : In e (filter (passes (Some wanted)) (page_entries links))).
      { rewrite E. apply in_app_iff. now left. }
      apply filter_In in I. tauto. }
    cbn [video_of date].
    unfold passes, filter_applies, filter_on in P.
    destruct (eng_date (link_engagement (snd e))) as [|c d] eqn:Ed;
      [now left|].
    right. destruct wanted as [|w ws]; [contradiction|].
    cbn [PyStr.truthy andb] in P.
    now destruct (str_in (String w ws) (String c d)).
Qed.

Lemma date_filter_keeps_matching_or_undated_witness :
  exists st,
    collect_videos
      [sample_link 1 "3 years ago" 7; sample_link 2 "" 0;
       sample_link 3 "13 years ago" 1; sample_link 4 "2 days ago" 0]
      (Some "3 years") None no_score = Ok st /\
    map date (videos_data st) = ["3 years ago"; ""; "13 years ago"] /\
    Forall (fun v => date v = "" \/ str_in "3 years" (date v) = true)
      (videos_data st).
Proof.
  destruct (collect_videos
              [sample_link 1 "3 years ago" 7; sample_link 2 "" 0;
               sample_link 3 "13 years ago" 1; sample_link 4 "2 days ago" 0]
              (Some "3 years") None no_score) as [st|e] eqn:E;
    [|vm_compute in E; discriminate].
  exists st. split; [reflexivity|]. split.
  - vm_compute in E. injection E as <-. reflexivity.
  - destruct (date_filter_keeps_matching_or_undated
                [sample_link 1 "3 years ago" 7; sample_link 2 "" 0;
                 sample_link 3 "13 years ago" 1; sample_link 4 "2 days ago" 0]
                "3 years" None no_score) as [_ F].
    apply F; [discriminate | exact E].
Defined.

Lemma passes_without_filter entries :
  filter (passes None) entries = entries.
Proof.
  induction entries as [|e entries IH]; cbn [filter]; [reflexivity|].
  change (passes None e) with true. now rewrite IH.
Qed.

(** X27. Without a date filter and without a checker the loop ends without
    an error and collects every identity of the page exactly once, in the
    order in which the identities first occur on the page. *)
Theorem every_identity_is_collected_once :
  forall (links : list page_link) (sc : ScoringSystem.state),
    exists st,
      collect_videos links None None sc = Ok st /\
      map video_id (videos_data st) = fresh_ids [] (page_ids links) /\
      processed_ids st = map video_id (videos_data st).
Proof.
  intros links sc.
  assert (Pr : forall entries st st',
             process_links None None entries st = Ok st' ->
             processed_ids st = map video_id (videos_data st) ->
             processed_ids st' = map video_id (videos_data st')).
  { induction entries as [|e entries IH]; intros st st' H I.
    - injection H as <-. exact I.
    - cbn [process_links] in H. unfold process_link in H.
      destruct (existsb (String.eqb (fst e)) (processed_ids st)).
      + cbn [bind fst snd] in H. now apply (IH st st').
      + cbn [andb bind fst snd] in H. apply (IH _ st' H).
        cbn [processed_ids videos_data]. rewrite map_app, I. reflexivity. }
  destruct (collect_defined links None None sc) as (st & H);
    [intros check videos C; discriminate C|].
  exists st. split; [exact H|].
  destruct (collect_taken _ _ _ _ _ H) as (taken & rest & E & V & R).
  destruct (page_entries_spec links) as (_ & K & _).
  split.
  - destruct R as [->|(check & C & _)]; [|discriminate C].
    rewrite app_nil_r, passes_without_filter in E.
    rewrite V, video_of_id, <- E. exact K.
  - unfold collect_videos in H. cbv zeta in H.
    now apply (Pr _ _ _ H).
Qed.

(** The checker changes nothing when it answers to go on whenever it is
    consulted. *)
Lemma process_links_quiet date_filter check entries : forall st,
  NoDup (map fst entries) ->
  (forall e, In e entries -> ~ In (fst e) (processed_ids st)) ->
  (forall videos,
     due videos = true ->
     (List.length videos <=
      List.length (videos_data st) + List.length entries)%nat ->
     check videos = Ok true) ->
  process_links date_filter (Some check) entries st =
  process_links date_filter None entries st.
Proof.
  induction entries as [|e entries IH]; intros st D F K; [reflexivity|].
  cbn [process_links]. rewrite !process_link_new by (apply F; now left).
  cbn [map] in D. apply NoDup_cons_iff in D. destruct D as [De D].
  assert (F' : forall processed,
             processed = processed_ids st ++ [fst e] ->
             forall e', In e' entries -> ~ In (fst e') processed).
  { intros processed -> e' He' Hin. apply in_app_iff in Hin.
    destruct Hin as [Hin|[Hin|[]]].
    - apply (F e'); [now right | exact Hin].
    - apply De. rewrite Hin. now apply in_map. }
  cbn [List.length] in K.
  destruct (passes date_filter e).
  - cbv zeta.
    set (st1 := mkScrapeState (processed_ids st ++ [fst e])
                  (videos_data st ++ [video_of e])
                  (scored date_filter e
             (ScoringSystem.award_points (title_points e) (scoring st)))).
    assert (L1 : List.length (videos_data st1) =
                 S (List.length (videos_data st))).
    { unfold st1. cbn [videos_data]. rewrite length_app. simpl. lia. }
    assert (Next : process_links date_filter (Some check) entries st1 =
                   process_links date_filter None entries st1).
    { apply IH; [exact D | exact (F' _ eq_refl) |].
      intros videos Du Le. apply K; [exact Du | lia]. }
    destruct (due (videos_data st1)) eqn:Du.
    + rewrite (K _ Du) by lia. cbn [bind fst snd]. exact Next.
    + cbn [bind fst snd]. exact Next.
  - cbn [bind fst snd].
    apply (IH (mkScrapeState (processed_ids st ++ [fst e])
                 (videos_data st)
                     (ScoringSystem.award_points (title_points e) (scoring st))));
      [exact D | exact (F' _ eq_refl) |].
    intros videos Du Le. cbn [videos_data] in Le. apply K; [exact Du | lia].
Qed.

Lemma collect_quiet links date_filter check sc :
  (forall videos,
     due videos = true ->
     (List.length videos <= List.length links)%nat ->
     check videos = Ok true) ->
  collect_videos links date_filter (Some check) sc =
  collect_videos links date_filter None sc.
Proof.
  intros K. unfold collect_videos. cbv zeta. fold (page_entries links).
  destruct (page_entries_spec links) as (D & _ & _ & L).
  apply process_links_quiet; [exact D | intros e _ [] |].
  intros videos Du Le. cbn [videos_data List.length] in Le.
  apply K; [exact Du | lia].
Qed.

Lemma due_length videos :
  due videos = true ->
  (20 <= List.length videos)%nat /\
  Z.of_nat (List.length videos) mod 20 = 0.
Proof.
  unfold due. intros H. apply andb_true_iff in H. destruct H as [A B].
  apply Z.leb_le in A. apply Z.eqb_eq in B. split; [lia | exact B].
Qed.

(** X28. The checker is consulted only when the number of collected videos
    is a positive multiple of twenty.  On a page of fewer than twenty
    links the loop does what it does without a checker, whatever the
    checker is; and a loop that ends with a checker has collected an
    initial part of what it collects without one, the whole of it unless
    the checker has answered to stop at these videos, whose number is
    then such a multiple. *)
Theorem checker_is_consulted_every_twenty_videos :
  forall (links : list page_link) (date_filter : option string)
         (check : list VideoData -> result bool) (sc : ScoringSystem.state),
    ((List.length links < 20)%nat ->
     collect_videos links date_filter (Some check) sc =
       collect_videos links date_filter None sc) /\
    (forall st,
       collect_videos links date_filter (Some check) sc = Ok st ->
       exists full rest,
         collect_videos links date_filter None sc = Ok full /\
         videos_data full = videos_data st ++ rest /\
         (rest = [] \/
          (check (videos_data st) = Ok false /\
           (20 <= List.length (videos_data st))%nat /\
           Z.of_nat (List.length (videos_data st)) mod 20 = 0))).
Proof.
  intros links date_filter check sc. split.
  - intros Short. apply collect_quiet. intros videos Du Le.
    apply due_length in Du. lia.
  - intros st H.
    destruct (collect_taken _ _ _ _ _ H) as (taken & rest & E & V & R).
    destruct (collect_defined links date_filter None sc) as (full & Hf);
      [intros c videos C; discriminate C|].
    destruct (collect_taken _ _ _ _ _ Hf)
      as (taken' & rest' & E' & V' & R').
    destruct R' as [->|(c & C & _)]; [|discriminate C].
    rewrite app_nil_r in E'.
    exists full, (map video_of rest). split; [exact Hf|]. split.
    + rewrite V', V, <- map_app. f_equal. now rewrite <- E', E.
    + destruct R as [->|(c & C & Du & Stop)]; [now left|].
      right. injection C as <-. apply due_length in Du.
      split; [exact Stop | exact Du].
Qed.

Lemma checker_is_consulted_every_twenty_videos_witness :
  collect_videos (sample_page 19) None (Some always_raise) no_score =
    collect_videos (sample_page 19) None None no_score /\
  exists st full rest,
    collect_videos (sample_page 45) None (Some always_stop) no_score =
      Ok st /\
    collect_videos (sample_page 45) None None no_score = Ok full /\
    videos_data full = videos_data st ++ rest /\
    List.length (videos_data st) = 20%nat /\ List.length rest = 25%nat.
Proof.
  destruct (checker_is_consulted_every_twenty_videos (sample_page 19) None
              always_raise no_score) as [Short _].
  destruct (checker_is_consulted_every_twenty_videos (sample_page 45) None
              always_stop no_score) as [_ Stop].
  split; [apply Short; simpl; lia|].
  destruct (collect_videos (sample_page 45) None (Some always_stop) no_score)
    as [st|e] eqn:E; [|vm_compute in E; discriminate].
  destruct (Stop st eq_refl) as (full & rest & Hf & V & _).
  exists st, full, rest. split; [reflexivity|]. split; [exact Hf|].
  split; [exact V|].
  assert (Ls : List.length (videos_data st) = 20%nat).
  { vm_compute in E. injection E as <-. reflexivity. }
  assert (Lf : List.length (videos_data full) = 45%nat).
  { vm_compute in Hf. injection Hf as <-. reflexivity. }
  split; [exact Ls|]. rewrite V, length_app in Lf. lia.
Defined.

(** The guard of the harvester on a sample that is not empty. *)
Lemma guard_answers self videos :
  videos <> [] ->
  exists answer, _should_continue_session self videos = Ok answer.
Proof.
  intros Ne. unfold _should_continue_session.
  destruct (_ <? _); [now exists true|].
  set (n := Z.of_nat (List.length videos)).
  set (d := Z.of_nat
              (List.length
                 (filter (fun video => mem (video_id video) (all_videos self))
                    videos))).
  assert (Hn : 0 < n).
  { unfold n. destruct videos; [contradiction | simpl; lia]. }
  assert (D : 0 <= d <= n).
  { unfold d, n. split; [lia|]. apply Nat2Z.inj_le, filter_length_le. }
  destruct (part_of_whole d n D Hn) as (x & -> & _). cbn [bind].
  destruct (fge (Fin x) (duplicate_threshold self)); eexists; reflexivity.
Qed.

Lemma guard_unknown self videos :
  duplicate_threshold self = lit (8 # 10) -> videos <> [] ->
  (forall v, In v videos -> mem (video_id v) (all_videos self) = false) ->
  _should_continue_session self videos = Ok true.
Proof.
  intros T Ne U. unfold _should_continue_session.
  destruct (_ <? _); [reflexivity|].
  rewrite filter_none by exact U. cbn [List.length].
  assert (Hn : 0 < Z.of_nat (List.length videos)).
  { destruct videos; [contradiction | simpl; lia]. }
  assert (D : 0 <= 0 <= Z.of_nat (List.length videos)) by lia.
  change (Z.of_nat 0) with 0.
  destruct (part_of_whole 0 _ D Hn) as (x & -> & _ & _ & X0 & _).
  rewrite (X0 eq_refl), T. reflexivity.
Qed.

Lemma filter_all {A : Type} (p : A -> bool) (l : list A) :
  (forall x, In x l -> p x = true) -> filter p l = l.
Proof.
  induction l as [|x l IH]; intros H; cbn [filter]; [reflexivity|].
  rewrite (H x) by now left. f_equal. apply IH. intros y Hy. apply H.
  now right.
Qed.

Lemma guard_known self videos :
  duplicate_threshold self = lit (8 # 10) ->
  early_check_count self <= Z.of_nat (List.length videos) ->
  videos <> [] ->
  (forall v, In v videos -> mem (video_id v) (all_videos self) = true) ->
  _should_continue_session self videos = Ok false.
Proof.
  intros T Le Ne K. unfold _should_continue_session.
  destruct (Z.ltb_spec (Z.of_nat (List.length videos))
              (early_check_count self)); [lia|].
  rewrite filter_all by exact K.
  assert (Hn : 0 < Z.of_nat (List.length videos)).
  { destruct videos; [contradiction | simpl; lia]. }
  assert (D : 0 <= Z.of_nat (List.length videos) <=
              Z.of_nat (List.length videos)) by lia.
  destruct (part_of_whole _ _ D Hn) as (x & -> & _ & _ & _ & X1).
  rewrite (X1 eq_refl), T. reflexivity.
Qed.

(** A checker that stops whenever it is consulted on videos of a kind
    ends the loop at the twentieth video, when every entry is kept and
    is of the kind. *)
Lemma process_links_stops date_filter check (P : VideoData -> Prop) entries :
  (forall videos,
     due videos = true -> Forall P videos -> check videos = Ok false) ->
  forall st,
    NoDup (map fst entries) ->
    (forall e, In e entries -> ~ In (fst e) (processed_ids st)) ->
    (forall e, In e entries -> passes date_filter e = true) ->
    (forall e, In e entries -> P (video_of e)) ->
    Forall P (videos_data st) ->
    (List.length (videos_data st) < 20)%nat ->
    exists st',
      process_links date_filter (Some check) entries st = Ok st' /\
      List.length (videos_data st') =
        Nat.min 20 (List.length (videos_data st) + List.length entries).
Proof.
  intros K. induction entries as [|e entries IH]; intros st D F Pa Pe Ps L.
  - exists st. split; [reflexivity|]. cbn [List.length]. lia.
  - cbn [process_links]. rewrite process_link_new by (apply F; now left).
    rewrite (Pa e) by now left. cbv zeta.
    cbn [map] in D. apply NoDup_cons_iff in D. destruct D as [De D].
    set (st1 := mkScrapeState (processed_ids st ++ [fst e])
                  (videos_data st ++ [video_of e])
                  (scored date_filter e
             (ScoringSystem.award_points (title_points e) (scoring st)))).
    assert (L1 : List.length (videos_data st1) =
                 S (List.length (videos_data st))).
    { unfold st1. cbn [videos_data]. rewrite length_app. simpl. lia. }
    assert (P1 : Forall P (videos_data st1)).
    { unfold st1. cbn [videos_data]. apply Forall_app. split; [exact Ps|].
      constructor; [apply Pe; now left | constructor]. }
    cbn [List.length].
    destruct (due (videos_data st1)) eqn:Du.
    + rewrite (K _ Du P1). cbn [bind fst snd]. exists st1.
      split; [reflexivity|]. apply due_length in Du. lia.
    + cbn [bind fst snd].
      assert (L' : (List.length (videos_data st1) < 20)%nat).
      { destruct (Nat.eq_dec (List.length (videos_data st1)) 20) as [E|E];
          [|lia].
        unfold due in Du. rewrite E in Du. discriminate Du. }
      destruct (IH st1) as (st' & H & Len); try assumption.
      * intros e' He' Hin. unfold st1 in Hin. cbn [processed_ids] in Hin.
        apply in_app_iff in Hin. destruct Hin as [Hin|[Hin|[]]].
        -- apply (F e'); [now right | exact Hin].
        -- apply De. rewrite Hin. now apply in_map.
      * intros e' He'. apply Pa. now right.
      * intros e' He'. apply Pe. now right.
      * exists st'. split; [exact H|]. rewrite Len. lia.
Qed.

(** X29. The duplicate guard of the harvester as the checker of the loop:
    the loop never ends with an error.  With the threshold 0.8 of the
    constructor, a harvester without stored videos never stops the loop;
    and when every identity of the page is stored, no date filter is
    given and the size of the early check is at most twenty, the loop
    stops at the twentieth video. *)
Theorem harvester_guard_in_the_loop :
  forall (self : SmartHarvester) (links : list page_link)
         (date_filter : option string) (sc : ScoringSystem.state),
    exists st,
      collect_videos links date_filter
        (Some (_should_continue_session self)) sc = Ok st /\
      (duplicate_threshold self = lit (8 # 10) -> all_videos self = [] ->
       collect_videos links date_filter None sc = Ok st) /\
      (duplicate_threshold self = lit (8 # 10) ->
       early_check_count self <= 20 -> date_filter = None ->
       page_is_stored self links = true ->
       List.length (videos_data st) =
         Nat.min 20 (List.length (fresh_ids [] (page_ids links)))).
Proof.
  intros self links date_filter sc.
  destruct (collect_defined links date_filter
              (Some (_should_continue_session self)) sc) as (st & H).
  { intros check videos C Du. injection C as <-.
    apply guard_answers. apply due_length in Du.
    destruct videos; [simpl in Du; lia | discriminate]. }
  exists st. split; [exact H|]. split.
  - intros T He. rewrite <- H. symmetry. apply collect_quiet.
    intros videos Du _. apply guard_unknown; [exact T | |].
    + apply due_length in Du. destruct videos; [simpl in Du; lia | discriminate].
    + intros v _. rewrite He. reflexivity.
  - intros T Le -> St.
    destruct (page_entries_spec links) as (D & K & I & _).
    destruct (process_links_stops None (_should_continue_session self)
                (fun v => mem (video_id v) (all_videos self) = true)
                (page_entries links))
      with (st := mkScrapeState [] []
                    (if 0 <? len (videos_by_id (video_links links))
                     then ScoringSystem.award_points
                            (len (videos_by_id (video_links links)) * 5) sc
                     else sc))
      as (st' & H' & Len).
    + intros videos Du Known. apply due_length in Du.
      apply guard_known; [exact T | lia | |].
      * destruct videos; [simpl in Du; lia | discriminate].
      * intros v Hv. exact (proj1 (Forall_forall _ _) Known v Hv).
    + exact D.
    + intros e _ [].
    + intros e _. reflexivity.
    + intros e He. destruct (I e He) as (link & _ & Il & Id).
      cbn [video_of video_id].
      unfold page_is_stored in St.
      pose proof (proj1 (forallb_forall _ _) St link Il) as M.
      cbv beta in M. now rewrite Id in M.
    + constructor.
    + cbn [videos_data List.length]. lia.
    + unfold collect_videos in H. cbv zeta in H.
      fold (page_entries links) in H. rewrite H' in H. injection H as <-.
      rewrite Len. cbn [videos_data List.length Nat.add].
      unfold keys in K. now rewrite <- K, length_map.
Qed.

Lemma harvester_guard_in_the_loop_witness :
  (exists st,
     collect_videos (sample_page 25) None
       (Some (_should_continue_session (sample_corpus 25))) no_score =
       Ok st /\
     List.length (videos_data st) = 20%nat) /\
  (exists st,
     collect_videos (sample_page 25) None
       (Some (_should_continue_session fresh_harvester)) no_score = Ok st /\
     collect_videos (sample_page 25) None None no_score = Ok st).
Proof.
  split.
  - destruct (harvester_guard_in_the_loop (sample_corpus 25) (sample_page 25)
                None no_score) as (st & H & _ & Stop).
    exists st. split; [exact H|].
    rewrite Stop; [vm_compute; reflexivity | reflexivity | simpl; lia |
                   reflexivity | vm_compute; reflexivity].
  - destruct (harvester_guard_in_the_loop fresh_harvester (sample_page 25)
                None no_score) as (st & H & Go & _).
    exists st. split; [exact H|]. apply Go; reflexivity.
Defined.

Lemma fold_scored date_filter seen : forall sc,
  let sc' := fold_left (fun sc e => scored_entry date_filter e sc) seen sc in
  let videos := map video_of (filter (passes date_filter) seen) in
  let earned :=
    total (map title_points seen) + total (map (points date_filter) videos) in
  ScoringSystem.session_score sc' = ScoringSystem.session_score sc + earned /\
  ScoringSystem.total_score sc' = ScoringSystem.total_score sc + earned /\
  ScoringSystem.dates_found sc' =
    ScoringSystem.dates_found sc + Z.of_nat (List.length (with_date videos)) /\
  ScoringSystem.likes_found sc' =
    ScoringSystem.likes_found sc + Z.of_nat (List.length (with_likes videos)).
Proof.
  induction seen as [|e seen IH]; intros sc; cbv zeta.
  - cbn [fold_left map total fold_right with_date with_likes filter
         List.length]. cbn [Z.of_nat]. now rewrite !Z.add_0_r.
  - cbn [fold_left map filter].
    destruct (IH (scored_entry date_filter e sc)) as (A & B & C & D).
    cbv zeta in A, B, C, D. rewrite A, B, C, D. clear A B C D IH.
    set (vs := map video_of (filter (passes date_filter) seen)).
    assert (T : total (title_points e :: map title_points seen) =
                title_points e + total (map title_points seen))
      by reflexivity.
    rewrite T. unfold scored_entry.
    destruct (passes date_filter e) eqn:P.
    + cbn [map]. fold vs.
      assert (T' : total (points date_filter (video_of e) ::
                          map (points date_filter) vs) =
                   points date_filter (video_of e) +
                   total (map (points date_filter) vs)) by reflexivity.
      assert (Wd : Z.of_nat (List.length (with_date (video_of e :: vs))) =
                   (if PyStr.truthy (eng_date (link_engagement (snd e)))
                    then 1 else 0) +
                   Z.of_nat (List.length (with_date vs))).
      { unfold with_date. cbn [filter video_of date].
        destruct (PyStr.truthy _); cbn [List.length]; lia. }
      assert (Wl : Z.of_nat (List.length (with_likes (video_of e :: vs))) =
                   (if 0 <? eng_likes (link_engagement (snd e))
                    then 1 else 0) +
                   Z.of_nat (List.length (with_likes vs))).
      { unfold with_likes. cbn [filter video_of likes].
        destruct (0 <? _); cbn [List.length]; lia. }
      rewrite T', Wd, Wl. unfold points. cbn [video_of date likes].
      unfold scored, filter_applies.
      destruct (filter_on date_filter);
        destruct (PyStr.truthy (eng_date (link_engagement (snd e))));
        destruct (0 <? eng_likes (link_engagement (snd e)));
        cbn [andb ScoringSystem.award_points ScoringSystem.count_date
             ScoringSystem.count_likes ScoringSystem.session_score
             ScoringSystem.total_score ScoringSystem.dates_found
             ScoringSystem.likes_found];
        repeat split; lia.
    + fold vs.
      cbn [ScoringSystem.award_points ScoringSystem.session_score
           ScoringSystem.total_score ScoringSystem.dates_found
           ScoringSystem.likes_found].
      repeat split; lia.
Qed.

(** X30. The points of the loop: five for every identity of the page,
    whether or not the loop reaches it; for every entry that the loop
    reaches, the points of the extraction of its title, whether or not
    the date filter keeps the video; and for a collected video three for
    a date, eight with a date filter, and five for likes.  The counters
    of dates and of likes grow by the numbers of collected videos that
    show them. *)
Theorem points_of_the_collection :
  forall (links : list page_link) (date_filter : option string)
         (duplicate_checker : checker) (sc : ScoringSystem.state)
         (st : scrape_state),
    collect_videos links date_filter duplicate_checker sc = Ok st ->
    let found := Z.of_nat (List.length (fresh_ids [] (page_ids links))) in
    let earned :=
      total (map title_points (seen_entries links st)) +
      total (map (points date_filter) (videos_data st)) in
    ScoringSystem.session_score (scoring st) =
      ScoringSystem.session_score sc + 5 * found + earned /\
    ScoringSystem.total_score (scoring st) =
      ScoringSystem.total_score sc + 5 * found + earned /\
    ScoringSystem.dates_found (scoring st) =
      ScoringSystem.dates_found sc +
      Z.of_nat (List.length (with_date (videos_data st))) /\
    ScoringSystem.likes_found (scoring st) =
      ScoringSystem.likes_found sc +
      Z.of_nat (List.length (with_likes (videos_data st))).
Proof.
  intros links date_filter duplicate_checker sc st H. cbv zeta.
  destruct (collect_effect _ _ _ _ _ H)
    as (seen & unseen & E & Pr & V & S & _).
  destruct (page_entries_spec links) as (_ & K & _).
  assert (N : List.length (fresh_ids [] (page_ids links)) =
              List.length (page_entries links)).
  { now rewrite <- K, length_map. }
  assert (Seen : seen_entries links st = seen).
  { unfold seen_entries. rewrite Pr, length_map, E.
    rewrite firstn_app, Nat.sub_diag, firstn_all. cbn [firstn].
    apply app_nil_r. }
  destruct (fold_scored date_filter seen
              (ScoringSystem.award_points
                 (Z.of_nat (List.length (page_entries links)) * 5) sc))
    as (A & B & C & D).
  cbv zeta in A, B, C, D. rewrite <- S, <- V in A, B, C, D.
  rewrite A, B, C, D, N, Seen.
  cbn [ScoringSystem.award_points ScoringSystem.session_score
       ScoringSystem.total_score ScoringSystem.dates_found
       ScoringSystem.likes_found].
  repeat split; lia.
Qed.

Lemma points_of_the_collection_witness :
  exists st,
    collect_videos
      [sample_link 1 "3 years ago" 7; sample_link 2 "" 0;
       sample_link 3 "2 days ago" 1; sample_link 1 "3 years ago" 7]
      (Some "3 years") None no_score = Ok st /\
    ScoringSystem.session_score (scoring st) = 15 + (60 + 13) /\
    ScoringSystem.dates_found (scoring st) = 1.
Proof.
  destruct (collect_videos
              [sample_link 1 "3 years ago" 7; sample_link 2 "" 0;
               sample_link 3 "2 days ago" 1; sample_link 1 "3 years ago" 7]
              (Some "3 years") None no_score) as [st|e] eqn:E;
    [|vm_compute in E; discriminate].
  exists st. split; [reflexivity|].
  destruct (points_of_the_collection _ _ _ _ _ E) as (A & _ & C & _).
  rewrite A, C. vm_compute in E. injection E as <-.
  split; vm_compute; reflexivity.
Defined.

End Collection.
